(** * Sandbox manager: session lifecycle and execution dispatch

    A shallow embedding of [src/sandbox/manager.py]: the [WorkspaceSession]
    record, the [SandboxManager] methods and the cooperative scheduling of
    its coroutines, followed by the properties of the session lifecycle.

    Conventions of the embedding.
    - Python objects that are mutated through references
      ([WorkspaceSession], [InteractiveSandboxSession], asyncio tasks) live
      in stores indexed by reference; [self.sessions] maps workspace ids to
      references, in insertion order like a Python [dict].
    - The outside world (clock, container runtime, file system, child
      processes) is a [Host]: a family of answers indexed by the number of
      host interactions made so far. Every statement is for all hosts.
    - A method is a function from the world to an outcome and a new world.
      An outcome is a returned value, a raised exception, or [Fault] (a
      dangling reference, which Python cannot produce; no handler catches
      it).  All modelled exceptions derive from [Exception].
    - Timestamps ([time.time()]) are integers (seconds). *)

From Stdlib Require Import ZArith List String Ascii Bool Arith Lia.
From Stdlib Require Import DecimalString.
Import ListNotations.

Local Open Scope string_scope.
Local Open Scope list_scope.
Local Open Scope Z_scope.

(** String concatenation, as in f-strings. *)
Notation "a ^^ b" := (String.append a b) (at level 60, right associativity).

(** ** Configuration (manager.py, lines 31-42) *)

Definition IDLE_TIMEOUT : Z := 30 * 60.
Definition EXECUTION_TIMEOUT : Z := 60.
Definition DEFAULT_LIBRARIES : list string :=
  [ "pandas"; "numpy"; "matplotlib"; "pypdf"; "pdfplumber"; "openpyxl";
    "requests" ].

(** The argument of [asyncio.sleep] in [_cleanup_loop]. *)
Definition CLEANUP_INTERVAL : Z := 60.

(** ** Python values *)

(** Identities of objects: of an [InteractiveSandboxSession], of a
    [WorkspaceSession] and of an [asyncio.Task]. *)
Abbreviation handle := nat (only parsing).
Abbreviation ref := nat (only parsing).
Abbreviation task_id := nat (only parsing).

Inductive exn_class :=
| KeyError
| TimeoutExpired          (* subprocess.TimeoutExpired *)
| SandboxTimeoutError     (* raised by the sandbox's run on expiry *)
| OtherException.

Record exn := mkExn { exn_cls : exn_class; exn_str : string }.

(** [str(e)] *)
Definition str (e : exn) : string := exn_str e.

(** [str(n)] for an [int]. *)
Definition str_int (n : Z) : string := NilZero.string_of_int (Z.to_int n).

(** [s.replace(a, b)] for one-character [a] and [b]. *)
Fixpoint replace (a b : ascii) (s : string) : string :=
  match s with
  | EmptyString => EmptyString
  | String c s' => String (if Ascii.eqb c a then b else c) (replace a b s')
  end.

(** [x or ""] where [x] is [None] or a string. *)
Definition or_empty (x : option string) : string :=
  match x with Some s => s | None => "" end.

(** [x or []] where [x] is [None] or a list. *)
Definition or_nil {A} (x : option (list A)) : list A :=
  match x with Some l => l | None => [] end.

Fixpoint ends_with (c : ascii) (s : string) : bool :=
  match s with
  | EmptyString => false
  | String a EmptyString => Ascii.eqb a c
  | String _ s' => ends_with c s'
  end.

(** [os.path.join(a, b)] on POSIX for a relative [b]. *)
Definition os_path_join (a b : string) : string :=
  if String.eqb a "" || ends_with "/" a then a ^^ b else a ^^ "/" ^^ b.

(** [os.path.join(d, ".venv", "bin", "python")] *)
Definition venv_python_path (d : string) : string :=
  os_path_join (os_path_join (os_path_join d ".venv") "bin") "python".

(** ** Data model *)

(** [class WorkspaceSession] (lines 45-51). *)
Record WorkspaceSession := mkWS {
  workspace_id : string;
  session : option handle;
  created_at : Z;
  last_used : Z;
}.

(** What the sandbox's [run] returns: an object of a class of the
    sandbox library.  [execute] reads four attributes of it.  [exit_code],
    [stdout] and [stderr] are attributes of the library's result class;
    [images] (line 203) is not an attribute of every such class, so the
    object carries the name of its class and may have no [images]. *)
Record ConsoleOutput := mkCO {
  co_class : string;                      (* type(result).__name__ *)
  exit_code : Z;
  co_stdout : option string;
  co_stderr : option string;
  images : option (option (list string)); (* None: no such attribute *)
}.

(** The [AttributeError] of [obj.name] on an object of class [cls] that
    has no attribute [name]. *)
Definition no_attribute (cls name : string) : exn :=
  mkExn OtherException
    ("'" ^^ cls ^^ "' object has no attribute '" ^^ name ^^ "'").

(** What [subprocess.run(..., capture_output=True, text=True)] returns. *)
Record CompletedProcess := mkCP {
  returncode : Z;
  cp_stdout : string;
  cp_stderr : string;
}.

Record Artifact := mkArtifact { a_type : string; a_data : string }.

(** The dict returned by [execute]. *)
Record ExecutionResult := mkResult {
  success : bool;
  stdout : string;
  stderr : string;
  artifacts : list Artifact;
}.

Inductive EnvStatus := Constructed | Entered | Exited.

(** An [InteractiveSandboxSession] object: its lifecycle and the code it
    has been asked to run, oldest first (its interpreter state is a
    function of that history). *)
Record EnvObj := mkEnv { status : EnvStatus; history : list string }.

Inductive RunOutcome :=
| RunReturns (r : ConsoleOutput)
| RunRaises (e : exn).

Inductive ProcOutcome :=
| ProcReturns (r : CompletedProcess)
| ProcRaises (e : exn).

(** ** The outside world *)

Record Host := mkHost {
  LLM_SANDBOX_AVAILABLE : bool;         (* did the import succeed *)
  module_dir : string;                  (* os.path.dirname(__file__) *)
  time_at : nat -> Z;                   (* time.time() *)
  construct_at : nat -> option exn;     (* InteractiveSandboxSession(...) *)
  enter_at : nat -> handle -> option exn;        (* __enter__ *)
  exit_at : nat -> handle -> option exn;         (* __exit__ *)
  run_at : nat -> handle -> EnvObj -> string -> option Z -> RunOutcome;
  path_exists_at : nat -> string -> bool;        (* os.path.exists *)
  subprocess_at : nat -> string -> string -> Z -> ProcOutcome;
}.

(** ** Effects *)

Inductive Level := INFO | WARNING | ERROR.

(** Blocking calls into the outside world. *)
Inductive Op :=
| OpConstruct
| OpEnter (h : handle)
| OpRun (h : handle) (code : string) (timeout : option Z)
| OpExit (h : handle)
| OpSubprocess (python code : string) (timeout : Z).

Inductive Event :=
| Log (lvl : Level) (msg : string)
| Begin (op : Op)
| End (op : Op)
| CancelTask (t : task_id).

(** Program points at which [_cleanup_loop] can be parked: before its
    first line, and in [await asyncio.sleep(delay)]. *)
Inductive CleanupPc := AtEntry | InSleep (delay : Z).

Inductive TaskStatus :=
| Parked (pc : CleanupPc)
| CancelRequested (pc : CleanupPc)
| Finished.

Record World := mkWorld {
  sessions : list (string * ref);     (* self.sessions *)
  _cleanup_task : option task_id;     (* self._cleanup_task *)
  heap : list WorkspaceSession;
  envs : list EnvObj;
  tasks : list TaskStatus;
  steps : nat;                        (* host interactions so far *)
  trace : list Event;
}.

(** [SandboxManager.__init__] (lines 63-65), in a process that has done
    nothing yet. *)
Definition init_world : World :=
  mkWorld [] None [] [] [] 0%nat [].

Definition set_sessions (s : list (string * ref)) (w : World) : World :=
  mkWorld s (_cleanup_task w) (heap w) (envs w) (tasks w) (steps w) (trace w).
Definition set_cleanup_task (t : option task_id) (w : World) : World :=
  mkWorld (sessions w) t (heap w) (envs w) (tasks w) (steps w) (trace w).
Definition set_heap (h : list WorkspaceSession) (w : World) : World :=
  mkWorld (sessions w) (_cleanup_task w) h (envs w) (tasks w) (steps w) (trace w).
Definition set_envs (e : list EnvObj) (w : World) : World :=
  mkWorld (sessions w) (_cleanup_task w) (heap w) e (tasks w) (steps w) (trace w).
Definition set_tasks (t : list TaskStatus) (w : World) : World :=
  mkWorld (sessions w) (_cleanup_task w) (heap w) (envs w) t (steps w) (trace w).
Definition set_steps (n : nat) (w : World) : World :=
  mkWorld (sessions w) (_cleanup_task w) (heap w) (envs w) (tasks w) n (trace w).
Definition set_trace (t : list Event) (w : World) : World :=
  mkWorld (sessions w) (_cleanup_task w) (heap w) (envs w) (tasks w) (steps w) t.

Inductive Outcome (A : Type) :=
| Ok (a : A)
| Raise (e : exn)
| Fault.
Arguments Ok {A} a.
Arguments Raise {A} e.
Arguments Fault {A}.

Definition M (A : Type) : Type := World -> Outcome A * World.

Definition ret {A} (a : A) : M A := fun w => (Ok a, w).

Definition bind {A B} (m : M A) (k : A -> M B) : M B :=
  fun w =>
    match m w with
    | (Ok a, w') => k a w'
    | (Raise e, w') => (Raise e, w')
    | (Fault, w') => (Fault, w')
    end.

Definition raise {A} (e : exn) : M A := fun w => (Raise e, w).

(** [try: m  except Exception as e: handler e] *)
Definition try_except {A} (m : M A) (handler : exn -> M A) : M A :=
  fun w =>
    match m w with
    | (Raise e, w') => handler e w'
    | r => r
    end.

Declare Scope py_scope.
Delimit Scope py_scope with py.
Notation "x <- m ;; k" := (bind m (fun x => k))
  (at level 100, m at next level, right associativity) : py_scope.
Notation "m ;; k" := (bind m (fun _ => k))
  (at level 100, right associativity) : py_scope.

(** [await c] for a coroutine object [c] of this module: the coroutine
    runs inline, and control goes back to the event loop only if [c]
    itself parks.  None of the coroutines awaited in this way parks, so
    [await c] is [c]. *)
Notation "'await' m" := m (at level 99, m at level 99, only parsing)
  : py_scope.
Local Open Scope py_scope.

(** [for x in l: body x] *)
Fixpoint for_each {A} (l : list A) (body : A -> M unit) : M unit :=
  match l with
  | [] => ret tt
  | x :: l' => body x ;; for_each l' body
  end.

(** [[k for (k, v) in l if cond v]] with an effectful condition. *)
Fixpoint select_keys {K V} (l : list (K * V)) (cond : V -> M bool)
  : M (list K) :=
  match l with
  | [] => ret []
  | (k, v) :: l' =>
      b <- cond v ;;
      rest <- select_keys l' cond ;;
      ret (if b then k :: rest else rest)
  end.

(** ** Stores *)

Fixpoint update {A} (n : nat) (x : A) (l : list A) : list A :=
  match l, n with
  | [], _ => []
  | _ :: l', O => x :: l'
  | y :: l', S n' => y :: update n' x l'
  end.

(** A Python [dict] with string keys, in insertion order. *)
Fixpoint dict_get {V} (k : string) (d : list (string * V)) : option V :=
  match d with
  | [] => None
  | (k', v) :: d' => if String.eqb k k' then Some v else dict_get k d'
  end.

(** [d[k] = v]: an existing key keeps its position. *)
Fixpoint dict_set {V} (k : string) (v : V) (d : list (string * V))
  : list (string * V) :=
  match d with
  | [] => [(k, v)]
  | (k', v') :: d' =>
      if String.eqb k k' then (k, v) :: d' else (k', v') :: dict_set k v d'
  end.

(** [del d[k]] on the list (the caller raises [KeyError] when absent). *)
Fixpoint dict_del {V} (k : string) (d : list (string * V))
  : list (string * V) :=
  match d with
  | [] => []
  | (k', v') :: d' =>
      if String.eqb k k' then d' else (k', v') :: dict_del k d'
  end.

Definition keys {V} (d : list (string * V)) : list string := map fst d.
Definition values {V} (d : list (string * V)) : list V := map snd d.

(** ** The manager *)

Section Manager.

Context (host : Host).

(** *** Primitive effects *)

Definition emit (e : Event) : M unit :=
  fun w => (Ok tt, set_trace (trace w ++ [e]) w).

Definition logger (lvl : Level) (msg : string) : M unit := emit (Log lvl msg).

(** One more interaction with the host; its index selects the answer. *)
Definition next_step : M nat :=
  fun w => (Ok (steps w), set_steps (S (steps w)) w).

Definition time_time : M Z :=
  n <- next_step ;; ret (time_at host n).

Definition deref (r : ref) : M WorkspaceSession :=
  fun w =>
    match nth_error (heap w) r with
    | Some ws => (Ok ws, w)
    | None => (Fault, w)
    end.

Definition assign (r : ref) (ws : WorkspaceSession) : M unit :=
  fun w => (Ok tt, set_heap (update r ws (heap w)) w).

Definition alloc (ws : WorkspaceSession) : M ref :=
  fun w => (Ok (List.length (heap w)), set_heap (heap w ++ [ws]) w).

Definition env_get (h : handle) : M EnvObj :=
  fun w =>
    match nth_error (envs w) h with
    | Some e => (Ok e, w)
    | None => (Fault, w)
    end.

Definition env_put (h : handle) (e : EnvObj) : M unit :=
  fun w => (Ok tt, set_envs (update h e (envs w)) w).

Definition env_alloc (e : EnvObj) : M handle :=
  fun w => (Ok (List.length (envs w)), set_envs (envs w ++ [e]) w).

Definition get_sessions : M (list (string * ref)) :=
  fun w => (Ok (sessions w), w).

Definition put_sessions (s : list (string * ref)) : M unit :=
  fun w => (Ok tt, set_sessions s w).

(** [self.sessions[k]] *)
Definition sessions_getitem (k : string) : M ref :=
  ss <- get_sessions ;;
  match dict_get k ss with
  | Some r => ret r
  | None => raise (mkExn KeyError ("'" ^^ k ^^ "'"))
  end.

(** [self.sessions[k] = r] *)
Definition sessions_setitem (k : string) (r : ref) : M unit :=
  ss <- get_sessions ;; put_sessions (dict_set k r ss).

(** [del self.sessions[k]] *)
Definition sessions_delitem (k : string) : M unit :=
  ss <- get_sessions ;;
  match dict_get k ss with
  | Some _ => put_sessions (dict_del k ss)
  | None => raise (mkExn KeyError ("'" ^^ k ^^ "'"))
  end.

(** *** The sandbox library and the operating system *)

(** [InteractiveSandboxSession(lang="python", keep_template=True,
    verbose=False)] *)
Definition InteractiveSandboxSession : M handle :=
  emit (Begin OpConstruct) ;;
  n <- next_step ;;
  match construct_at host n with
  | Some e => emit (End OpConstruct) ;; raise e
  | None =>
      h <- env_alloc (mkEnv Constructed []) ;;
      emit (End OpConstruct) ;;
      ret h
  end.

(** [s.__enter__()] *)
Definition session_enter (h : handle) : M unit :=
  emit (Begin (OpEnter h)) ;;
  n <- next_step ;;
  env <- env_get h ;;
  match enter_at host n h with
  | Some e => emit (End (OpEnter h)) ;; raise e
  | None =>
      env_put h (mkEnv Entered (history env)) ;;
      emit (End (OpEnter h))
  end.

(** [s.run(code)] and [s.run(code, timeout=t)] *)
Definition session_run (h : handle) (code : string) (timeout : option Z)
  : M ConsoleOutput :=
  emit (Begin (OpRun h code timeout)) ;;
  n <- next_step ;;
  env <- env_get h ;;
  env_put h (mkEnv (status env) (history env ++ [code])) ;;
  emit (End (OpRun h code timeout)) ;;
  match run_at host n h env code timeout with
  | RunReturns r => ret r
  | RunRaises e => raise e
  end.

(** [s.__exit__(None, None, None)] *)
Definition session_exit (h : handle) : M unit :=
  emit (Begin (OpExit h)) ;;
  n <- next_step ;;
  env <- env_get h ;;
  match exit_at host n h with
  | Some e => emit (End (OpExit h)) ;; raise e
  | None =>
      env_put h (mkEnv Exited (history env)) ;;
      emit (End (OpExit h))
  end.

(** [os.path.exists(p)] *)
Definition os_path_exists (p : string) : M bool :=
  n <- next_step ;; ret (path_exists_at host n p).

(** [subprocess.run([python, "-c", code], capture_output=True, text=True,
    timeout=timeout, cwd=...)] *)
Definition subprocess_run (python code : string) (timeout : Z)
  : M CompletedProcess :=
  emit (Begin (OpSubprocess python code timeout)) ;;
  n <- next_step ;;
  emit (End (OpSubprocess python code timeout)) ;;
  match subprocess_at host n python code timeout with
  | ProcReturns r => ret r
  | ProcRaises e => raise e
  end.

(** *** [WorkspaceSession] (lines 45-57) *)

(** [WorkspaceSession(workspace_id=workspace_id)]: the two default
    factories read the clock one after the other. *)
Definition WorkspaceSession_new (workspace_id : string) : M ref :=
  c <- time_time ;;
  l <- time_time ;;
  alloc (mkWS workspace_id None c l).

Definition is_expired (self : ref) : M bool :=
  now <- time_time ;;
  ws <- deref self ;;
  ret (now - last_used ws >? IDLE_TIMEOUT).

Definition touch (self : ref) : M unit :=
  now <- time_time ;;
  ws <- deref self ;;
  assign self (mkWS (workspace_id ws) (session ws) (created_at ws) now).

(** [ws.session = v] *)
Definition set_session (r : ref) (v : option handle) : M unit :=
  ws <- deref r ;;
  assign r (mkWS (workspace_id ws) v (created_at ws) (last_used ws)).

(** [result.images] *)
Definition result_images (result : ConsoleOutput)
  : M (option (list string)) :=
  match images result with
  | Some v => ret v
  | None => raise (no_attribute (co_class result) "images")
  end.

(** [ws.session.run(code, ...)]: attribute access on [None] raises. *)
Definition ws_session_run (r : ref) (code : string) (timeout : option Z)
  : M ConsoleOutput :=
  ws <- deref r ;;
  match session ws with
  | Some h => session_run h code timeout
  | None =>
      raise (mkExn OtherException
               "'NoneType' object has no attribute 'run'")
  end.

(** *** [SandboxManager] (lines 60-220) *)

(** [asyncio.create_task(self._cleanup_loop())] *)
Definition create_cleanup_task : M task_id :=
  fun w => (Ok (List.length (tasks w)), set_tasks (tasks w ++ [Parked AtEntry]) w).

(** [t.cancel()]: a request on a live task, nothing on a finished one. *)
Definition cancel_status (st : TaskStatus) : TaskStatus :=
  match st with
  | Parked pc => CancelRequested pc
  | _ => st
  end.

Definition task_cancel (t : task_id) : M unit :=
  fun w =>
    match nth_error (tasks w) t with
    | Some st =>
        (Ok tt,
         set_trace (trace w ++ [CancelTask t])
           (set_tasks (update t (cancel_status st) (tasks w)) w))
    | None => (Fault, w)
    end.

Definition start : M unit :=
  t <- create_cleanup_task ;;
  (fun w => (Ok tt, set_cleanup_task (Some t) w)) ;;
  logger INFO "Sandbox manager started".

Definition _close_session (ws : ref) : M unit :=
  s <- deref ws ;;
  match session s with
  | Some h =>
      try_except (session_exit h)
        (fun e =>
           logger ERROR
             ("Error closing session " ^^ workspace_id s ^^ ": " ^^ str e))
  | None => ret tt
  end.

Definition stop : M unit :=
  t <- (fun w => (Ok (_cleanup_task w), w)) ;;
  match t with
  | Some t => task_cancel t
  | None => ret tt
  end ;;
  ss <- get_sessions ;;
  for_each (values ss) (fun ws => await _close_session ws) ;;
  put_sessions [] ;;
  logger INFO "Sandbox manager stopped".

(** Lines 94-96, for one id of the list [expired]. *)
Definition cleanup_expired (ws_id : string) : M unit :=
  logger INFO ("Cleaning up expired session: " ^^ ws_id) ;;
  ws <- sessions_getitem ws_id ;;
  await _close_session ws ;;
  sessions_delitem ws_id.

(** One iteration of the [while True] of [_cleanup_loop], from the return
    of [asyncio.sleep(60)] to the next call of it (lines 88-96). *)
Definition cleanup_iteration : M unit :=
  ss <- get_sessions ;;
  expired <- select_keys ss is_expired ;;
  for_each expired cleanup_expired.

(** The body of the loop at lines 130-134. *)
Definition preinstall_lib (ws : ref) (lib : string) : M unit :=
  try_except
    (_ <- ws_session_run ws ("import " ^^ replace "-" "_" lib) None ;;
     ret tt)
    (fun _ =>
       _ <- ws_session_run ws ("!pip install -q " ^^ lib) None ;;
       ret tt).

(** Lines 129-134. *)
Definition preinstall (ws : ref) : M unit :=
  for_each DEFAULT_LIBRARIES (preinstall_lib ws).

(** Lines 118-139: the environment of the new record [ws]. *)
Definition create_sandbox (workspace_id : string) (ws : ref) : M unit :=
  if LLM_SANDBOX_AVAILABLE host then
    try_except
      (h <- InteractiveSandboxSession ;;
       set_session ws (Some h) ;;
       session_enter h ;;
       preinstall ws ;;
       logger INFO ("Session created for workspace: " ^^ workspace_id))
      (fun e =>
         logger ERROR ("Failed to create sandbox session: " ^^ str e) ;;
         set_session ws None)
  else ret tt.

Definition get_or_create_session (workspace_id : string) : M ref :=
  ss <- get_sessions ;;
  match dict_get workspace_id ss with
  | Some ws => touch ws ;; ret ws
  | None =>
      logger INFO
        ("Creating new sandbox session for workspace: " ^^ workspace_id) ;;
      ws <- WorkspaceSession_new workspace_id ;;
      create_sandbox workspace_id ws ;;
      sessions_setitem workspace_id ws ;;
      ret ws
  end.

Definition timeout_message (timeout : Z) : string :=
  "Execution timed out after " ^^ str_int timeout ^^ " seconds".

Definition execute (workspace_id code : string) (timeout : Z)
  : M ExecutionResult :=
  ws <- await get_or_create_session workspace_id ;;
  s <- deref ws ;;
  match session s with
  | None =>
      logger WARNING "No sandbox available, using subprocess fallback" ;;
      let venv_python := venv_python_path (module_dir host) in
      found <- os_path_exists venv_python ;;
      let venv_python := if found then venv_python else "python3" in
      try_except
        (result <- subprocess_run venv_python code timeout ;;
         ret (mkResult (returncode result =? 0)
                (cp_stdout result) (cp_stderr result) []))
        (fun e =>
           match exn_cls e with
           | TimeoutExpired =>
               ret (mkResult false "" (timeout_message timeout) [])
           | _ => ret (mkResult false "" (str e) [])
           end)
  | Some _ =>
      try_except
        (result <- ws_session_run ws code (Some timeout) ;;
         touch ws ;;
         imgs <- result_images result ;;
         ret (mkResult (exit_code result =? 0)
                (or_empty (co_stdout result))
                (or_empty (co_stderr result))
                (map (mkArtifact "image") (or_nil imgs))))
        (fun e =>
           logger ERROR
             ("Execution error in " ^^ workspace_id ^^ ": " ^^ str e) ;;
           ret (mkResult false "" (str e) []))
  end.

Definition destroy_session (workspace_id : string) : M unit :=
  ss <- get_sessions ;;
  match dict_get workspace_id ss with
  | Some _ =>
      ws <- sessions_getitem workspace_id ;;
      await _close_session ws ;;
      sessions_delitem workspace_id ;;
      logger INFO ("Destroyed session for workspace: " ^^ workspace_id)
  | None => ret tt
  end.

(** *** Cooperative scheduling

    The event loop switches coroutines only where one awaits something
    that is not ready. In this module the only such place is
    [await asyncio.sleep(60)] in [_cleanup_loop]: every other [await] is on
    a coroutine of the manager that itself never parks, and the sandbox and
    subprocess calls are ordinary blocking calls. So a request handler runs
    from its first line to its [return] in one piece, and the reaper runs
    in pieces that start and end at the sleep. *)

Definition task_status (t : task_id) : M TaskStatus :=
  fun w =>
    match nth_error (tasks w) t with
    | Some st => (Ok st, w)
    | None => (Fault, w)
    end.

Definition set_task_status (t : task_id) (st : TaskStatus) : M unit :=
  fun w => (Ok tt, set_tasks (update t st (tasks w)) w).

(** The event loop resumes task [t] of [_cleanup_loop] (lines 83-96) and
    runs it to the next point where it parks or ends: to the first
    [asyncio.sleep(60)], or through one iteration to the next sleep; a
    cancelled task gets [CancelledError] at its [await] and ends, and so
    does one whose iteration raises. *)
Definition resume_cleanup (t : task_id) : M unit :=
  st <- task_status t ;;
  match st with
  | Parked AtEntry => set_task_status t (Parked (InSleep CLEANUP_INTERVAL))
  | Parked (InSleep _) =>
      try_except
        (cleanup_iteration ;;
         set_task_status t (Parked (InSleep CLEANUP_INTERVAL)))
        (fun _ => set_task_status t Finished)
  | CancelRequested _ => set_task_status t Finished
  | Finished => ret tt
  end.

(** What the event loop can run next: a request handler of the HTTP layer
    (lines 241-266) or a resumption of a reaper task. *)
Inductive Action :=
| PostExecute (workspace_id code : string) (timeout : Z)
| DeleteSession (workspace_id : string)
| Startup
| Shutdown
| ResumeCleanup (t : task_id).

Definition perform (a : Action) : M unit :=
  match a with
  | PostExecute workspace_id code timeout =>
      _ <- await execute workspace_id code timeout ;; ret tt
  | DeleteSession workspace_id => await destroy_session workspace_id
  | Startup => await start
  | Shutdown => await stop
  | ResumeCleanup t => resume_cleanup t
  end.

(** The world after the event loop has run the given pieces in order. *)
Fixpoint run_schedule (l : list Action) (w : World) : World :=
  match l with
  | [] => w
  | a :: l' => run_schedule l' (snd (perform a w))
  end.

End Manager.

(** ** Traces in which blocking calls do not overlap *)

Definition Op_eq_dec (a b : Op) : {a = b} + {a <> b}.
Proof.
  decide equality;
    try apply string_dec; try apply Nat.eq_dec; try apply Z.eq_dec.
  decide equality. apply Z.eq_dec.
Defined.

(** Reads a trace with at most one blocking call open at any moment:
    [Some o] is the call still open at the end, [None] means that two
    calls overlapped or an [End] had no matching [Begin]. *)
Fixpoint serial_state (open : option Op) (tr : list Event)
  : option (option Op) :=
  match tr with
  | [] => Some open
  | Begin op :: tr' =>
      match open with
      | None => serial_state (Some op) tr'
      | Some _ => None
      end
  | End op :: tr' =>
      match open with
      | Some op' => if Op_eq_dec op op' then serial_state None tr' else None
      | None => None
      end
  | _ :: tr' => serial_state open tr'
  end.

(** Every blocking call ends before the next begins, and none is left
    open. *)
Definition serial (tr : list Event) : Prop := serial_state None tr = Some None.

(** ** Well-formed worlds *)

Definition wf (w : World) : Prop :=
  NoDup (keys (sessions w)) /\
  (forall k r, In (k, r) (sessions w) ->
     exists ws, nth_error (heap w) r = Some ws /\ workspace_id ws = k) /\
  (forall r ws h, nth_error (heap w) r = Some ws -> session ws = Some h ->
     (h < List.length (envs w))%nat) /\
  (forall t, _cleanup_task w = Some t -> (t < List.length (tasks w))%nat) /\
  serial (trace w).

(** ** Closed forms of the loops *)

Section ClosedForms.

Context (host : Host).

(** The import statement that checks a library (line 131). *)
Definition import_stmt (lib : string) : string :=
  "import " ^^ replace "-" "_" lib.

(** The shell line that installs it (line 134). *)
Definition install_stmt (lib : string) : string :=
  "!pip install -q " ^^ lib.

Definition ran (code : string) (env : EnvObj) : EnvObj :=
  mkEnv (status env) (history env ++ [code]).

Definition run_events (h : handle) (code : string) (t : option Z)
  : list Event :=
  [Begin (OpRun h code t); End (OpRun h code t)].

(** Lines 129-134 on environment [h], starting at host interaction [n]:
    the exception that escapes the loop if any, the next host
    interaction, the environment and the events. *)
Fixpoint warmup (libs : list string) (n : nat) (h : handle) (env : EnvObj)
  : option exn * nat * EnvObj * list Event :=
  match libs with
  | [] => (None, n, env, [])
  | lib :: rest =>
      let env1 := ran (import_stmt lib) env in
      let ev1 := run_events h (import_stmt lib) None in
      match run_at host n h env (import_stmt lib) None with
      | RunReturns _ =>
          let '(o, n', env', evs) := warmup rest (S n) h env1 in
          (o, n', env', ev1 ++ evs)
      | RunRaises _ =>
          let env2 := ran (install_stmt lib) env1 in
          let ev2 := run_events h (install_stmt lib) None in
          match run_at host (S n) h env1 (install_stmt lib) None with
          | RunReturns _ =>
              let '(o, n', env', evs) := warmup rest (S (S n)) h env2 in
              (o, n', env', ev1 ++ ev2 ++ evs)
          | RunRaises e => (Some e, S (S n), env2, ev1 ++ ev2)
          end
      end
  end.

(** Lines 118-139 for a fresh record: the handle left in [ws.session],
    the environments, the next host interaction and the events, from the
    environments [es] and host interaction [n]. *)
Definition provision (workspace_id : string) (es : list EnvObj) (n : nat)
  : option handle * list EnvObj * nat * list Event :=
  if LLM_SANDBOX_AVAILABLE host then
    let h := List.length es in
    let failed e :=
      Log ERROR ("Failed to create sandbox session: " ^^ str e) in
    match construct_at host n with
    | Some e => (None, es, S n, [Begin OpConstruct; End OpConstruct; failed e])
    | None =>
        match enter_at host (S n) h with
        | Some e =>
            (None, es ++ [mkEnv Constructed []], S (S n),
             [Begin OpConstruct; End OpConstruct;
              Begin (OpEnter h); End (OpEnter h); failed e])
        | None =>
            let '(o, n', env', evs) :=
              warmup DEFAULT_LIBRARIES (S (S n)) h (mkEnv Entered []) in
            let pre :=
              [Begin OpConstruct; End OpConstruct;
               Begin (OpEnter h); End (OpEnter h)] ++ evs in
            match o with
            | Some e => (None, es ++ [env'], n', pre ++ [failed e])
            | None =>
                (Some h, es ++ [env'], n',
                 pre ++ [Log INFO
                           ("Session created for workspace: " ^^ workspace_id)])
            end
        end
    end
  else (None, es, n, []).

(** The world after [_close_session] on a record whose handle is [s]. *)
Definition closed_world (id : string) (s : option handle) (w : World)
  : World :=
  match s with
  | None => w
  | Some h =>
      let evs := [Begin (OpExit h); End (OpExit h)] in
      match exit_at host (steps w) h with
      | Some e =>
          mkWorld (sessions w) (_cleanup_task w) (heap w) (envs w) (tasks w)
            (S (steps w))
            (trace w ++ evs ++
               [Log ERROR ("Error closing session " ^^ id ^^ ": " ^^ str e)])
      | None =>
          mkWorld (sessions w) (_cleanup_task w) (heap w)
            (update h
               (mkEnv Exited
                  (match nth_error (envs w) h with
                   | Some env => history env
                   | None => []
                   end)) (envs w))
            (tasks w) (S (steps w)) (trace w ++ evs)
      end
  end.

Definition closed_ref (r : ref) (w : World) : World :=
  match nth_error (heap w) r with
  | Some ws => closed_world (workspace_id ws) (session ws) w
  | None => w
  end.

(** The world after the loop of [stop] (lines 77-78). *)
Fixpoint closed_all (rs : list ref) (w : World) : World :=
  match rs with
  | [] => w
  | r :: rs' => closed_all rs' (closed_ref r w)
  end.

(** The list built at lines 88-91: the [i]-th record of the dict is
    compared with the [i]-th reading of the clock. *)
Fixpoint expired_keys (ss : list (string * ref)) (hp : list WorkspaceSession)
  (n : nat) : list string :=
  match ss with
  | [] => []
  | (k, r) :: ss' =>
      let rest := expired_keys ss' hp (S n) in
      match nth_error hp r with
      | Some ws =>
          if time_at host n - last_used ws >? IDLE_TIMEOUT
          then k :: rest else rest
      | None => rest
      end
  end.

(** The world after lines 94-96 for one expired id. *)
Definition evicted (ws_id : string) (w : World) : World :=
  let w1 :=
    set_trace
      (trace w ++ [Log INFO ("Cleaning up expired session: " ^^ ws_id)]) w in
  match dict_get ws_id (sessions w) with
  | Some r => set_sessions (dict_del ws_id (sessions w)) (closed_ref r w1)
  | None => w1
  end.

(** The world after the loop at lines 93-96. *)
Fixpoint evicted_all (ids : list string) (w : World) : World :=
  match ids with
  | [] => w
  | k :: ids' => evicted_all ids' (evicted k w)
  end.

(** The world after [t.cancel()] on the task of [self._cleanup_task]
    (lines 74-75). *)
Definition cancelled (w : World) : World :=
  match _cleanup_task w with
  | Some t =>
      match nth_error (tasks w) t with
      | Some st =>
          mkWorld (sessions w) (_cleanup_task w) (heap w) (envs w)
            (update t (cancel_status st) (tasks w))
            (steps w) (trace w ++ [CancelTask t])
      | None => w
      end
  | None => w
  end.

(** The world after [stop] (lines 72-81). *)
Definition stopped (w : World) : World :=
  let w1 := closed_all (values (sessions w)) (cancelled w) in
  mkWorld [] (_cleanup_task w1) (heap w1) (envs w1) (tasks w1) (steps w1)
    (trace w1 ++ [Log INFO "Sandbox manager stopped"]).

(** The world after [destroy_session] (lines 215-220). *)
Definition destroyed (workspace_id : string) (w : World) : World :=
  match dict_get workspace_id (sessions w) with
  | Some r =>
      let w1 := closed_ref r w in
      mkWorld (dict_del workspace_id (sessions w)) (_cleanup_task w1)
        (heap w1) (envs w1) (tasks w1) (steps w1)
        (trace w1 ++
           [Log INFO ("Destroyed session for workspace: " ^^ workspace_id)])
  | None => w
  end.

(** The interpreter chosen at lines 160-162, at host interaction [n]. *)
Definition fallback_python (n : nat) : string :=
  if path_exists_at host n (venv_python_path (module_dir host))
  then venv_python_path (module_dir host) else "python3".

(** The dict returned at lines 164-191, the subprocess being host
    interaction [n]. *)
Definition fallback_result (n : nat) (python code : string) (timeout : Z)
  : ExecutionResult :=
  match subprocess_at host n python code timeout with
  | ProcReturns cp =>
      mkResult (returncode cp =? 0) (cp_stdout cp) (cp_stderr cp) []
  | ProcRaises e =>
      match exn_cls e with
      | TimeoutExpired => mkResult false "" (timeout_message timeout) []
      | _ => mkResult false "" (str e) []
      end
  end.

(** The dict returned at lines 193-213 for what [run] did. *)
Definition sandbox_result (o : RunOutcome) : ExecutionResult :=
  match o with
  | RunReturns result =>
      match images result with
      | Some imgs =>
          mkResult (exit_code result =? 0)
            (or_empty (co_stdout result)) (or_empty (co_stderr result))
            (map (mkArtifact "image") (or_nil imgs))
      | None =>
          mkResult false "" (str (no_attribute (co_class result) "images")) []
      end
  | RunRaises e => mkResult false "" (str e) []
  end.

(** What the handler at lines 206-213 logs after a [run] that returned:
    nothing, unless reading [images] raised. *)
Definition images_log (id : string) (result : ConsoleOutput) : list Event :=
  match images result with
  | Some _ => []
  | None =>
      [Log ERROR
         ("Execution error in " ^^ id ^^ ": "
            ^^ str (no_attribute (co_class result) "images"))]
  end.

Definition outcome_of (o : option exn) : Outcome unit :=
  match o with
  | None => Ok tt
  | Some e => Raise e
  end.

Definition with_session (s : option handle) (ws : WorkspaceSession)
  : WorkspaceSession :=
  mkWS (workspace_id ws) s (created_at ws) (last_used ws).

Definition creating_msg (id : string) : Event :=
  Log INFO ("Creating new sandbox session for workspace: " ^^ id).

(** What teardown leaves alone. *)
Definition teardown_frame (w w' : World) : Prop :=
  sessions w' = sessions w /\ _cleanup_task w' = _cleanup_task w /\
  heap w' = heap w /\ tasks w' = tasks w /\
  List.length (envs w') = List.length (envs w) /\
  exists seg, trace w' = trace w ++ seg /\ serial seg.

(** References and handles that can be followed. *)
Definition valid_ref (w : World) (r : ref) : Prop :=
  exists ws, nth_error (heap w) r = Some ws /\
    forall h, session ws = Some h -> (h < List.length (envs w))%nat.

(** What [execute] does once the record [r] has been resolved. *)
Definition executed (r : ref) (code : string) (timeout : Z) (w : World)
  : Outcome ExecutionResult * World :=
  match nth_error (heap w) r with
  | None => (Fault, w)
  | Some ws =>
      match session ws with
      | None =>
          let py := fallback_python (steps w) in
          (Ok (fallback_result (S (steps w)) py code timeout),
           mkWorld (sessions w) (_cleanup_task w) (heap w) (envs w) (tasks w)
             (S (S (steps w)))
             (trace w ++
                [Log WARNING "No sandbox available, using subprocess fallback";
                 Begin (OpSubprocess py code timeout);
                 End (OpSubprocess py code timeout)]))
      | Some h =>
          match nth_error (envs w) h with
          | None => (Fault, w)
          | Some env =>
              let o := run_at host (steps w) h env code (Some timeout) in
              (Ok (sandbox_result o),
               match o with
               | RunReturns result =>
                   mkWorld (sessions w) (_cleanup_task w)
                     (update r
                        (mkWS (workspace_id ws) (session ws) (created_at ws)
                           (time_at host (S (steps w)))) (heap w))
                     (update h (ran code env) (envs w)) (tasks w)
                     (S (S (steps w)))
                     (trace w ++ run_events h code (Some timeout) ++
                        images_log (workspace_id ws) result)
               | RunRaises e =>
                   mkWorld (sessions w) (_cleanup_task w) (heap w)
                     (update h (ran code env) (envs w)) (tasks w)
                     (S (steps w))
                     (trace w ++ run_events h code (Some timeout) ++
                        [Log ERROR
                           ("Execution error in " ^^ workspace_id ws ^^ ": "
                              ^^ str e)])
               end)
          end
      end
  end.

(** What no method changes in a record that exists: its id, its handle
    and its creation time. *)
Definition same_identity (ws ws' : WorkspaceSession) : Prop :=
  workspace_id ws' = workspace_id ws /\ session ws' = session ws /\
  created_at ws' = created_at ws.

Definition grows (w w' : World) : Prop :=
  (forall r ws, nth_error (heap w) r = Some ws ->
     exists ws', nth_error (heap w') r = Some ws' /\ same_identity ws ws') /\
  (List.length (envs w) <= List.length (envs w'))%nat.

(** The world after one iteration of [_cleanup_loop] (lines 88-96). *)
Definition ticked (w : World) : World :=
  evicted_all (expired_keys (sessions w) (heap w) (steps w))
    (set_steps (List.length (sessions w) + steps w) w).

(** The events of [_close_session] on a record of workspace [id] whose
    handle is [s], [__exit__] being host interaction [n]. *)
Definition teardown_events (id : string) (s : option handle) (n : nat)
  : list Event :=
  match s with
  | None => []
  | Some h =>
      [Begin (OpExit h); End (OpExit h)] ++
      match exit_at host n h with
      | Some e =>
          [Log ERROR ("Error closing session " ^^ id ^^ ": " ^^ str e)]
      | None => []
      end
  end.

(** The statements that the warm-up can run. *)
Definition warmup_stmt (code : string) : Prop :=
  exists lib, In lib DEFAULT_LIBRARIES /\
    (code = import_stmt lib \/ code = install_stmt lib).

(** The environments whose construction a trace shows. *)
Definition is_construct (e : Event) : bool :=
  match e with
  | Begin OpConstruct => true
  | _ => false
  end.

Definition constructions (tr : list Event) : nat :=
  List.length (filter is_construct tr).

(** The log lines of a trace. *)
Definition is_log (e : Event) : bool :=
  match e with
  | Log _ _ => true
  | _ => false
  end.

(** Provisioning the environment of a new record fails in world [w]: the
    construction raises, or [__enter__] does, or an installation of the
    warm-up does. *)
Definition provisioning_fails (w : World) : Prop :=
  LLM_SANDBOX_AVAILABLE host = true /\
  let n := S (S (steps w)) in
  let h := List.length (envs w) in
  construct_at host n <> None \/
  enter_at host (S n) h <> None \/
  fst (fst (fst (warmup DEFAULT_LIBRARIES (S (S n)) h (mkEnv Entered []))))
    <> None.

(** [__exit__] has been called on the environment [h]. *)
Definition exited (h : handle) (tr : list Event) : Prop :=
  In (Begin (OpExit h)) tr.

(** No [run] on an environment after [__exit__] was called on it. *)
Definition run_before_exit (tr : list Event) : Prop :=
  forall a b h code t,
    tr = a ++ Begin (OpRun h code t) :: b -> ~ exited h a.

(** The environments of the registered records are in use: [__exit__] has
    not been called on them, no two records share one, and the trace has
    no [run] after an [__exit__]. *)
Definition live (w : World) : Prop :=
  (forall k r ws h,
     In (k, r) (sessions w) -> nth_error (heap w) r = Some ws ->
     session ws = Some h -> ~ exited h (trace w)) /\
  (forall k1 r1 ws1 k2 r2 ws2 h,
     In (k1, r1) (sessions w) -> In (k2, r2) (sessions w) ->
     nth_error (heap w) r1 = Some ws1 -> nth_error (heap w) r2 = Some ws2 ->
     session ws1 = Some h -> session ws2 = Some h -> k1 = k2) /\
  (forall h, exited h (trace w) -> (h < List.length (envs w))%nat) /\
  run_before_exit (trace w).

End ClosedForms.

(** ** The HTTP layer (lines 223-276)

    The module-level [manager] is the manager of the world. *)

(** [class ExecuteRequest] (lines 228-231), after validation. *)
Record ExecuteRequest := mkRequest {
  rq_workspace_id : string;
  rq_code : string;
  rq_timeout : Z;
}.

(** Validation of a request body: a body without [timeout] gets the
    default of the class. *)
Definition ExecuteRequest_new (workspace_id code : string)
  (timeout : option Z) : ExecuteRequest :=
  mkRequest workspace_id code
    match timeout with
    | Some t => t
    | None => EXECUTION_TIMEOUT
    end.

(** [class ExecuteResponse] (lines 234-238). *)
Record ExecuteResponse := mkResponse {
  rs_success : bool;
  rs_stdout : string;
  rs_stderr : string;
  rs_artifacts : list Artifact;
}.

(** The [ExecuteResponse] built from the dict [result] (line 259). *)
Definition ExecuteResponse_of (result : ExecutionResult) : ExecuteResponse :=
  mkResponse (success result) (stdout result) (stderr result)
    (artifacts result).

(** The dict returned by [health] (lines 272-276). *)
Record HealthResponse := mkHealth {
  hl_status : string;
  sandbox_available : bool;
  active_sessions : nat;
}.

Module Api.

Section Routes.

Context (host : Host).

(** [POST /execute] (lines 251-259). *)
Definition execute (request : ExecuteRequest) : M ExecuteResponse :=
  result <- await execute host (rq_workspace_id request) (rq_code request)
              (rq_timeout request) ;;
  ret (ExecuteResponse_of result).

(** [DELETE /sessions/{workspace_id}] (lines 262-266). *)
Definition destroy_session (workspace_id : string)
  : M (list (string * string)) :=
  await destroy_session host workspace_id ;;
  ret [("status", "ok")].

(** [GET /health] (lines 269-276). *)
Definition health : M HealthResponse :=
  ss <- get_sessions ;;
  ret (mkHealth "ok" (LLM_SANDBOX_AVAILABLE host) (List.length ss)).

End Routes.

End Api.

(** ** More invariants *)

(** The environment of every registered record is an entered one. *)
Definition opened (w : World) : Prop :=
  forall k r ws h,
    In (k, r) (sessions w) -> nth_error (heap w) r = Some ws ->
    session ws = Some h ->
    exists env, nth_error (envs w) h = Some env /\ status env = Entered.

(** A task that the event loop will not run again as a reaper. *)
Definition stopped_task (st : TaskStatus) : Prop :=
  match st with
  | Parked _ => False
  | _ => True
  end.


(** The codes that the requests of a schedule send to [workspace_id], in
    order. *)
Fixpoint codes_for (workspace_id : string) (l : list Action) : list string :=
  match l with
  | [] => []
  | PostExecute k code _ :: l' =>
      if String.eqb k workspace_id then code :: codes_for workspace_id l'
      else codes_for workspace_id l'
  | _ :: l' => codes_for workspace_id l'
  end.

Definition is_request (a : Action) : Prop :=
  match a with PostExecute _ _ _ => True | _ => False end.

(** No registered record holds the environment [h]. *)
Definition unreferenced (h : handle) (w : World) : Prop :=
  forall k r ws,
    In (k, r) (sessions w) -> nth_error (heap w) r = Some ws ->
    session ws <> Some h.

(** An environment that exists and that the manager can no longer
    reach. *)
Definition abandoned (h : handle) (w : World) : Prop :=
  (h < List.length (envs w))%nat /\ unreferenced h w.
(** ** Example hosts

    Concrete outside worlds on which the statements below are run. *)

Definition ok_output : ConsoleOutput :=
  mkCO "ConsoleOutput" 0 (Some "1") None (Some None).

(** A host on which everything works; the clock advances by 100 seconds
    between two readings. *)
Definition host_demo : Host :=
  mkHost true "/srv/sandbox" (fun n => 100 * Z.of_nat n)
    (fun _ => None) (fun _ _ => None) (fun _ _ => None)
    (fun _ _ _ _ _ => RunReturns ok_output)
    (fun _ _ => false)
    (fun _ _ _ _ => ProcReturns (mkCP 0 "1" "")).

(** The sandbox library is installed but no environment can be
    constructed; subprocesses work. *)
Definition host_no_docker : Host :=
  mkHost true "/srv/sandbox" (fun n => Z.of_nat n)
    (fun _ => Some (mkExn OtherException "docker is not running"))
    (fun _ _ => None) (fun _ _ => None)
    (fun _ _ _ _ _ => RunReturns ok_output)
    (fun _ _ => false)
    (fun _ _ _ _ => ProcReturns (mkCP 0 "1" "")).

(** Environments can be constructed and entered, but every [run] in them
    raises. *)
Definition host_offline : Host :=
  mkHost true "/srv/sandbox" (fun n => Z.of_nat n)
    (fun _ => None) (fun _ _ => None) (fun _ _ => None)
    (fun _ _ _ _ _ =>
       RunRaises (mkExn OtherException "container is unreachable"))
    (fun _ _ => false)
    (fun _ _ _ _ => ProcReturns (mkCP 0 "1" "")).

(** The image lacks [pypdf]: its import raises, everything else works. *)
Definition host_missing_pypdf : Host :=
  mkHost true "/srv/sandbox" (fun n => Z.of_nat n)
    (fun _ => None) (fun _ _ => None) (fun _ _ => None)
    (fun _ _ _ code _ =>
       if String.eqb code "import pypdf"
       then RunRaises (mkExn OtherException "No module named 'pypdf'")
       else RunReturns ok_output)
    (fun _ _ => false)
    (fun _ _ _ _ => ProcReturns (mkCP 0 "1" "")).

(** One request for "ws1". *)
Definition ws1_world : World :=
  run_schedule host_demo [PostExecute "ws1" "x = 1" 5] init_world.

(** The reaper is started and parks; "a" is used once, then "b" three
    times. *)
Definition idle_schedule : list Action :=
  [Startup; ResumeCleanup 0; PostExecute "a" "x = 1" 5;
   PostExecute "b" "y = 2" 5; PostExecute "b" "y" 5; PostExecute "b" "y" 5].

Definition idle_world : World := run_schedule host_demo idle_schedule init_world.

(** No sandbox library; every subprocess exceeds its bound. *)
Definition host_slow : Host :=
  mkHost false "/srv/sandbox" (fun n => Z.of_nat n)
    (fun _ => None) (fun _ _ => None) (fun _ _ => None)
    (fun _ _ _ _ _ => RunReturns ok_output)
    (fun _ _ => false)
    (fun _ _ _ _ => ProcRaises (mkExn TimeoutExpired "timed out")).

(** Environments work, but a [run] under a bound raises the library's
    timeout exception, and that exception has no text. *)
Definition host_quiet_timeout : Host :=
  mkHost true "/srv/sandbox" (fun n => Z.of_nat n)
    (fun _ => None) (fun _ _ => None) (fun _ _ => None)
    (fun _ _ _ _ t =>
       match t with
       | Some _ => RunRaises (mkExn SandboxTimeoutError "")
       | None => RunReturns ok_output
       end)
    (fun _ _ => false)
    (fun _ _ _ _ => ProcReturns (mkCP 0 "1" "")).

(** Everything works, and what [run] returns has the attributes
    [exit_code], [stdout] and [stderr] only. *)
Definition host_plain_output : Host :=
  mkHost true "/srv/sandbox" (fun n => Z.of_nat n)
    (fun _ => None) (fun _ _ => None) (fun _ _ => None)
    (fun _ _ _ _ _ =>
       RunReturns (mkCO "ConsoleOutput" 0 (Some "1") (Some "") None))
    (fun _ _ => false)
    (fun _ _ _ _ => ProcReturns (mkCP 0 "1" "")).

(** [start] is called again while the reaper of the first call sleeps. *)
Definition restart_schedule : list Action :=
  [Startup; ResumeCleanup 0; Startup].

(** "a" is used once, then "b" three times, as in [idle_schedule]. *)
Definition later_requests : list Action :=
  [PostExecute "a" "x = 1" 5; PostExecute "b" "y = 2" 5;
   PostExecute "b" "y" 5; PostExecute "b" "y" 5].


(** * Properties *)

#[local] Arguments String.append : simpl never.
#[local] Arguments Z.gtb : simpl never.
#[local] Arguments Z.eqb : simpl never.

(** ** Lists, dicts and traces *)

Lemma update_length {A} (n : nat) (x : A) (l : list A) :
  List.length (update n x l) = List.length l.
Proof.
  revert n; induction l as [|y l IH]; intros [|n]; simpl; auto.
Qed.

Lemma nth_error_update_eq {A} (n : nat) (x : A) (l : list A) :
  (n < List.length l)%nat -> nth_error (update n x l) n = Some x.
Proof.
  revert n; induction l as [|y l IH]; intros [|n]; simpl; intros H;
    try lia; auto.
  apply IH; lia.
Qed.

Lemma nth_error_update_neq {A} (n m : nat) (x : A) (l : list A) :
  n <> m -> nth_error (update n x l) m = nth_error l m.
Proof.
  revert n m; induction l as [|y l IH]; intros [|n] [|m] H; simpl; auto;
    try congruence.
Qed.

Lemma update_same {A} (n : nat) (x : A) (l : list A) :
  nth_error l n = Some x -> update n x l = l.
Proof.
  revert n; induction l as [|y l IH]; intros [|n]; simpl; intros H; auto.
  - congruence.
  - f_equal; auto.
Qed.

Lemma update_update {A} (n : nat) (x y : A) (l : list A) :
  update n x (update n y l) = update n x l.
Proof.
  revert n; induction l as [|z l IH]; intros [|n]; simpl; auto.
  f_equal; auto.
Qed.

Lemma update_last {A} (x y : A) (l : list A) :
  update (List.length l) x (l ++ [y]) = l ++ [x].
Proof. induction l as [|z l IH]; simpl; auto. f_equal; auto. Qed.

Lemma nth_error_last {A} (y : A) (l : list A) :
  nth_error (l ++ [y]) (List.length l) = Some y.
Proof. induction l as [|z l IH]; simpl; auto. Qed.

Lemma nth_error_valid {A} (l : list A) (n : nat) (x : A) :
  nth_error l n = Some x -> (n < List.length l)%nat.
Proof. intros H. apply nth_error_Some. congruence. Qed.

Lemma nth_error_grow {A} (l : list A) (y : A) (n : nat) (x : A) :
  nth_error l n = Some x -> nth_error (l ++ [y]) n = Some x.
Proof.
  intros H. rewrite nth_error_app1; auto. eapply nth_error_valid; eauto.
Qed.

Lemma dict_get_In {V} (k : string) (v : V) d :
  dict_get k d = Some v -> In (k, v) d.
Proof.
  induction d as [|[k' v'] d IH]; simpl; [discriminate|].
  destruct (String.eqb_spec k k'); intros H.
  - inversion H; subst; auto.
  - auto.
Qed.

Lemma dict_get_None {V} (k : string) (d : list (string * V)) :
  dict_get k d = None <-> ~ In k (keys d).
Proof.
  induction d as [|[k' v'] d IH]; simpl; [tauto|].
  destruct (String.eqb_spec k k').
  - subst. split; [discriminate | tauto].
  - rewrite IH. split; [intros H [E|I]; [congruence | tauto] | tauto].
Qed.

Lemma dict_get_NoDup {V} (k : string) (v : V) d :
  NoDup (keys d) -> In (k, v) d -> dict_get k d = Some v.
Proof.
  induction d as [|[k' v'] d IH]; simpl; [tauto|].
  intros ND [E|I].
  - inversion E; subst. rewrite String.eqb_refl. reflexivity.
  - inversion ND as [|? ? Hn ND']; subst.
    destruct (String.eqb_spec k k'); [subst | auto].
    exfalso. apply Hn. unfold keys. change k' with (fst (k', v)).
    apply in_map; auto.
Qed.

Lemma dict_set_absent {V} (k : string) (v : V) d :
  dict_get k d = None -> dict_set k v d = d ++ [(k, v)].
Proof.
  induction d as [|[k' v'] d IH]; simpl; auto.
  destruct (String.eqb k k'); [discriminate|].
  intros H. f_equal; auto.
Qed.

Lemma dict_del_subset {V} (k : string) (d : list (string * V)) x :
  In x (dict_del k d) -> In x d.
Proof.
  induction d as [|[k' v'] d IH]; simpl; auto.
  destruct (String.eqb k k'); simpl; intuition.
Qed.

Lemma dict_del_keys_subset {V} (k : string) (d : list (string * V)) x :
  In x (keys (dict_del k d)) -> In x (keys d).
Proof.
  induction d as [|[k' v'] d IH]; simpl; auto.
  destruct (String.eqb k k'); simpl; intuition.
Qed.

Lemma dict_del_NoDup {V} (k : string) (d : list (string * V)) :
  NoDup (keys d) -> NoDup (keys (dict_del k d)).
Proof.
  induction d as [|[k' v'] d IH]; simpl; auto.
  intros ND. inversion ND; subst.
  destruct (String.eqb k k'); simpl; auto.
  constructor; auto. intros I. apply dict_del_keys_subset in I. auto.
Qed.

Lemma dict_del_gone {V} (k : string) (d : list (string * V)) :
  NoDup (keys d) -> ~ In k (keys (dict_del k d)).
Proof.
  induction d as [|[k' v'] d IH]; simpl; auto.
  intros ND. inversion ND; subst.
  destruct (String.eqb_spec k k'); simpl.
  - subst; auto.
  - intros [E|I]; [congruence | apply IH; auto].
Qed.

Lemma dict_del_other {V} (k k' : string) (d : list (string * V)) :
  k' <> k -> dict_get k' (dict_del k d) = dict_get k' d.
Proof.
  intros Hne. induction d as [|[k0 v0] d IH]; simpl; auto.
  destruct (String.eqb_spec k k0); simpl.
  - subst. destruct (String.eqb_spec k' k0); [congruence | auto].
  - destruct (String.eqb_spec k' k0); auto.
Qed.

Lemma keys_app {V} (d1 d2 : list (string * V)) :
  keys (d1 ++ d2) = keys d1 ++ keys d2.
Proof. apply map_app. Qed.

Lemma NoDup_snoc {A} (l : list A) (x : A) :
  NoDup l -> ~ In x l -> NoDup (l ++ [x]).
Proof.
  induction l as [|y l IH]; simpl; intros ND Hn.
  - constructor; auto.
  - inversion ND; subst. constructor.
    + rewrite in_app_iff. simpl. intuition.
    + apply IH; auto.
Qed.

Lemma serial_state_app o s1 s2 :
  serial_state o (s1 ++ s2) =
  match serial_state o s1 with
  | Some o' => serial_state o' s2
  | None => None
  end.
Proof.
  revert o; induction s1 as [|e s1 IH]; intros o; simpl; auto.
  destruct e; auto.
  - destruct o; auto.
  - destruct o; auto. destruct (Op_eq_dec op o); auto.
Qed.

Lemma serial_app s1 s2 : serial s1 -> serial s2 -> serial (s1 ++ s2).
Proof.
  unfold serial. intros H1 H2. rewrite serial_state_app, H1. exact H2.
Qed.

Lemma serial_call op : serial [Begin op; End op].
Proof.
  unfold serial. simpl. destruct (Op_eq_dec op op); congruence.
Qed.

Lemma serial_log lvl msg : serial [Log lvl msg].
Proof. reflexivity. Qed.

Lemma serial_cancel t : serial [CancelTask t].
Proof. reflexivity. Qed.

Lemma serial_nil : serial [].
Proof. reflexivity. Qed.

Lemma images_log_cases id result :
  images_log id result = [] \/
  exists msg, images_log id result = [Log ERROR msg].
Proof. unfold images_log. destruct (images result); eauto. Qed.

Lemma serial_images_log id result : serial (images_log id result).
Proof. unfold images_log. destruct (images result); reflexivity. Qed.

Create HintDb serial.
#[local] Hint Resolve serial_app serial_call serial_log serial_cancel
  serial_nil serial_images_log : serial.

Ltac solve_serial :=
  unfold run_events;
  repeat first
    [ assumption
    | apply serial_nil
    | match goal with
      | |- serial (Begin ?o :: End ?o :: ?t) =>
          apply (serial_app [Begin o; End o] t); [apply serial_call|]
      | |- serial (Log ?l ?m :: ?t) =>
          apply (serial_app [Log l m] t); [apply serial_log|]
      | |- serial (CancelTask ?x :: ?t) =>
          apply (serial_app [CancelTask x] t); [apply serial_cancel|]
      | |- serial (_ ++ _) => apply serial_app
      end ].

(** ** The methods, one by one *)

#[local] Arguments preinstall : simpl never.
#[local] Arguments provision : simpl never.

Section Methods.

Context (host : Host).

Ltac unfold_prims :=
  unfold ws_session_run, session_run, session_exit, session_enter,
    InteractiveSandboxSession, subprocess_run, os_path_exists, touch,
    is_expired, set_session, WorkspaceSession_new, time_time,
    sessions_getitem, sessions_setitem, sessions_delitem, logger, emit,
    next_step, deref, assign, alloc, env_get, env_put, env_alloc,
    get_sessions, put_sessions, try_except, bind, ret, raise.


Lemma world_eta (w : World) :
  mkWorld (sessions w) (_cleanup_task w) (heap w) (envs w) (tasks w)
    (steps w) (trace w) = w.
Proof. destruct w; reflexivity. Qed.

Lemma ws_session_run_eq w r ws h env code t :
  nth_error (heap w) r = Some ws -> session ws = Some h ->
  nth_error (envs w) h = Some env ->
  ws_session_run host r code t w =
  (match run_at host (steps w) h env code t with
   | RunReturns c => Ok c
   | RunRaises e => Raise e
   end,
   mkWorld (sessions w) (_cleanup_task w) (heap w)
     (update h (ran code env) (envs w)) (tasks w) (S (steps w))
     (trace w ++ run_events h code t)).
Proof.
  intros Hr Hs He. unfold_prims. rewrite Hr. cbn. rewrite Hs. cbn.
  rewrite He. cbn. rewrite <- app_assoc.
  destruct (run_at host (steps w) h env code t); reflexivity.
Qed.

Lemma preinstall_loop libs : forall w r ws h env,
  nth_error (heap w) r = Some ws -> session ws = Some h ->
  nth_error (envs w) h = Some env ->
  for_each libs (preinstall_lib host r) w =
  let '(o, n', env', evs) := warmup host libs (steps w) h env in
  (outcome_of o,
   mkWorld (sessions w) (_cleanup_task w) (heap w) (update h env' (envs w))
     (tasks w) n' (trace w ++ evs)).
Proof.
  induction libs as [|lib libs IH]; intros w r ws h env Hr Hs He.
  - cbn [for_each warmup ret outcome_of].
    rewrite app_nil_r, (update_same _ _ _ He), world_eta. reflexivity.
  - assert (Hlt : (h < List.length (envs w))%nat)
      by (eapply nth_error_valid; eauto).
    cbn [for_each warmup]. unfold bind at 1. unfold preinstall_lib at 1.
    unfold try_except at 1. unfold bind at 1.
    fold (import_stmt lib). fold (install_stmt lib).
    rewrite (ws_session_run_eq _ _ _ _ _ _ _ Hr Hs He).
    destruct (run_at host (steps w) h env (import_stmt lib) None) as [c|e].
    + cbn [ret].
      erewrite IH; cbn; eauto using nth_error_update_eq.
      destruct (warmup host libs (S (steps w)) h (ran (import_stmt lib) env))
        as [[[o n'] env'] evs].
      rewrite update_update, <- app_assoc. reflexivity.
    + unfold bind at 1.
      erewrite ws_session_run_eq; cbn; eauto using nth_error_update_eq.
      destruct (run_at host (S (steps w)) h (ran (import_stmt lib) env)
                  (install_stmt lib) None) as [c|e'].
      * cbn [ret]. erewrite IH; cbn; eauto.
        2:{ apply nth_error_update_eq. rewrite update_length. exact Hlt. }
        destruct (warmup host libs (S (S (steps w))) h
                    (ran (install_stmt lib) (ran (import_stmt lib) env)))
          as [[[o n'] env'] evs].
        rewrite !update_update, <- !app_assoc. reflexivity.
      * rewrite !update_update, <- !app_assoc. reflexivity.
Qed.

Lemma warmup_facts libs : forall n h env,
  let '(o, n', env', evs) := warmup host libs n h env in
  serial evs /\ (n <= n')%nat.
Proof.
  induction libs as [|lib libs IH]; intros n h env; cbn [warmup].
  - split; auto with serial.
  - destruct (run_at host n h env (import_stmt lib) None).
    + specialize (IH (S n) h (ran (import_stmt lib) env)).
      destruct (warmup host libs (S n) h (ran (import_stmt lib) env))
        as [[[o n'] env'] evs].
      destruct IH. split; [|lia]. unfold run_events. auto with serial.
    + destruct (run_at host (S n) h (ran (import_stmt lib) env)
                  (install_stmt lib) None).
      * specialize (IH (S (S n)) h
                      (ran (install_stmt lib) (ran (import_stmt lib) env))).
        destruct (warmup host libs (S (S n)) h
                    (ran (install_stmt lib) (ran (import_stmt lib) env)))
          as [[[o n'] env'] evs].
        destruct IH. split; [|lia]. unfold run_events. auto with serial.
      * split; [|lia]. unfold run_events. auto with serial.
Qed.

Lemma constructions_app a b :
  constructions (a ++ b) = (constructions a + constructions b)%nat.
Proof. unfold constructions. rewrite filter_app, length_app. reflexivity. Qed.

Lemma warmup_constructions libs : forall n h env,
  constructions (snd (warmup host libs n h env)) = 0%nat.
Proof.
  induction libs as [|lib libs IH]; intros n h env; cbn [warmup].
  - reflexivity.
  - destruct (run_at host n h env (import_stmt lib) None).
    + specialize (IH (S n) h (ran (import_stmt lib) env)).
      destruct (warmup host libs (S n) h (ran (import_stmt lib) env))
        as [[[o n'] env'] evs].
      cbn in *. exact IH.
    + destruct (run_at host (S n) h (ran (import_stmt lib) env)
                  (install_stmt lib) None).
      * specialize (IH (S (S n)) h
                      (ran (install_stmt lib) (ran (import_stmt lib) env))).
        destruct (warmup host libs (S (S n)) h
                    (ran (install_stmt lib) (ran (import_stmt lib) env)))
          as [[[o n'] env'] evs].
        cbn in *. exact IH.
      * reflexivity.
Qed.

Lemma warmup_logs_nothing libs : forall n h env,
  filter is_log (snd (warmup host libs n h env)) = [].
Proof.
  induction libs as [|lib libs IH]; intros n h env; cbn [warmup].
  - reflexivity.
  - destruct (run_at host n h env (import_stmt lib) None).
    + specialize (IH (S n) h (ran (import_stmt lib) env)).
      destruct (warmup host libs (S n) h (ran (import_stmt lib) env))
        as [[[o n'] env'] evs].
      cbn in *. exact IH.
    + destruct (run_at host (S n) h (ran (import_stmt lib) env)
                  (install_stmt lib) None).
      * specialize (IH (S (S n)) h
                      (ran (install_stmt lib) (ran (import_stmt lib) env))).
        destruct (warmup host libs (S (S n)) h
                    (ran (install_stmt lib) (ran (import_stmt lib) env)))
          as [[[o n'] env'] evs].
        cbn in *. exact IH.
      * reflexivity.
Qed.

Lemma warmup_history libs : forall n h env,
  (forall lib, In lib libs -> In lib DEFAULT_LIBRARIES) ->
  Forall warmup_stmt (history env) ->
  let '(o, n', env', evs) := warmup host libs n h env in
  Forall warmup_stmt (history env') /\ status env' = status env.
Proof.
  induction libs as [|lib libs IH]; intros n h env Hin Hf; cbn [warmup].
  - auto.
  - assert (H1 : Forall warmup_stmt (history (ran (import_stmt lib) env))).
    { cbn. apply Forall_app. split; auto. constructor; [|constructor].
      exists lib. split; [apply Hin; left; reflexivity | auto]. }
    assert (H2 : Forall warmup_stmt
                   (history (ran (install_stmt lib)
                               (ran (import_stmt lib) env)))).
    { cbn [ran history] in *. apply Forall_app. split; auto.
      constructor; [|constructor].
      exists lib. split; [apply Hin; left; reflexivity | auto]. }
    assert (Hin' : forall lib', In lib' libs -> In lib' DEFAULT_LIBRARIES)
      by (intros; apply Hin; right; auto).
    destruct (run_at host n h env (import_stmt lib) None).
    + specialize (IH (S n) h (ran (import_stmt lib) env) Hin' H1).
      destruct (warmup host libs (S n) h (ran (import_stmt lib) env))
        as [[[o n'] env'] evs].
      exact IH.
    + destruct (run_at host (S n) h (ran (import_stmt lib) env)
                  (install_stmt lib) None).
      * specialize (IH (S (S n)) h
                      (ran (install_stmt lib) (ran (import_stmt lib) env))
                      Hin' H2).
        destruct (warmup host libs (S (S n)) h
                    (ran (install_stmt lib) (ran (import_stmt lib) env)))
          as [[[o n'] env'] evs].
        exact IH.
      * split; [exact H2 | reflexivity].
Qed.

Lemma append_inj_l p a b : p ^^ a = p ^^ b -> a = b.
Proof.
  induction p as [|c p IH]; cbn [String.append]; intros H; [exact H|].
  inversion H. auto.
Qed.

(** An install line is in the history only after a run of the import of
    the same library has raised. *)
Lemma warmup_installs libs : forall n h env,
  let '(o, n', env', evs) := warmup host libs n h env in
  forall code, In code (history env') ->
    In code (history env) \/
    exists lib, In lib libs /\
      (code = import_stmt lib \/
       (code = install_stmt lib /\
        exists m e0 x, run_at host m h e0 (import_stmt lib) None = RunRaises x)).
Proof.
  induction libs as [|lib libs IH]; intros n h env; cbn [warmup].
  - auto.
  - destruct (run_at host n h env (import_stmt lib) None) as [c|x] eqn:E1.
    + specialize (IH (S n) h (ran (import_stmt lib) env)).
      destruct (warmup host libs (S n) h (ran (import_stmt lib) env))
        as [[[o n'] env'] evs].
      intros code Hc. destruct (IH code Hc) as [I|(lib' & I & D)].
      * cbn in I. apply in_app_or in I. destruct I as [I|[<-|[]]]; auto.
        right. exists lib. split; [left; reflexivity | auto].
      * right. exists lib'. split; [right; exact I | exact D].
    + assert (Hx : forall code,
                 In code (history (ran (install_stmt lib)
                                     (ran (import_stmt lib) env))) ->
                 In code (history env) \/
                 exists lib0, In lib0 (lib :: libs) /\
                   (code = import_stmt lib0 \/
                    (code = install_stmt lib0 /\
                     exists m e0 x0,
                       run_at host m h e0 (import_stmt lib0) None
                       = RunRaises x0))).
      { intros code I. cbn in I. apply in_app_or in I.
        destruct I as [I|[<-|[]]].
        - apply in_app_or in I. destruct I as [I|[<-|[]]]; auto.
          right. exists lib. split; [left; reflexivity | auto].
        - right. exists lib. split; [left; reflexivity|]. right.
          split; [reflexivity|]. eauto. }
      destruct (run_at host (S n) h (ran (import_stmt lib) env)
                  (install_stmt lib) None).
      * specialize (IH (S (S n)) h
                      (ran (install_stmt lib) (ran (import_stmt lib) env))).
        destruct (warmup host libs (S (S n)) h
                    (ran (install_stmt lib) (ran (import_stmt lib) env)))
          as [[[o n'] env'] evs].
        intros code Hc. destruct (IH code Hc) as [I|(lib' & I & D)].
        -- apply Hx. exact I.
        -- right. exists lib'. split; [right; exact I | exact D].
      * exact Hx.
Qed.

Lemma warmup_events libs : forall n h env,
  Forall (fun e => exists c t, e = Begin (OpRun h c t) \/ e = End (OpRun h c t))
    (snd (warmup host libs n h env)).
Proof.
  induction libs as [|lib libs IH]; intros n h env; cbn [warmup].
  - constructor.
  - assert (R : forall c t,
               Forall (fun e => exists c t,
                         e = Begin (OpRun h c t) \/ e = End (OpRun h c t))
                 (run_events h c t)).
    { intros c t. unfold run_events. repeat constructor; eauto. }
    destruct (run_at host n h env (import_stmt lib) None).
    + specialize (IH (S n) h (ran (import_stmt lib) env)).
      destruct (warmup host libs (S n) h (ran (import_stmt lib) env))
        as [[[o n'] env'] evs].
      cbn [snd] in *. apply Forall_app. auto.
    + destruct (run_at host (S n) h (ran (import_stmt lib) env)
                  (install_stmt lib) None).
      * specialize (IH (S (S n)) h
                      (ran (install_stmt lib) (ran (import_stmt lib) env))).
        destruct (warmup host libs (S (S n)) h
                    (ran (install_stmt lib) (ran (import_stmt lib) env)))
          as [[[o n'] env'] evs].
        cbn [snd] in *. apply Forall_app. split; auto.
        apply Forall_app. auto.
      * cbn [snd]. apply Forall_app. auto.
Qed.

#[local] Arguments warmup : simpl never.


Lemma create_sandbox_eq w id r ws :
  nth_error (heap w) r = Some ws -> session ws = None ->
  create_sandbox host id r w =
  let '(s, es, n, evs) := provision host id (envs w) (steps w) in
  (Ok tt,
   mkWorld (sessions w) (_cleanup_task w)
     (update r (with_session s ws) (heap w)) es (tasks w) n (trace w ++ evs)).
Proof.
  intros Hr Hs.
  assert (Hlt : (r < List.length (heap w))%nat)
    by (eapply nth_error_valid; eauto).
  assert (Hws : with_session None ws = ws)
    by (destruct ws; cbn in *; subst; reflexivity).
  unfold create_sandbox, provision.
  destruct (LLM_SANDBOX_AVAILABLE host).
  2:{ cbn. rewrite Hws, (update_same _ _ _ Hr), app_nil_r, world_eta.
      reflexivity. }
  unfold try_except at 1. unfold bind at 1.
  unfold InteractiveSandboxSession. unfold_prims. cbn.
  destruct (construct_at host (steps w)) as [e|]; cbn.
  { rewrite Hr. cbn. fold (with_session None ws).
    rewrite <- !app_assoc. reflexivity. }
  rewrite Hr. cbn. rewrite nth_error_last. cbn.
  destruct (enter_at host (S (steps w)) (List.length (envs w))) as [e|]; cbn.
  { rewrite nth_error_update_eq by exact Hlt. cbn.
    rewrite update_update, <- !app_assoc. reflexivity. }
  rewrite update_last.
  unfold preinstall.
  erewrite preinstall_loop; cbn.
  2:{ apply nth_error_update_eq; exact Hlt. }
  2:{ cbn. reflexivity. }
  2:{ apply nth_error_last. }
  destruct (warmup host DEFAULT_LIBRARIES (S (S (steps w)))
              (List.length (envs w)) (mkEnv Entered [])) as [[[o n'] env'] evs].
  rewrite update_last.
  destruct o as [e|]; cbn.
  - rewrite nth_error_update_eq by exact Hlt. cbn.
    rewrite update_update, <- !app_assoc. reflexivity.
  - rewrite <- !app_assoc. reflexivity.
Qed.


Lemma get_or_create_new w id :
  dict_get id (sessions w) = None ->
  get_or_create_session host id w =
  let r := List.length (heap w) in
  let '(s, es, n, evs) := provision host id (envs w) (S (S (steps w))) in
  (Ok r,
   mkWorld (sessions w ++ [(id, r)]) (_cleanup_task w)
     (heap w ++
        [mkWS id s (time_at host (steps w)) (time_at host (S (steps w)))])
     es (tasks w) n (trace w ++ creating_msg id :: evs)).
Proof.
  intros Hd. unfold get_or_create_session.
  unfold bind at 1. unfold get_sessions at 1. rewrite Hd.
  unfold bind at 1. unfold logger, emit at 1.
  unfold bind at 1. unfold WorkspaceSession_new, time_time, next_step, alloc.
  cbn [bind ret fst snd steps set_steps set_trace heap set_heap sessions
       _cleanup_task envs tasks trace].
  unfold bind at 1.
  erewrite create_sandbox_eq; cbn [heap steps envs sessions]. 
  2:{ apply nth_error_last. }
  2:{ reflexivity. }
  unfold sessions_setitem, get_sessions, put_sessions, bind, ret. cbn.
  destruct (provision host id (envs w) (S (S (steps w)))) as [[[s es] n] evs].
  cbn.
  rewrite update_last, (dict_set_absent _ _ _ Hd), <- app_assoc.
  reflexivity.
Qed.

Lemma get_or_create_existing w id r ws :
  dict_get id (sessions w) = Some r -> nth_error (heap w) r = Some ws ->
  get_or_create_session host id w =
  (Ok r,
   mkWorld (sessions w) (_cleanup_task w)
     (update r
        (mkWS (workspace_id ws) (session ws) (created_at ws)
           (time_at host (steps w))) (heap w))
     (envs w) (tasks w) (S (steps w)) (trace w)).
Proof.
  intros Hd Hr. unfold get_or_create_session. unfold_prims. 
  rewrite Hd. cbn. rewrite Hr. reflexivity.
Qed.

(** *** Teardown *)

Lemma close_session_eq w r ws :
  nth_error (heap w) r = Some ws ->
  (forall h, session ws = Some h -> (h < List.length (envs w))%nat) ->
  _close_session host r w = (Ok tt, closed_ref host r w).
Proof.
  intros Hr Hh. unfold closed_ref, closed_world, _close_session.
  unfold bind at 1. unfold deref. rewrite Hr.
  destruct (session ws) as [h|]; [|reflexivity].
  specialize (Hh h eq_refl).
  destruct (nth_error (envs w) h) as [env|] eqn:He.
  2:{ apply nth_error_None in He. lia. }
  unfold_prims. cbn. rewrite He. cbn.
  destruct (exit_at host (steps w) h) as [e|]; cbn;
    rewrite <- ?app_assoc; reflexivity.
Qed.


Lemma teardown_frame_refl w : teardown_frame w w.
Proof.
  unfold teardown_frame. repeat split; auto.
  exists []. rewrite app_nil_r. auto with serial.
Qed.

Lemma teardown_frame_trans w1 w2 w3 :
  teardown_frame w1 w2 -> teardown_frame w2 w3 -> teardown_frame w1 w3.
Proof.
  unfold teardown_frame.
  intros (A1 & A2 & A3 & A4 & A5 & s1 & A6 & A7)
         (B1 & B2 & B3 & B4 & B5 & s2 & B6 & B7).
  repeat split; try congruence.
  exists (s1 ++ s2). rewrite B6, A6, app_assoc. auto with serial.
Qed.

Lemma closed_world_frame id s w : teardown_frame w (closed_world host id s w).
Proof.
  unfold closed_world. destruct s as [h|]; [|apply teardown_frame_refl].
  destruct (exit_at host (steps w) h) as [e|]; unfold teardown_frame; cbn;
    repeat split; auto using update_length.
  - eexists; split; [reflexivity|].
    change (serial ([Begin (OpExit h); End (OpExit h)] ++ [Log ERROR
      ("Error closing session " ^^ id ^^ ": " ^^ str e)])).
    auto with serial.
  - eexists; split; [reflexivity|]. auto with serial.
Qed.

Lemma closed_ref_frame r w : teardown_frame w (closed_ref host r w).
Proof.
  unfold closed_ref. destruct (nth_error (heap w) r).
  - apply closed_world_frame.
  - apply teardown_frame_refl.
Qed.

Lemma closed_all_frame rs : forall w, teardown_frame w (closed_all host rs w).
Proof.
  induction rs as [|r rs IH]; intros w; cbn.
  - apply teardown_frame_refl.
  - eapply teardown_frame_trans; [apply closed_ref_frame | apply IH].
Qed.


Lemma valid_ref_frame w w' r :
  teardown_frame w w' -> valid_ref w r -> valid_ref w' r.
Proof.
  intros (_ & _ & Hh & _ & He & _) (ws & Hr & Hs).
  exists ws. rewrite Hh, He. auto.
Qed.

Lemma close_loop rs : forall w,
  Forall (valid_ref w) rs ->
  for_each rs (_close_session host) w = (Ok tt, closed_all host rs w).
Proof.
  induction rs as [|r rs IH]; intros w Hv; cbn [for_each closed_all].
  - reflexivity.
  - inversion Hv as [|? ? (ws & Hr & Hs) Hv']; subst.
    unfold bind. erewrite close_session_eq; eauto.
    apply IH. eapply Forall_impl; [|exact Hv'].
    intros r'. apply valid_ref_frame, closed_ref_frame.
Qed.

Lemma wf_valid_refs w : wf w -> Forall (valid_ref w) (values (sessions w)).
Proof.
  intros (_ & Hs & Hh & _). apply Forall_forall. intros r Hin.
  apply in_map_iff in Hin. destruct Hin as ([k r'] & E & Hin). cbn in E; subst.
  destruct (Hs _ _ Hin) as (ws & Hr & _). exists ws. split; eauto.
Qed.

Lemma stop_eq w : wf w -> stop host w = (Ok tt, stopped host w).
Proof.
  intros Hwf. pose proof Hwf as (_ & _ & _ & Ht & _).
  unfold stop, stopped.
  assert (Hc : (match _cleanup_task w with
                | Some t => task_cancel t
                | None => ret tt
                end) w = (Ok tt, cancelled w)).
  { unfold cancelled. destruct (_cleanup_task w) as [t|] eqn:Hct;
      [|reflexivity].
    specialize (Ht t eq_refl). unfold task_cancel.
    destruct (nth_error (tasks w) t) eqn:E.
    - unfold set_trace, set_tasks. cbn. rewrite Hct. reflexivity.
    - apply nth_error_None in E. lia. }
  unfold bind at 1. cbn [fst snd]. unfold bind at 1. rewrite Hc.
  unfold bind at 1. unfold get_sessions at 1. unfold bind at 1.
  assert (Hs : sessions (cancelled w) = sessions w).
  { unfold cancelled. destruct (_cleanup_task w) as [t|]; auto.
    destruct (nth_error (tasks w) t); auto. }
  rewrite Hs.
  rewrite close_loop.
  2:{ eapply Forall_impl; [|apply wf_valid_refs; exact Hwf].
      intros r (ws & Hr & Hh). exists ws.
      unfold cancelled. destruct (_cleanup_task w) as [t|]; auto.
      destruct (nth_error (tasks w) t); auto. }
  reflexivity.
Qed.

Lemma destroy_eq w id :
  wf w -> destroy_session host id w = (Ok tt, destroyed host id w).
Proof.
  intros Hwf. pose proof Hwf as (_ & Hs & Hh & _).
  unfold destroy_session, destroyed.
  unfold bind at 1. unfold get_sessions at 1.
  destruct (dict_get id (sessions w)) as [r|] eqn:Hd; [|reflexivity].
  destruct (Hs _ _ (dict_get_In _ _ _ Hd)) as (ws & Hr & _).
  unfold bind at 1. unfold sessions_getitem, get_sessions, bind at 1.
  rewrite Hd. cbn [ret].
  unfold bind at 1. erewrite close_session_eq; eauto.
  destruct (closed_ref_frame r w) as (F1 & _).
  unfold sessions_delitem, get_sessions, put_sessions, logger, emit, bind.
  rewrite F1, Hd. reflexivity.
Qed.

Lemma start_eq w :
  start w =
  (Ok tt,
   mkWorld (sessions w) (Some (List.length (tasks w))) (heap w) (envs w)
     (tasks w ++ [Parked AtEntry]) (steps w)
     (trace w ++ [Log INFO "Sandbox manager started"])).
Proof. reflexivity. Qed.


Lemma execute_eq w id code timeout r w1 ws :
  get_or_create_session host id w = (Ok r, w1) ->
  nth_error (heap w1) r = Some ws -> workspace_id ws = id ->
  (forall h, session ws = Some h -> (h < List.length (envs w1))%nat) ->
  execute host id code timeout w = executed host r code timeout w1.
Proof.
  intros Hg Hr Hid Hh. unfold execute, executed.
  unfold bind at 1. rewrite Hg.
  unfold bind at 1. unfold deref at 1. rewrite Hr.
  destruct (session ws) as [h|] eqn:Hs.
  - specialize (Hh h eq_refl).
    destruct (nth_error (envs w1) h) as [env|] eqn:He.
    2:{ apply nth_error_None in He. lia. }
    unfold try_except. unfold bind at 1.
    erewrite ws_session_run_eq; eauto.
    destruct (run_at host (steps w1) h env code (Some timeout)) as [c|e].
    + unfold_prims. unfold result_images, images_log. cbn.
      rewrite Hr, Hs. cbn.
      destruct (images c) as [imgs|]; unfold raise, ret; cbn;
        rewrite ?Hid, ?app_nil_r, <- ?app_assoc; reflexivity.
    + unfold_prims. cbn. rewrite Hid, <- app_assoc. reflexivity.
  - unfold fallback_result, fallback_python. unfold_prims. cbn.
    rewrite <- !app_assoc. cbn.
    destruct (subprocess_at host (S (steps w1))
                (if path_exists_at host (steps w1)
                      (venv_python_path (module_dir host))
                 then venv_python_path (module_dir host) else "python3")
                code timeout) as [cp|e]; [reflexivity|].
    destruct (exn_cls e); reflexivity.
Qed.

(** *** The reaper *)

Lemma is_expired_eq w r ws :
  nth_error (heap w) r = Some ws ->
  is_expired host r w =
  (Ok (time_at host (steps w) - last_used ws >? IDLE_TIMEOUT),
   set_steps (S (steps w)) w).
Proof. intros Hr. unfold_prims. cbn. rewrite Hr. reflexivity. Qed.

Lemma select_loop ss : forall w,
  (forall k r, In (k, r) ss -> exists ws, nth_error (heap w) r = Some ws) ->
  select_keys ss (is_expired host) w =
  (Ok (expired_keys host ss (heap w) (steps w)),
   set_steps (List.length ss + steps w) w).
Proof.
  induction ss as [|[k r] ss IH]; intros w Hv.
  - cbn. unfold ret, set_steps. rewrite world_eta. reflexivity.
  - destruct (Hv k r (or_introl eq_refl)) as (ws & Hr).
    cbn [select_keys expired_keys]. unfold bind at 1.
    rewrite (is_expired_eq _ _ _ Hr). unfold bind at 1.
    rewrite IH by (intros; eapply Hv; right; eauto).
    cbn. rewrite Hr, Nat.add_succ_r. unfold ret, set_steps. cbn.
    destruct (time_at host (steps w) - last_used ws >? IDLE_TIMEOUT);
      reflexivity.
Qed.

Lemma expired_keys_incl ss hp : forall n k,
  In k (expired_keys host ss hp n) -> In k (keys ss).
Proof.
  induction ss as [|[k0 r] ss IH]; intros n k;
    cbn [expired_keys In keys map fst]; auto.
  destruct (nth_error hp r) as [ws|]; [|intros; right; eauto].
  destruct (time_at host n - last_used ws >? IDLE_TIMEOUT);
    [intros [E|I]; [left; auto | right; eauto] | intros; right; eauto].
Qed.

Lemma expired_keys_NoDup ss hp : forall n,
  NoDup (keys ss) -> NoDup (expired_keys host ss hp n).
Proof.
  induction ss as [|[k0 r] ss IH]; intros n ND;
    cbn [expired_keys In keys map fst] in *.
  - constructor.
  - inversion ND as [|? ? Hn ND']; subst.
    destruct (nth_error hp r) as [ws|]; auto.
    destruct (time_at host n - last_used ws >? IDLE_TIMEOUT); auto.
    constructor; auto. intros I. apply Hn. eapply expired_keys_incl; eauto.
Qed.

Lemma dict_del_absent {V} (k : string) (d : list (string * V)) :
  dict_get k d = None -> dict_del k d = d.
Proof.
  induction d as [|[k' v'] d IH]; cbn; auto.
  destruct (String.eqb k k'); [discriminate|]. intros H. f_equal; auto.
Qed.

Lemma evicted_frame k w :
  sessions (evicted host k w) = dict_del k (sessions w) /\
  _cleanup_task (evicted host k w) = _cleanup_task w /\
  heap (evicted host k w) = heap w /\ tasks (evicted host k w) = tasks w /\
  List.length (envs (evicted host k w)) = List.length (envs w) /\
  exists seg, trace (evicted host k w) = trace w ++ seg /\ serial seg.
Proof.
  unfold evicted.
  set (w1 := set_trace _ w).
  destruct (dict_get k (sessions w)) as [r|] eqn:Hd.
  - destruct (closed_ref_frame r w1) as (F1 & F2 & F3 & F4 & F5 & seg & F6 & F7).
    cbn. repeat split; auto.
    exists ([Log INFO ("Cleaning up expired session: " ^^ k)] ++ seg).
    rewrite F6. subst w1. cbn. rewrite <- app_assoc. auto with serial.
  - subst w1. cbn. rewrite (dict_del_absent _ _ Hd). repeat split; auto.
    eexists; split; [reflexivity | auto with serial].
Qed.

Lemma cleanup_expired_eq w k r :
  dict_get k (sessions w) = Some r -> valid_ref w r ->
  cleanup_expired host k w = (Ok tt, evicted host k w).
Proof.
  intros Hd (ws & Hr & Hh). unfold cleanup_expired, evicted.
  unfold bind at 1. unfold logger, emit at 1.
  set (w1 := set_trace _ w).
  unfold bind at 1. unfold sessions_getitem, get_sessions, bind at 1.
  change (sessions w1) with (sessions w). rewrite Hd. cbn [ret].
  unfold bind at 1. erewrite close_session_eq; eauto.
  destruct (closed_ref_frame r w1) as (F1 & _).
  unfold sessions_delitem, get_sessions, put_sessions, bind.
  rewrite F1. change (sessions w1) with (sessions w). rewrite Hd.
  reflexivity.
Qed.

Lemma evict_loop ids : forall w,
  NoDup ids ->
  (forall k, In k ids ->
     exists r, dict_get k (sessions w) = Some r /\ valid_ref w r) ->
  for_each ids (cleanup_expired host) w = (Ok tt, evicted_all host ids w).
Proof.
  induction ids as [|k ids IH]; intros w ND Hv; cbn [for_each evicted_all].
  - reflexivity.
  - inversion ND as [|? ? Hn ND']; subst.
    destruct (Hv k (or_introl eq_refl)) as (r & Hd & Hr).
    unfold bind. rewrite (cleanup_expired_eq _ _ _ Hd Hr).
    apply IH; auto. intros k' Hin.
    destruct (Hv k' (or_intror Hin)) as (r' & Hd' & (ws & Hr' & Hh')).
    destruct (evicted_frame k w) as (F1 & _ & F3 & _ & F5 & _).
    exists r'. split.
    + rewrite F1, dict_del_other; auto. intros E; subst; auto.
    + exists ws. rewrite F3, F5. auto.
Qed.

Lemma cleanup_iteration_eq w :
  wf w ->
  cleanup_iteration host w =
  (Ok tt, ticked host w).
Proof.
  intros Hwf. pose proof Hwf as (ND & Hs & Hh & _).
  unfold cleanup_iteration, ticked.
  unfold bind at 1. unfold get_sessions at 1.
  unfold bind at 1. rewrite select_loop.
  2:{ intros k r Hin. destruct (Hs _ _ Hin) as (ws & Hr & _). eauto. }
  apply evict_loop.
  - apply expired_keys_NoDup; auto.
  - intros k Hin. apply expired_keys_incl in Hin.
    apply in_map_iff in Hin. destruct Hin as ([k' r] & E & Hin).
    cbn in E; subst. exists r. split.
    + cbn. apply dict_get_NoDup; auto.
    + destruct (Hs _ _ Hin) as (ws & Hr & _). exists ws. cbn. eauto.
Qed.

(** *** Well-formedness is kept *)


Lemma provision_facts id es n :
  let '(s, es', n', evs) := provision host id es n in
  serial evs /\ (n <= n')%nat /\
  ((s = None /\ (es' = es \/ exists env, es' = es ++ [env])) \/
   (s = Some (List.length es) /\ exists env, es' = es ++ [env])).
Proof.
  unfold provision.
  destruct (LLM_SANDBOX_AVAILABLE host).
  2:{ repeat split; auto with serial. }
  pose proof (serial_call OpConstruct) as S1.
  destruct (construct_at host n) as [e|].
  { repeat split; auto. }
  pose proof (serial_call (OpEnter (List.length es))) as S2.
  destruct (enter_at host (S n) (List.length es)) as [e|].
  { pose proof (Nat.le_succ_diag_r n). repeat split; eauto; lia. }
  pose proof (warmup_facts DEFAULT_LIBRARIES (S (S n)) (List.length es)
                (mkEnv Entered [])) as W.
  destruct (warmup host DEFAULT_LIBRARIES (S (S n)) (List.length es)
              (mkEnv Entered [])) as [[[o n'] env'] evs].
  destruct W as (W1 & W2).
  assert (S3 : serial ([Begin OpConstruct; End OpConstruct;
                        Begin (OpEnter (List.length es));
                        End (OpEnter (List.length es))] ++ evs)).
  { apply serial_app; auto; try (apply (serial_app [_; _] [_; _]); auto). }
  destruct o as [e|]; (split; [auto with serial|]); (split; [lia|]); eauto.
Qed.

Lemma wf_intro w w' :
  wf w ->
  NoDup (keys (sessions w')) ->
  (forall k r, In (k, r) (sessions w') ->
     exists ws, nth_error (heap w') r = Some ws /\ workspace_id ws = k) ->
  (forall r ws h, nth_error (heap w') r = Some ws -> session ws = Some h ->
     (h < List.length (envs w'))%nat) ->
  (forall t, _cleanup_task w' = Some t -> (t < List.length (tasks w'))%nat) ->
  (exists seg, trace w' = trace w ++ seg /\ serial seg) ->
  wf w'.
Proof.
  intros (_ & _ & _ & _ & St) H1 H2 H3 H4 (seg & E & Ss).
  repeat split; auto. rewrite E. auto with serial.
Qed.

(** A world that differs from a well-formed one by teardown, removal of
    dict entries and new tasks. *)
Lemma wf_shrink w w' :
  wf w ->
  NoDup (keys (sessions w')) ->
  (forall x, In x (sessions w') -> In x (sessions w)) ->
  heap w' = heap w ->
  List.length (envs w') = List.length (envs w) ->
  (forall t, _cleanup_task w' = Some t -> (t < List.length (tasks w'))%nat) ->
  (exists seg, trace w' = trace w ++ seg /\ serial seg) ->
  wf w'.
Proof.
  intros Hwf ND Hin Hh He Ht Hs. pose proof Hwf as (_ & W2 & W3 & _).
  apply (wf_intro w); auto.
  - intros k r I. rewrite Hh. auto.
  - intros r ws h. rewrite Hh, He. apply W3.
Qed.

Lemma get_or_create_ok w id :
  wf w ->
  exists r w1 ws,
    get_or_create_session host id w = (Ok r, w1) /\ wf w1 /\
    dict_get id (sessions w1) = Some r /\
    nth_error (heap w1) r = Some ws /\ workspace_id ws = id /\
    (forall h, session ws = Some h -> (h < List.length (envs w1))%nat).
Proof.
  intros Hwf. pose proof Hwf as (ND & Hs & Hh & Ht & St).
  destruct (dict_get id (sessions w)) as [r|] eqn:Hd.
  - destruct (Hs _ _ (dict_get_In _ _ _ Hd)) as (ws & Hr & Hid).
    assert (Hlt : (r < List.length (heap w))%nat)
      by (eapply nth_error_valid; eauto).
    rewrite (get_or_create_existing _ _ _ _ Hd Hr).
    do 3 eexists. split; [reflexivity|]. cbn.
    rewrite nth_error_update_eq by exact Hlt.
    split; [|repeat split; eauto].
    apply (wf_intro w); cbn [sessions heap envs tasks _cleanup_task trace];
      auto.
    + intros k r' I. destruct (Hs _ _ I) as (ws' & Hr' & Hid').
      destruct (Nat.eq_dec r r') as [<-|Hne].
      * rewrite nth_error_update_eq by exact Hlt. eexists; split; eauto.
        cbn. congruence.
      * rewrite nth_error_update_neq by exact Hne. eauto.
    + intros r' ws' h.
      destruct (Nat.eq_dec r r') as [<-|Hne].
      * rewrite nth_error_update_eq by exact Hlt.
        intros E; inversion E; subst; cbn. eauto.
      * rewrite nth_error_update_neq by exact Hne. eauto.
    + exists []. rewrite app_nil_r. auto with serial.
  - rewrite (get_or_create_new _ _ Hd).
    pose proof (provision_facts id (envs w) (S (S (steps w)))) as P.
    destruct (provision host id (envs w) (S (S (steps w))))
      as [[[s es] n] evs].
    destruct P as (P1 & P2 & P3).
    assert (Hes : (List.length (envs w) <= List.length es)%nat).
    { destruct P3 as [(_ & [->|(env & ->)])|(_ & env & ->)];
        rewrite ?length_app; cbn; lia. }
    do 3 eexists. split; [reflexivity|]. cbn.
    rewrite nth_error_last.
    assert (Hget : dict_get id (sessions w ++ [(id, List.length (heap w))])
                   = Some (List.length (heap w))).
    { apply dict_get_NoDup.
      - rewrite keys_app. apply NoDup_snoc; auto. apply dict_get_None; auto.
      - apply in_or_app. right. left. reflexivity. }
    assert (Hnew : forall h, s = Some h -> (h < List.length es)%nat).
    { intros h ->.
      destruct P3 as [(E & _)|(E & env & ->)]; [discriminate|].
      inversion E; subst. rewrite length_app. cbn. lia. }
    split; [|repeat split; auto].
    apply (wf_intro w); cbn [sessions heap envs tasks _cleanup_task trace];
      auto.
    + rewrite keys_app. apply NoDup_snoc; auto. apply dict_get_None; auto.
    + intros k r I. apply in_app_or in I. destruct I as [I|[E|[]]].
      * destruct (Hs _ _ I) as (ws & Hr & Hid).
        exists ws. split; auto. apply nth_error_grow; auto.
      * inversion E; subst. rewrite nth_error_last. eauto.
    + intros r ws h Hr Hse.
      destruct (Nat.lt_ge_cases r (List.length (heap w))) as [Hlt|Hge].
      * rewrite nth_error_app1 in Hr by exact Hlt.
        specialize (Hh _ _ _ Hr Hse). lia.
      * rewrite nth_error_app2 in Hr by exact Hge.
        destruct (r - List.length (heap w))%nat as [|[|m]]; cbn in Hr;
          try discriminate.
        inversion Hr; subst; cbn in Hse. auto.
    + eexists; split; [reflexivity|].
      change (serial ([creating_msg id] ++ evs)). auto with serial.
Qed.

Lemma same_identity_refl ws : same_identity ws ws.
Proof. unfold same_identity; auto. Qed.

Lemma grows_refl w : grows w w.
Proof.
  split; [|lia]. intros r ws Hr. exists ws. split; auto.
  apply same_identity_refl.
Qed.

Lemma grows_trans w1 w2 w3 : grows w1 w2 -> grows w2 w3 -> grows w1 w3.
Proof.
  intros (A & A') (B & B'). split; [|lia]. intros r ws Hr.
  destruct (A _ _ Hr) as (ws2 & Hr2 & I1 & I2 & I3).
  destruct (B _ _ Hr2) as (ws3 & Hr3 & J1 & J2 & J3).
  exists ws3. unfold same_identity. repeat split; congruence.
Qed.

Lemma grows_same_heap w w' :
  heap w' = heap w -> List.length (envs w') = List.length (envs w) ->
  grows w w'.
Proof.
  intros Hh He. split; [|lia]. intros r ws Hr. exists ws. rewrite Hh.
  split; auto. apply same_identity_refl.
Qed.

Lemma grows_touch w w' r ws t :
  nth_error (heap w) r = Some ws ->
  heap w' =
    update r (mkWS (workspace_id ws) (session ws) (created_at ws) t) (heap w) ->
  (List.length (envs w) <= List.length (envs w'))%nat ->
  grows w w'.
Proof.
  intros Hr Hh He. split; auto. intros r' ws' Hr'. rewrite Hh.
  destruct (Nat.eq_dec r r') as [<-|Hne].
  - rewrite nth_error_update_eq by (eapply nth_error_valid; eauto).
    eexists; split; eauto. rewrite Hr in Hr'. inversion Hr'; subst.
    unfold same_identity; cbn; auto.
  - rewrite nth_error_update_neq by exact Hne. exists ws'. split; auto.
    apply same_identity_refl.
Qed.

Lemma get_or_create_grows w id r w1 :
  wf w -> get_or_create_session host id w = (Ok r, w1) -> grows w w1.
Proof.
  intros Hwf. pose proof Hwf as (ND & Hs & Hh & Ht & St).
  destruct (dict_get id (sessions w)) as [r0|] eqn:Hd.
  - destruct (Hs _ _ (dict_get_In _ _ _ Hd)) as (ws & Hr & Hid).
    rewrite (get_or_create_existing _ _ _ _ Hd Hr).
    intros E; inversion E; subst; clear E.
    eapply grows_touch; eauto; cbn; auto.
  - rewrite (get_or_create_new _ _ Hd).
    pose proof (provision_facts id (envs w) (S (S (steps w)))) as P.
    destruct (provision host id (envs w) (S (S (steps w))))
      as [[[s es] n] evs].
    destruct P as (P1 & P2 & P3).
    intros E; inversion E; subst; clear E. split; cbn.
    + intros r ws Hr. exists ws. split; [apply nth_error_grow; auto|].
      apply same_identity_refl.
    + destruct P3 as [(_ & [->|(env & ->)])|(_ & env & ->)];
        rewrite ?length_app; cbn; lia.
Qed.

Lemma executed_ok w r ws code timeout :
  wf w -> nth_error (heap w) r = Some ws ->
  exists res w',
    executed host r code timeout w = (Ok res, w') /\ wf w' /\ grows w w' /\
    sessions w' = sessions w.
Proof.
  intros Hwf Hr. pose proof Hwf as (ND & Hs & Hh & Ht & St).
  unfold executed. rewrite Hr.
  destruct (session ws) as [h|] eqn:Hse.
  - pose proof (Hh _ _ _ Hr Hse) as Hlt.
    destruct (nth_error (envs w) h) as [env|] eqn:He.
    2:{ apply nth_error_None in He. lia. }
    do 2 eexists. split; [reflexivity|].
    destruct (run_at host (steps w) h env code (Some timeout)) as [c|e].
    + split; [|split; [|reflexivity]].
      * apply (wf_intro w);
          cbn [sessions heap envs tasks _cleanup_task trace]; auto.
        -- intros k r' I. destruct (Hs _ _ I) as (ws' & Hr' & Hid').
           destruct (Nat.eq_dec r r') as [<-|Hne].
           ++ rewrite nth_error_update_eq by (eapply nth_error_valid; eauto).
              eexists; split; eauto. cbn. congruence.
           ++ rewrite nth_error_update_neq by exact Hne. eauto.
        -- intros r' ws' h'. rewrite update_length.
           destruct (Nat.eq_dec r r') as [<-|Hne].
           ++ rewrite nth_error_update_eq by (eapply nth_error_valid; eauto).
              intros E; inversion E; subst; cbn.
              intros E'; inversion E'; subst. auto.
           ++ rewrite nth_error_update_neq by exact Hne. eauto.
        -- eexists; split; [reflexivity|]. unfold run_events.
           apply (serial_app [_; _]); auto with serial.
      * eapply (grows_touch w _ r ws); [exact Hr | cbn; rewrite Hse;
          reflexivity | cbn; rewrite update_length; lia].
    + split; [|split; [|reflexivity]].
      * apply (wf_shrink w); cbn; auto using update_length.
        eexists; split; [reflexivity|]. solve_serial.
      * apply grows_same_heap; cbn; auto using update_length.
  - do 2 eexists. split; [reflexivity|].
    split; [|split; [|reflexivity]].
    + apply (wf_shrink w); cbn; auto.
      eexists; split; [reflexivity|].
      apply (serial_app [_] [_; _]); auto with serial.
    + apply grows_same_heap; cbn; auto.
Qed.

Lemma execute_ok w id code timeout :
  wf w ->
  exists r w1 res w',
    get_or_create_session host id w = (Ok r, w1) /\
    execute host id code timeout w = (Ok res, w') /\
    executed host r code timeout w1 = (Ok res, w') /\
    wf w1 /\ wf w' /\ grows w w' /\ sessions w' = sessions w1.
Proof.
  intros Hwf.
  destruct (get_or_create_ok w id Hwf)
    as (r & w1 & ws & Hg & Hwf1 & Hd & Hr & Hid & Hh).
  destruct (executed_ok w1 r ws code timeout Hwf1 Hr)
    as (res & w' & He & Hwf' & Hgr & Hss).
  exists r, w1, res, w'.
  split; [exact Hg|]. split.
  { rewrite (execute_eq _ _ _ _ _ _ _ Hg Hr Hid Hh). exact He. }
  split; [exact He|]. split; [exact Hwf1|]. split; [exact Hwf'|].
  split; [|exact Hss].
  eapply grows_trans; [eapply get_or_create_grows; eauto | exact Hgr].
Qed.

Lemma teardown_frame_wf w w' : wf w -> teardown_frame w w' -> wf w'.
Proof.
  intros Hwf (F1 & F2 & F3 & F4 & F5 & F6).
  pose proof Hwf as (ND & Hs & Hh & Ht & St).
  apply (wf_shrink w); auto; rewrite ?F1, ?F2, ?F4; auto.
Qed.

Lemma cancelled_frame w :
  sessions (cancelled w) = sessions w /\
  _cleanup_task (cancelled w) = _cleanup_task w /\
  heap (cancelled w) = heap w /\ envs (cancelled w) = envs w /\
  List.length (tasks (cancelled w)) = List.length (tasks w) /\
  steps (cancelled w) = steps w /\
  exists seg, trace (cancelled w) = trace w ++ seg /\ serial seg.
Proof.
  unfold cancelled. destruct (_cleanup_task w) as [t|] eqn:Hc.
  2:{ repeat split; auto. exists []. rewrite app_nil_r. auto with serial. }
  destruct (nth_error (tasks w) t).
  2:{ repeat split; auto. exists []. rewrite app_nil_r. auto with serial. }
  cbn. rewrite update_length. repeat split; auto.
  eexists; split; [reflexivity | auto with serial].
Qed.

Lemma wf_cancelled w : wf w -> wf (cancelled w).
Proof.
  intros Hwf. pose proof Hwf as (ND & Hs & Hh & Ht & St).
  destruct (cancelled_frame w) as (F1 & F2 & F3 & F4 & F5 & F6 & F7).
  apply (wf_shrink w); auto; rewrite ?F1, ?F2, ?F4, ?F5; auto.
Qed.

Lemma wf_stopped w : wf w -> wf (stopped host w).
Proof.
  intros Hwf. pose proof (wf_cancelled w Hwf) as Hc.
  pose proof (closed_all_frame (values (sessions w)) (cancelled w)) as F.
  pose proof (teardown_frame_wf _ _ Hc F) as Hwf1.
  pose proof Hwf1 as (ND & Hs & Hh & Ht & St).
  unfold stopped.
  apply (wf_shrink (closed_all host (values (sessions w)) (cancelled w)));
    cbn; auto.
  - constructor.
  - tauto.
  - eexists; split; [reflexivity | auto with serial].
Qed.

Lemma wf_destroyed w id : wf w -> wf (destroyed host id w).
Proof.
  intros Hwf. unfold destroyed.
  destruct (dict_get id (sessions w)) as [r|] eqn:Hd; auto.
  pose proof (closed_ref_frame r w) as F.
  pose proof (teardown_frame_wf _ _ Hwf F) as Hwf1.
  destruct F as (F1 & _).
  pose proof Hwf1 as (ND & Hs & Hh & Ht & St).
  apply (wf_shrink (closed_ref host r w)); cbn; auto.
  - apply dict_del_NoDup. rewrite <- F1. auto.
  - intros x I. rewrite F1. eapply dict_del_subset; eauto.
  - eexists; split; [reflexivity | auto with serial].
Qed.

Lemma wf_evicted w k : wf w -> wf (evicted host k w).
Proof.
  intros Hwf. pose proof Hwf as (ND & Hs & Hh & Ht & St).
  destruct (evicted_frame k w) as (F1 & F2 & F3 & F4 & F5 & F6).
  apply (wf_shrink w); auto; rewrite ?F1, ?F2, ?F4; auto.
  - apply dict_del_NoDup; auto.
  - intros x. apply dict_del_subset.
Qed.

Lemma wf_evicted_all ids : forall w, wf w -> wf (evicted_all host ids w).
Proof.
  induction ids as [|k ids IH]; intros w Hwf; cbn; auto using wf_evicted.
Qed.

Lemma evicted_all_grows ids : forall w, grows w (evicted_all host ids w).
Proof.
  induction ids as [|k ids IH]; intros w; cbn.
  - apply grows_refl.
  - eapply grows_trans; [|apply IH].
    destruct (evicted_frame k w) as (F1 & F2 & F3 & F4 & F5 & F6).
    apply grows_same_heap; auto.
Qed.

Lemma wf_set_tasks_same_length w ts :
  wf w -> List.length ts = List.length (tasks w) -> wf (set_tasks ts w).
Proof.
  intros (ND & Hs & Hh & Ht & St) E. repeat split; auto.
  cbn. rewrite E. exact Ht.
Qed.

Lemma wf_ticked w : wf w -> wf (ticked host w).
Proof. intros Hwf. apply wf_evicted_all. exact Hwf. Qed.

Lemma ticked_grows w : grows w (ticked host w).
Proof.
  unfold ticked.
  eapply grows_trans; [|apply evicted_all_grows].
  apply grows_same_heap; reflexivity.
Qed.

Lemma evicted_all_tasks ids : forall w,
  tasks (evicted_all host ids w) = tasks w /\
  _cleanup_task (evicted_all host ids w) = _cleanup_task w.
Proof.
  induction ids as [|k ids IH]; intros w; cbn; auto.
  destruct (IH (evicted host k w)) as (A & B).
  destruct (evicted_frame k w) as (_ & F2 & _ & F4 & _).
  split; congruence.
Qed.

(** The world in which the event loop has resumed reaper task [t]. *)
Lemma resume_cleanup_eq w t :
  wf w ->
  resume_cleanup host t w =
  match nth_error (tasks w) t with
  | None => (Fault, w)
  | Some (Parked AtEntry) =>
      (Ok tt,
       set_tasks (update t (Parked (InSleep CLEANUP_INTERVAL)) (tasks w)) w)
  | Some (Parked (InSleep _)) =>
      (Ok tt,
       set_tasks (update t (Parked (InSleep CLEANUP_INTERVAL)) (tasks w))
         (ticked host w))
  | Some (CancelRequested _) =>
      (Ok tt, set_tasks (update t Finished (tasks w)) w)
  | Some Finished => (Ok tt, w)
  end.
Proof.
  intros Hwf. unfold resume_cleanup, task_status. unfold bind at 1.
  destruct (nth_error (tasks w) t) as [[[|d]|pc|]|]; try reflexivity.
  unfold try_except. unfold bind at 1.
  rewrite (cleanup_iteration_eq w Hwf).
  unfold set_task_status. unfold ticked at 1.
  destruct (evicted_all_tasks
              (expired_keys host (sessions w) (heap w) (steps w))
              (set_steps (List.length (sessions w) + steps w) w)) as (A & _).
  fold (ticked host w) in *. rewrite A. reflexivity.
Qed.

Lemma grows_set_tasks w ts : grows w (set_tasks ts w).
Proof. apply grows_same_heap; reflexivity. Qed.

Lemma perform_ok a w :
  wf w ->
  wf (snd (perform host a w)) /\ grows w (snd (perform host a w)).
Proof.
  intros Hwf. destruct a as [id code timeout|id| | |t]; cbn [perform].
  - destruct (execute_ok w id code timeout Hwf)
      as (r & w1 & res & w' & _ & He & _ & _ & Hwf' & Hg & _).
    unfold bind. rewrite He. cbn. auto.
  - rewrite (destroy_eq w id Hwf). cbn [snd].
    split; [apply wf_destroyed; exact Hwf|].
    unfold destroyed. destruct (dict_get id (sessions w)) as [r|].
    + destruct (closed_ref_frame r w) as (_ & _ & F3 & _ & F5 & _).
      apply grows_same_heap; cbn; auto.
    + apply grows_refl.
  - rewrite start_eq. cbn [snd]. pose proof Hwf as (ND & Hs & Hh & Ht & St).
    split; [|apply grows_same_heap; reflexivity].
    apply (wf_shrink w); cbn; auto.
    + intros t E. inversion E; subst. rewrite length_app. cbn. lia.
    + eexists; split; [reflexivity | solve_serial].
  - rewrite (stop_eq w Hwf). cbn [snd].
    split; [apply wf_stopped; exact Hwf|].
    destruct (closed_all_frame (values (sessions w)) (cancelled w))
      as (_ & _ & F3 & _ & F5 & _).
    destruct (cancelled_frame w) as (_ & _ & G3 & G4 & _).
    apply grows_same_heap; cbn; congruence.
  - rewrite (resume_cleanup_eq w t Hwf).
    destruct (nth_error (tasks w) t) as [[[|d]|pc|]|] eqn:E; cbn [snd];
      try (split; [exact Hwf | apply grows_refl]).
    + split; [|apply grows_set_tasks].
      apply wf_set_tasks_same_length; auto using update_length.
    + split.
      * apply wf_set_tasks_same_length; [apply wf_ticked; exact Hwf|].
        rewrite update_length. unfold ticked.
        destruct (evicted_all_tasks
                    (expired_keys host (sessions w) (heap w) (steps w))
                    (set_steps (List.length (sessions w) + steps w) w))
          as (A & _).
        rewrite A. reflexivity.
      * eapply grows_trans; [apply ticked_grows | apply grows_set_tasks].
    + split; [|apply grows_set_tasks].
      apply wf_set_tasks_same_length; auto using update_length.
Qed.

Lemma wf_init : wf init_world.
Proof.
  repeat split; cbn; try tauto; try discriminate.
  - constructor.
  - intros [|r] ws h; discriminate.
Qed.

Lemma run_schedule_ok l : forall w,
  wf w -> wf (run_schedule host l w) /\ grows w (run_schedule host l w).
Proof.
  induction l as [|a l IH]; intros w Hwf; cbn [run_schedule].
  - split; [exact Hwf | apply grows_refl].
  - destruct (perform_ok a w Hwf) as (H1 & H2).
    destruct (IH _ H1) as (H3 & H4).
    split; [exact H3 | eapply grows_trans; eauto].
Qed.

Lemma reachable_wf l : wf (run_schedule host l init_world).
Proof. apply run_schedule_ok, wf_init. Qed.

Lemma closed_world_trace id s w :
  trace (closed_world host id s w) =
  trace w ++ teardown_events host id s (steps w).
Proof.
  unfold closed_world, teardown_events. destruct s as [h|].
  - destruct (exit_at host (steps w) h); cbn; rewrite ?app_nil_r; reflexivity.
  - rewrite app_nil_r. reflexivity.
Qed.

Lemma closed_all_exits rs : forall w r ws h,
  In r rs -> nth_error (heap w) r = Some ws -> session ws = Some h ->
  exists seg,
    trace (closed_all host rs w) = trace w ++ seg /\ In (Begin (OpExit h)) seg.
Proof.
  induction rs as [|r0 rs IH]; intros w r ws h Hin Hr Hs; [destruct Hin|].
  cbn [closed_all].
  destruct (closed_ref_frame r0 w) as (_ & _ & F3 & _ & _ & s1 & F6 & _).
  destruct (closed_all_frame rs (closed_ref host r0 w))
    as (_ & _ & _ & _ & _ & s2 & G6 & _).
  destruct Hin as [->|Hin].
  - exists (s1 ++ s2). rewrite G6, F6, app_assoc. split; auto.
    apply in_or_app. left.
    unfold closed_ref in F6. rewrite Hr, closed_world_trace in F6.
    apply app_inv_head in F6. subst s1.
    unfold teardown_events. rewrite Hs. left. reflexivity.
  - rewrite <- F3 in Hr.
    destruct (IH (closed_ref host r0 w) r ws h Hin Hr Hs) as (seg & E & I).
    exists (s1 ++ seg). rewrite E, F6, app_assoc. split; auto.
    apply in_or_app. right. exact I.
Qed.

(** ** Session registry *)

(** C10. [get_or_create_session] on a workspace id that is in the
    registry returns the record that is registered, with its last-used
    time set to the time of the call and nothing else changed: the handle,
    the creation time and the workspace id of the record stay, no
    environment is created or run (the environments and the trace are the
    same), and the registry and all other records are the same. *)
Theorem get_existing_session_only_touches
    (w : World) (id : string) (r : ref) (ws : WorkspaceSession) :
  dict_get id (sessions w) = Some r ->
  nth_error (heap w) r = Some ws ->
  exists w',
    get_or_create_session host id w = (Ok r, w') /\
    nth_error (heap w') r =
      Some (mkWS (workspace_id ws) (session ws) (created_at ws)
              (time_at host (steps w))) /\
    (forall r', r' <> r -> nth_error (heap w') r' = nth_error (heap w) r') /\
    sessions w' = sessions w /\
    envs w' = envs w /\
    tasks w' = tasks w /\
    _cleanup_task w' = _cleanup_task w /\
    trace w' = trace w.
Proof.
  intros Hd Hr. rewrite (get_or_create_existing _ _ _ _ Hd Hr).
  eexists. split; [reflexivity|]. cbn.
  split; [apply nth_error_update_eq; eapply nth_error_valid; eauto|].
  split; [|auto 10].
  intros r' Hne. apply nth_error_update_neq. congruence.
Qed.

(** C7. [destroy_session] never raises; on an id that is not registered
    it changes nothing, so a second call in a row is such a no-op; on a
    registered id it first runs [_close_session] on the record, still
    registered, which calls [__exit__] on the handle if there is one
    (closing the environment when the call returns) and turns an exception
    of it into an ERROR log line, and only then deletes the entry. *)
Theorem destroy_session_idempotent (l : list Action) (id : string) :
  let w := run_schedule host l init_world in
  exists w',
    destroy_session host id w = (Ok tt, w') /\
    dict_get id (sessions w') = None /\
    destroy_session host id w' = (Ok tt, w') /\
    match dict_get id (sessions w) with
    | None => w' = w
    | Some r =>
        exists ws w1,
          nth_error (heap w) r = Some ws /\
          _close_session host r w = (Ok tt, w1) /\
          sessions w1 = sessions w /\
          trace w1 =
            trace w ++
              teardown_events host (workspace_id ws) (session ws) (steps w) /\
          (forall h,
             session ws = Some h -> exit_at host (steps w) h = None ->
             exists env,
               nth_error (envs w1) h = Some env /\ status env = Exited) /\
          sessions w' = dict_del id (sessions w) /\
          heap w' = heap w /\
          envs w' = envs w1 /\
          trace w' =
            trace w1 ++
              [Log INFO ("Destroyed session for workspace: " ^^ id)]
    end.
Proof.
  intros w. pose proof (reachable_wf l) as Hwf. fold w in Hwf.
  pose proof Hwf as (ND & Hs & Hh & Ht & St).
  exists (destroyed host id w).
  split; [apply destroy_eq; exact Hwf|].
  assert (Hgone : dict_get id (sessions (destroyed host id w)) = None).
  { unfold destroyed. destruct (dict_get id (sessions w)) as [r|] eqn:Hd;
      [|exact Hd].
    cbn. apply dict_get_None, dict_del_gone, ND. }
  split; [exact Hgone|]. split.
  { rewrite destroy_eq by (apply wf_destroyed; exact Hwf).
    unfold destroyed at 1. rewrite Hgone. reflexivity. }
  unfold destroyed.
  destruct (dict_get id (sessions w)) as [r|] eqn:Hd; [|reflexivity].
  destruct (Hs _ _ (dict_get_In _ _ _ Hd)) as (ws & Hr & Hid).
  exists ws, (closed_ref host r w).
  destruct (closed_ref_frame r w) as (F1 & _ & F3 & _).
  split; [exact Hr|]. split; [eapply close_session_eq; eauto|].
  split; [exact F1|]. split.
  { unfold closed_ref. rewrite Hr. apply closed_world_trace. }
  split.
  { intros h Hse Hex. unfold closed_ref, closed_world.
    rewrite Hr, Hse, Hex. cbn [envs]. eexists. split.
    - apply nth_error_update_eq. eapply Hh; eauto.
    - reflexivity. }
  cbn. auto.
Qed.

(** ** Execution broker *)

(** What [execute] returns, by the path taken. *)
Lemma execute_spec (w : World) (id code : string) (timeout : Z) :
  wf w ->
  exists r w1 ws res w',
    get_or_create_session host id w = (Ok r, w1) /\
    nth_error (heap w1) r = Some ws /\
    execute host id code timeout w = (Ok res, w') /\
    match session ws with
    | None =>
        match
          subprocess_at host (S (steps w1)) (fallback_python host (steps w1))
            code timeout
        with
        | ProcReturns cp =>
            res = mkResult (returncode cp =? 0) (cp_stdout cp) (cp_stderr cp) []
        | ProcRaises e =>
            res =
              mkResult false ""
                match exn_cls e with
                | TimeoutExpired => timeout_message timeout
                | _ => exn_str e
                end []
        end
    | Some h =>
        exists env,
          nth_error (envs w1) h = Some env /\
          match run_at host (steps w1) h env code (Some timeout) with
          | RunReturns co =>
              match images co with
              | Some imgs =>
                  res =
                    mkResult (exit_code co =? 0) (or_empty (co_stdout co))
                      (or_empty (co_stderr co))
                      (map (mkArtifact "image") (or_nil imgs))
              | None =>
                  res =
                    mkResult false ""
                      ("'" ^^ co_class co ^^
                         "' object has no attribute 'images'") []
              end
          | RunRaises e => res = mkResult false "" (exn_str e) []
          end
    end.
Proof.
  intros Hwf.
  destruct (get_or_create_ok w id Hwf)
    as (r & w1 & ws & Hg & Hwf1 & Hd & Hr & Hid & Hh).
  exists r, w1, ws.
  rewrite (execute_eq _ _ code timeout _ _ _ Hg Hr Hid Hh).
  unfold executed. rewrite Hr.
  destruct (session ws) as [h|].
  - specialize (Hh h eq_refl).
    destruct (nth_error (envs w1) h) as [env|] eqn:He.
    2:{ apply nth_error_None in He. lia. }
    do 2 eexists. split; [exact Hg|]. split; [reflexivity|].
    split; [reflexivity|]. exists env. split; [reflexivity|].
    destruct (run_at host (steps w1) h env code (Some timeout)) as [co|e];
      [|reflexivity].
    unfold sandbox_result. destruct (images co); reflexivity.
  - do 2 eexists. split; [exact Hg|]. split; [reflexivity|].
    split; [reflexivity|]. unfold fallback_result.
    destruct (subprocess_at host (S (steps w1))
                (fallback_python host (steps w1)) code timeout) as [cp|e];
      [reflexivity|].
    destruct (exn_cls e); reflexivity.
Qed.

(** C1 (amended). In every reachable world [execute] returns a result
    dict and raises nothing. When the record has no handle (the sandbox
    library is missing or provisioning failed) the code runs in a
    subprocess and the result is the one of the subprocess: its exit
    status, output and error output if it completed (so [success] can be
    true after a provisioning failure), [success = false] with the timeout
    message if it timed out, [success = false] with the text of the
    exception if it could not be spawned. When the record has a handle
    and the sandbox's [run] raised, the result is [success = false] with
    the text of the exception.  When [run] returned an object that has an
    [images] attribute, the result is its exit status, output, error
    output and images; when the object has no such attribute, reading it
    raises inside the [try] and the result is [success = false] with the
    text of that [AttributeError]. *)
Theorem execute_always_returns
    (l : list Action) (id code : string) (timeout : Z) :
  let w := run_schedule host l init_world in
  exists r w1 ws res w',
    get_or_create_session host id w = (Ok r, w1) /\
    nth_error (heap w1) r = Some ws /\
    execute host id code timeout w = (Ok res, w') /\
    match session ws with
    | None =>
        match
          subprocess_at host (S (steps w1)) (fallback_python host (steps w1))
            code timeout
        with
        | ProcReturns cp =>
            res = mkResult (returncode cp =? 0) (cp_stdout cp) (cp_stderr cp) []
        | ProcRaises e =>
            res =
              mkResult false ""
                match exn_cls e with
                | TimeoutExpired => timeout_message timeout
                | _ => exn_str e
                end []
        end
    | Some h =>
        exists env,
          nth_error (envs w1) h = Some env /\
          match run_at host (steps w1) h env code (Some timeout) with
          | RunReturns co =>
              match images co with
              | Some imgs =>
                  res =
                    mkResult (exit_code co =? 0) (or_empty (co_stdout co))
                      (or_empty (co_stderr co))
                      (map (mkArtifact "image") (or_nil imgs))
              | None =>
                  res =
                    mkResult false ""
                      ("'" ^^ co_class co ^^
                         "' object has no attribute 'images'") []
              end
          | RunRaises e => res = mkResult false "" (exn_str e) []
          end
    end.
Proof.
  intros w. apply execute_spec, reachable_wf.
Qed.

(** C8 (amended). Only the fallback path builds a timeout message: when
    the subprocess exceeds the bound ([subprocess.TimeoutExpired]),
    [execute] returns [success = false], empty output, no artifacts and
    the fixed message built from the bound.  On the sandbox path the
    module has no case for a timeout: an exception of the sandbox's
    [run], of whatever class, gives [success = false], empty output, no
    artifacts and, as error output, the text of that exception, which
    names the bound only if the library put it there. *)
Theorem timeout_is_reported
    (l : list Action) (id code : string) (timeout : Z)
    (r : ref) (w1 : World) (ws : WorkspaceSession) (e : exn) :
  let w := run_schedule host l init_world in
  get_or_create_session host id w = (Ok r, w1) ->
  nth_error (heap w1) r = Some ws ->
  match session ws with
  | None =>
      subprocess_at host (S (steps w1)) (fallback_python host (steps w1))
        code timeout = ProcRaises e /\
      exn_cls e = TimeoutExpired
  | Some h =>
      exists env,
        nth_error (envs w1) h = Some env /\
        run_at host (steps w1) h env code (Some timeout) = RunRaises e
  end ->
  exists w',
    execute host id code timeout w =
      (Ok (mkResult false ""
             match session ws with
             | None =>
                 "Execution timed out after " ^^ str_int timeout ^^ " seconds"
             | Some _ => exn_str e
             end []), w').
Proof.
  intros w Hg Hr Hto.
  destruct (execute_spec w id code timeout (reachable_wf l))
    as (r' & w1' & ws' & res & w' & Hg' & Hr' & He & Hres).
  rewrite Hg in Hg'. inversion Hg'; subst r' w1'.
  rewrite Hr in Hr'. inversion Hr'; subst ws'.
  exists w'. rewrite He. f_equal. f_equal.
  destruct (session ws) as [h|].
  - destruct Hto as (env & Hen & Hrun).
    destruct Hres as (env' & Hen' & Hres).
    rewrite Hen in Hen'. inversion Hen'; subst env'.
    rewrite Hrun in Hres. exact Hres.
  - destruct Hto as (Hsub & Hcls). rewrite Hsub, Hcls in Hres. exact Hres.
Qed.

(** ** Scheduling *)

(** *** Environments in use *)

Lemma rbe_app_runs tr seg :
  run_before_exit tr ->
  (forall h, ~ exited h seg) ->
  (forall h c t, In (Begin (OpRun h c t)) seg -> ~ exited h tr) ->
  run_before_exit (tr ++ seg).
Proof.
  intros R Hx Hr a b h code t E.
  apply app_eq_app in E. destruct E as (l & [(E1 & E2)|(E1 & E2)]).
  - destruct l as [|e l]; cbn in E2.
    + rewrite app_nil_r in E1. subst a. apply Hr with code t.
      rewrite <- E2. left. reflexivity.
    + inversion E2; subst e. eapply R. exact E1.
  - subst a. intros I. apply in_app_or in I. destruct I as [I|I].
    + revert I. apply Hr with code t. rewrite E2.
      apply in_or_app. right. left. reflexivity.
    + apply (Hx h). rewrite E2. apply in_or_app. left. exact I.
Qed.

Lemma rbe_app_noruns tr seg :
  run_before_exit tr ->
  (forall h c t, ~ In (Begin (OpRun h c t)) seg) ->
  run_before_exit (tr ++ seg).
Proof.
  intros R Hn a b h code t E.
  apply app_eq_app in E. destruct E as (l & [(E1 & E2)|(E1 & E2)]).
  - destruct l as [|e l]; cbn in E2.
    + exfalso. apply (Hn h code t). rewrite <- E2. left. reflexivity.
    + inversion E2; subst e. eapply R. exact E1.
  - exfalso. apply (Hn h code t). rewrite E2.
    apply in_or_app. right. left. reflexivity.
Qed.

Lemma provision_events id es n :
  let evs := snd (provision host id es n) in
  (forall h, ~ exited h evs) /\
  (forall h c t, In (Begin (OpRun h c t)) evs -> h = List.length es).
Proof.
  unfold provision.
  destruct (LLM_SANDBOX_AVAILABLE host); [|cbn; split; intros; tauto].
  destruct (construct_at host n).
  { cbn. split; [intros h [H|[H|[H|[]]]] | intros h c t [H|[H|[H|[]]]]];
      discriminate. }
  destruct (enter_at host (S n) (List.length es)).
  { cbn. split;
      [intros h [H|[H|[H|[H|[H|[]]]]]]
      | intros h c t [H|[H|[H|[H|[H|[]]]]]]]; discriminate. }
  pose proof (warmup_events DEFAULT_LIBRARIES (S (S n)) (List.length es)
                (mkEnv Entered [])) as W.
  destruct (warmup host DEFAULT_LIBRARIES (S (S n)) (List.length es)
              (mkEnv Entered [])) as [[[o n'] env'] evs].
  cbn [snd] in W. rewrite Forall_forall in W.
  assert (A : forall h, ~ exited h evs).
  { intros h I. destruct (W _ I) as (c & t & [E|E]); discriminate. }
  assert (B : forall h c t, In (Begin (OpRun h c t)) evs ->
                            h = List.length es).
  { intros h c t I. destruct (W _ I) as (c' & t' & [E|E]); congruence. }
  destruct o; cbn [snd]; split.
  - intros h I. apply in_app_or in I. destruct I as [I|[I|[]]];
      [|discriminate].
    apply in_app_or in I. destruct I as [[I|[I|[I|[I|[]]]]]|I];
      try discriminate. exact (A h I).
  - intros h c t I. apply in_app_or in I. destruct I as [I|[I|[]]];
      [|discriminate].
    apply in_app_or in I. destruct I as [[I|[I|[I|[I|[]]]]]|I];
      try discriminate. exact (B h c t I).
  - intros h I. apply in_app_or in I. destruct I as [I|[I|[]]];
      [|discriminate].
    apply in_app_or in I. destruct I as [[I|[I|[I|[I|[]]]]]|I];
      try discriminate. exact (A h I).
  - intros h c t I. apply in_app_or in I. destruct I as [I|[I|[]]];
      [|discriminate].
    apply in_app_or in I. destruct I as [[I|[I|[I|[I|[]]]]]|I];
      try discriminate. exact (B h c t I).
Qed.

(** A step that keeps the registry and the handles of the records, and
    calls no [__exit__]. *)
Lemma live_step w w' seg :
  live w ->
  sessions w' = sessions w ->
  (forall r ws', nth_error (heap w') r = Some ws' ->
     exists ws, nth_error (heap w) r = Some ws /\ session ws = session ws') ->
  (List.length (envs w) <= List.length (envs w'))%nat ->
  trace w' = trace w ++ seg ->
  (forall h, ~ exited h seg) ->
  (forall h c t, In (Begin (OpRun h c t)) seg -> ~ exited h (trace w)) ->
  live w'.
Proof.
  intros (I1 & I2 & I3 & I4) Hs Hh He Ht Hx Hr.
  assert (X : forall h, exited h (trace w') -> exited h (trace w)).
  { intros h I. rewrite Ht in I. apply in_app_or in I.
    destruct I as [I|I]; [exact I | destruct (Hx h I)]. }
  repeat split.
  - intros k r ws' h Hin Hn Hse I. rewrite Hs in Hin.
    destruct (Hh _ _ Hn) as (ws & Hn0 & E).
    apply (I1 k r ws h Hin Hn0); [congruence | auto].
  - intros k1 r1 ws1 k2 r2 ws2 h Hin1 Hin2 Hn1 Hn2 S1 S2.
    rewrite Hs in Hin1, Hin2.
    destruct (Hh _ _ Hn1) as (v1 & M1 & E1).
    destruct (Hh _ _ Hn2) as (v2 & M2 & E2).
    apply (I2 k1 r1 v1 k2 r2 v2 h); auto; congruence.
  - intros h I. specialize (I3 h (X h I)). lia.
  - rewrite Ht. apply rbe_app_runs; auto.
Qed.

(** A step that tears environments down and removes their records. *)
Lemma live_teardown w w' seg :
  wf w -> live w ->
  (forall x, In x (sessions w') -> In x (sessions w)) ->
  heap w' = heap w ->
  List.length (envs w') = List.length (envs w) ->
  trace w' = trace w ++ seg ->
  (forall h c t, ~ In (Begin (OpRun h c t)) seg) ->
  (forall h, exited h seg ->
     exists k0 r0 ws0,
       In (k0, r0) (sessions w) /\ nth_error (heap w) r0 = Some ws0 /\
       session ws0 = Some h /\ ~ In k0 (keys (sessions w'))) ->
  live w'.
Proof.
  intros Hwf (I1 & I2 & I3 & I4) Hin Hh He Ht Hn Hx.
  pose proof Hwf as (_ & Ws & Wh & _).
  repeat split.
  - intros k r ws h Hi Hr Hs I. rewrite Hh in Hr. rewrite Ht in I.
    apply in_app_or in I. destruct I as [I|I].
    + exact (I1 k r ws h (Hin _ Hi) Hr Hs I).
    + destruct (Hx h I) as (k0 & r0 & ws0 & Hi0 & Hr0 & Hs0 & Hgone).
      assert (k = k0) by (eapply (I2 k r ws k0 r0 ws0 h); eauto).
      subst k0. apply Hgone. apply in_map_iff. exists (k, r). auto.
  - intros k1 r1 ws1 k2 r2 ws2 h Hi1 Hi2 Hr1 Hr2 S1 S2.
    rewrite Hh in Hr1, Hr2. eapply (I2 k1 r1 ws1 k2 r2 ws2 h); eauto.
  - intros h I. rewrite Ht in I. rewrite He.
    apply in_app_or in I. destruct I as [I|I]; [auto|].
    destruct (Hx h I) as (k0 & r0 & ws0 & _ & Hr0 & Hs0 & _). eauto.
  - rewrite Ht. apply rbe_app_noruns; auto.
Qed.

Lemma teardown_events_facts id s n :
  (forall h c t, ~ In (Begin (OpRun h c t)) (teardown_events host id s n)) /\
  (forall h, exited h (teardown_events host id s n) -> s = Some h).
Proof.
  unfold teardown_events, exited. destruct s as [h0|]; [|cbn; split; intros; tauto].
  destruct (exit_at host n h0); cbn; split.
  - intros h c t [H|[H|[H|[]]]]; discriminate.
  - intros h [H|[H|[H|[]]]]; congruence.
  - intros h c t [H|[H|[]]]; discriminate.
  - intros h [H|[H|[]]]; congruence.
Qed.

Lemma closed_ref_events r w :
  exists seg,
    trace (closed_ref host r w) = trace w ++ seg /\
    (forall h c t, ~ In (Begin (OpRun h c t)) seg) /\
    (forall h, exited h seg ->
       exists ws, nth_error (heap w) r = Some ws /\ session ws = Some h).
Proof.
  unfold closed_ref. destruct (nth_error (heap w) r) as [ws|].
  - exists (teardown_events host (workspace_id ws) (session ws) (steps w)).
    destruct (teardown_events_facts (workspace_id ws) (session ws) (steps w))
      as (A & B).
    split; [apply closed_world_trace|]. split; [exact A|].
    intros h I. exists ws. split; [reflexivity | exact (B h I)].
  - exists []. rewrite app_nil_r. split; [reflexivity|].
    split; [intros h c t I; destruct I | intros h I; destruct I].
Qed.

Lemma closed_all_events rs : forall w,
  exists seg,
    trace (closed_all host rs w) = trace w ++ seg /\
    (forall h c t, ~ In (Begin (OpRun h c t)) seg) /\
    (forall h, exited h seg ->
       exists r ws,
         In r rs /\ nth_error (heap w) r = Some ws /\ session ws = Some h).
Proof.
  induction rs as [|r rs IH]; intros w; cbn [closed_all].
  - exists []. rewrite app_nil_r. split; [reflexivity|].
    split; [intros h c t I; destruct I | intros h I; destruct I].
  - destruct (closed_ref_events r w) as (s1 & E1 & N1 & X1).
    destruct (IH (closed_ref host r w)) as (s2 & E2 & N2 & X2).
    destruct (closed_ref_frame r w) as (_ & _ & F3 & _).
    exists (s1 ++ s2). rewrite E2, E1, app_assoc. split; [reflexivity|].
    split.
    + intros h c t I. apply in_app_or in I.
      destruct I as [I|I]; [exact (N1 h c t I) | exact (N2 h c t I)].
    + intros h I. apply in_app_or in I. destruct I as [I|I].
      * destruct (X1 h I) as (ws & Hr & Hs). exists r, ws.
        split; [left; reflexivity | auto].
      * destruct (X2 h I) as (r' & ws & Hi & Hr & Hs). rewrite F3 in Hr.
        exists r', ws. split; [right; exact Hi | auto].
Qed.

Lemma live_evicted w k : wf w -> live w -> live (evicted host k w).
Proof.
  intros Hwf Hl. pose proof Hwf as (ND & Ws & _).
  unfold evicted.
  set (msg := Log INFO ("Cleaning up expired session: " ^^ k)).
  destruct (dict_get k (sessions w)) as [r|] eqn:Hd.
  - destruct (closed_ref_events r (set_trace (trace w ++ [msg]) w))
      as (seg & E & N & X).
    destruct (closed_ref_frame r (set_trace (trace w ++ [msg]) w))
      as (_ & _ & F3 & _ & F5 & _).
    apply (live_teardown w _ ([msg] ++ seg)); auto.
    + cbn. intros x. apply dict_del_subset.
    + cbn [trace set_sessions]. rewrite E. cbn. rewrite <- app_assoc.
      reflexivity.
    + intros h c t [I|I]; [discriminate | exact (N h c t I)].
    + intros h [I|I]; [discriminate|].
      destruct (X h I) as (ws & Hr & Hs). cbn in Hr.
      exists k, r, ws. split; [apply dict_get_In; exact Hd|].
      split; [exact Hr|]. split; [exact Hs|].
      cbn. apply dict_del_gone. exact ND.
  - apply (live_step w _ [msg]); auto; cbn.
    + intros r ws' Hr. eauto.
    + intros h [I|[]]. discriminate.
    + intros h c t [I|[]]. discriminate.
Qed.

Lemma live_evicted_all ids : forall w,
  wf w -> live w -> live (evicted_all host ids w).
Proof.
  induction ids as [|k ids IH]; intros w Hwf Hl; cbn [evicted_all]; auto.
  apply IH; [apply wf_evicted | apply live_evicted]; auto.
Qed.

Lemma live_destroyed w id : wf w -> live w -> live (destroyed host id w).
Proof.
  intros Hwf Hl. pose proof Hwf as (ND & Ws & _).
  unfold destroyed.
  destruct (dict_get id (sessions w)) as [r|] eqn:Hd; [|exact Hl].
  destruct (closed_ref_events r w) as (seg & E & N & X).
  destruct (closed_ref_frame r w) as (_ & _ & F3 & _ & F5 & _).
  set (msg := Log INFO ("Destroyed session for workspace: " ^^ id)).
  apply (live_teardown w _ (seg ++ [msg])); auto.
  - cbn. intros x. apply dict_del_subset.
  - cbn [trace]. rewrite E, <- app_assoc. reflexivity.
  - intros h c t I. apply in_app_or in I.
    destruct I as [I|[I|[]]]; [exact (N h c t I) | discriminate].
  - intros h I. apply in_app_or in I. destruct I as [I|[I|[]]];
      [|discriminate].
    destruct (X h I) as (ws & Hr & Hs).
    exists id, r, ws. split; [apply dict_get_In; exact Hd|].
    split; [exact Hr|]. split; [exact Hs|].
    cbn. apply dict_del_gone. exact ND.
Qed.

Lemma live_cancelled w : live w -> live (cancelled w).
Proof.
  intros Hl. unfold cancelled.
  destruct (_cleanup_task w) as [t|]; [|exact Hl].
  destruct (nth_error (tasks w) t); [|exact Hl].
  apply (live_step w _ [CancelTask t]); auto; cbn.
  - intros r ws' Hr. eauto.
  - intros h [I|[]]. discriminate.
  - intros h c x [I|[]]. discriminate.
Qed.

Lemma live_stopped w : wf w -> live w -> live (stopped host w).
Proof.
  intros Hwf Hl. pose proof (wf_cancelled w Hwf) as Hwc.
  pose proof (live_cancelled w Hl) as Hlc.
  destruct (cancelled_frame w) as (C1 & _).
  destruct (closed_all_events (values (sessions w)) (cancelled w))
    as (seg & E & N & X).
  destruct (closed_all_frame (values (sessions w)) (cancelled w))
    as (_ & _ & F3 & _ & F5 & _).
  set (msg := Log INFO "Sandbox manager stopped").
  unfold stopped.
  apply (live_teardown (cancelled w) _ (seg ++ [msg])); auto.
  - cbn. tauto.
  - cbn [trace]. rewrite E, <- app_assoc. reflexivity.
  - intros h c t I. apply in_app_or in I.
    destruct I as [I|[I|[]]]; [exact (N h c t I) | discriminate].
  - intros h I. apply in_app_or in I. destruct I as [I|[I|[]]];
      [|discriminate].
    destruct (X h I) as (r & ws & Hi & Hr & Hs).
    apply in_map_iff in Hi. destruct Hi as ([k r'] & Er & Hi).
    cbn in Er; subst r'.
    exists k, r, ws. rewrite C1. split; [exact Hi|].
    split; [exact Hr|]. split; [exact Hs|]. cbn. tauto.
Qed.

Lemma live_get_or_create w id r w1 :
  wf w -> live w -> get_or_create_session host id w = (Ok r, w1) -> live w1.
Proof.
  intros Hwf Hl. pose proof Hwf as (ND & Ws & Wh & _).
  destruct (dict_get id (sessions w)) as [r0|] eqn:Hd.
  - destruct (Ws _ _ (dict_get_In _ _ _ Hd)) as (ws & Hr & Hid).
    rewrite (get_or_create_existing _ _ _ _ Hd Hr).
    intros E; inversion E; subst; clear E.
    apply (live_step w _ []); cbn; auto using app_nil_r.
    intros r' ws'. destruct (Nat.eq_dec r r') as [<-|Hne].
    + rewrite nth_error_update_eq by (eapply nth_error_valid; eauto).
      intros E; inversion E; subst. eauto.
    + rewrite nth_error_update_neq by exact Hne. eauto.
  - rewrite (get_or_create_new _ _ Hd).
    pose proof (provision_facts id (envs w) (S (S (steps w)))) as P.
    pose proof (provision_events id (envs w) (S (S (steps w)))) as Q.
    destruct (provision host id (envs w) (S (S (steps w))))
      as [[[s es] n] evs].
    destruct P as (_ & _ & P3). cbn [snd] in Q. destruct Q as (Q1 & Q2).
    intros E; inversion E; subst; clear E.
    destruct Hl as (I1 & I2 & I3 & I4).
    assert (Hes : (List.length (envs w) <= List.length es)%nat).
    { destruct P3 as [(_ & [->|(env & ->)])|(_ & env & ->)];
        rewrite ?length_app; cbn; lia. }
    assert (Hnew : forall h, s = Some h -> h = List.length (envs w)).
    { intros h ->. destruct P3 as [(E & _)|(E & _)]; congruence. }
    assert (X : forall h, exited h (trace w ++ creating_msg id :: evs) ->
                          exited h (trace w)).
    { intros h I. apply in_app_or in I.
      destruct I as [I|[I|I]]; [exact I | discriminate | destruct (Q1 h I)]. }
    assert (Hold : forall k r ws,
               In (k, r) (sessions w) ->
               nth_error
                 (heap w ++
                    [mkWS id s (time_at host (steps w))
                       (time_at host (S (steps w)))]) r = Some ws ->
               nth_error (heap w) r = Some ws).
    { intros k r ws Hi Hr. destruct (Ws _ _ Hi) as (ws0 & Hr0 & _).
      rewrite (nth_error_grow _ _ _ _ Hr0) in Hr. congruence. }
    assert (Hfresh : forall h, exited h (trace w) ->
                               h <> List.length (envs w)).
    { intros h I. specialize (I3 h I). lia. }
    repeat split; cbn [sessions heap envs trace].
    + intros k r ws h Hi Hr Hs I. apply X in I.
      apply in_app_or in Hi. destruct Hi as [Hi|[Hi|[]]].
      * exact (I1 k r ws h Hi (Hold _ _ _ Hi Hr) Hs I).
      * inversion Hi; subst k r. rewrite nth_error_last in Hr.
        inversion Hr; subst ws. cbn in Hs.
        exact (Hfresh h I (Hnew h Hs)).
    + intros k1 r1 ws1 k2 r2 ws2 h Hi1 Hi2 Hr1 Hr2 S1 S2.
      apply in_app_or in Hi1. apply in_app_or in Hi2.
      destruct Hi1 as [Hi1|[Hi1|[]]]; destruct Hi2 as [Hi2|[Hi2|[]]].
      * exact (I2 k1 r1 ws1 k2 r2 ws2 h Hi1 Hi2 (Hold _ _ _ Hi1 Hr1)
                 (Hold _ _ _ Hi2 Hr2) S1 S2).
      * inversion Hi2; subst k2 r2. rewrite nth_error_last in Hr2.
        inversion Hr2; subst ws2. cbn in S2.
        pose proof (Wh _ _ _ (Hold _ _ _ Hi1 Hr1) S1).
        pose proof (Hnew h S2). lia.
      * inversion Hi1; subst k1 r1. rewrite nth_error_last in Hr1.
        inversion Hr1; subst ws1. cbn in S1.
        pose proof (Wh _ _ _ (Hold _ _ _ Hi2 Hr2) S2).
        pose proof (Hnew h S1). lia.
      * congruence.
    + intros h I. apply X in I. specialize (I3 h I). lia.
    + apply rbe_app_runs; auto.
      * intros h [I|I]; [discriminate | exact (Q1 h I)].
      * intros h c t [I|I]; [discriminate|].
        intros J. apply (Hfresh h J). exact (Q2 h c t I).
Qed.

Lemma live_executed w id r ws code timeout :
  wf w -> live w -> In (id, r) (sessions w) ->
  nth_error (heap w) r = Some ws ->
  live (snd (executed host r code timeout w)).
Proof.
  intros Hwf Hl Hi Hr. pose proof Hl as (I1 & _).
  unfold executed. rewrite Hr.
  destruct (session ws) as [h|] eqn:Hs.
  - destruct (nth_error (envs w) h) as [env|]; [|exact Hl].
    pose proof (I1 id r ws h Hi Hr Hs) as Hnx.
    destruct (run_at host (steps w) h env code (Some timeout)) as [c|e];
      cbn [snd].
    + apply (live_step w _
               (run_events h code (Some timeout) ++
                  images_log (workspace_id ws) c));
        cbn [sessions heap envs trace]; auto using update_length.
      * intros r' ws'. destruct (Nat.eq_dec r r') as [<-|Hne].
        -- rewrite nth_error_update_eq by (eapply nth_error_valid; eauto).
           intros E; inversion E; subst. eauto.
        -- rewrite nth_error_update_neq by exact Hne. eauto.
      * rewrite update_length. lia.
      * destruct (images_log_cases (workspace_id ws) c) as [E|(msg & E)];
          rewrite E; intros h' I; unfold exited, run_events in I;
          cbn [app In] in I;
          repeat (destruct I as [I|I]; [discriminate|]); destruct I.
      * destruct (images_log_cases (workspace_id ws) c) as [E|(msg & E)];
          rewrite E; intros h' c' t' I; unfold run_events in I;
          cbn [app In] in I;
          repeat (destruct I as [I|I];
                  [try discriminate; inversion I; subst; exact Hnx|]);
          destruct I.
    + apply (live_step w _
               (run_events h code (Some timeout) ++
                  [Log ERROR ("Execution error in " ^^ workspace_id ws ^^ ": "
                                ^^ str e)])); cbn; auto.
      * intros r' ws' Hr'. eauto.
      * rewrite update_length. lia.
      * intros h' [I|[I|[I|[]]]]; discriminate.
      * intros h' c' t' [I|[I|[I|[]]]]; try discriminate.
        inversion I; subst. exact Hnx.
  - cbn [snd].
    match goal with |- live (mkWorld _ _ _ _ _ _ (_ ++ ?seg)) =>
      apply (live_step w _ seg) end; cbn; auto.
    + intros r' ws' Hr'. eauto.
    + intros h' [I|[I|[I|[]]]]; discriminate.
    + intros h' c' t' [I|[I|[I|[]]]]; discriminate.
Qed.

Lemma perform_live a w :
  wf w -> live w -> live (snd (perform host a w)).
Proof.
  intros Hwf Hl. destruct a as [id code timeout|id| | |t]; cbn [perform].
  - destruct (get_or_create_ok w id Hwf)
      as (r & w1 & ws & Hg & Hwf1 & Hd & Hr & Hid & Hh).
    unfold bind. rewrite (execute_eq _ _ code timeout _ _ _ Hg Hr Hid Hh).
    pose proof (live_executed w1 id r ws code timeout Hwf1
                  (live_get_or_create _ _ _ _ Hwf Hl Hg)
                  (dict_get_In _ _ _ Hd) Hr) as L.
    destruct (executed host r code timeout w1) as [[res| |] w'];
      cbn [snd ret] in *; exact L.
  - rewrite (destroy_eq w id Hwf). apply live_destroyed; auto.
  - rewrite start_eq. cbn [snd].
    apply (live_step w _ [Log INFO "Sandbox manager started"]); cbn; auto.
    + intros r ws' Hr. eauto.
    + intros h [I|[]]. discriminate.
    + intros h c x [I|[]]. discriminate.
  - rewrite (stop_eq w Hwf). apply live_stopped; auto.
  - rewrite (resume_cleanup_eq w t Hwf).
    destruct (nth_error (tasks w) t) as [[[|d]|pc|]|]; cbn [snd];
      try exact Hl.
    apply (live_evicted_all _ (set_steps _ w)); auto.
Qed.

Lemma live_init : live init_world.
Proof.
  repeat split; cbn; try tauto.
  intros a b h code t E. destruct a; discriminate.
Qed.

Lemma reachable_live l : live (run_schedule host l init_world).
Proof.
  assert (G : forall l w, wf w -> live w -> live (run_schedule host l w)).
  { clear l. induction l as [|a l IH]; intros w Hwf Hl; cbn [run_schedule].
    - exact Hl.
    - apply IH; [apply perform_ok; exact Hwf | apply perform_live; auto]. }
  apply G; [apply wf_init | apply live_init].
Qed.

Lemma executed_frame r code timeout w :
  let w' := snd (executed host r code timeout w) in
  sessions w' = sessions w /\
  List.length (heap w') = List.length (heap w) /\
  List.length (envs w') = List.length (envs w) /\
  constructions (trace w') = constructions (trace w).
Proof.
  unfold executed.
  destruct (nth_error (heap w) r) as [ws|]; [|cbn; auto].
  destruct (session ws) as [h|].
  - destruct (nth_error (envs w) h) as [env|]; [|cbn; auto].
    destruct (run_at host (steps w) h env code (Some timeout)) as [c|e];
      cbn [snd sessions heap envs trace];
      rewrite ?update_length, !constructions_app;
      try (destruct (images_log_cases (workspace_id ws) c)
             as [E|(msg & E)]; rewrite E);
      cbn; auto.
  - cbn [snd sessions heap envs trace]. rewrite constructions_app.
    cbn. auto.
Qed.

Lemma provision_constructions id es n :
  (constructions (snd (provision host id es n)) <= 1)%nat.
Proof.
  unfold provision. destruct (LLM_SANDBOX_AVAILABLE host); [|cbn; lia].
  destruct (construct_at host n); [cbn; lia|].
  destruct (enter_at host (S n) (List.length es)); [cbn; lia|].
  cbn [snd].
  pose proof (warmup_constructions DEFAULT_LIBRARIES (S (S n))
                (List.length es) (mkEnv Entered [])) as W.
  destruct (warmup host DEFAULT_LIBRARIES (S (S n)) (List.length es)
              (mkEnv Entered [])) as [[[o n'] env'] evs].
  cbn [snd] in W.
  destruct o; cbn [snd]; rewrite !constructions_app, W; cbn; lia.
Qed.

(** The first request for an id that is not registered. *)
Lemma first_request w id code timeout :
  wf w -> dict_get id (sessions w) = None ->
  let w' := snd (perform host (PostExecute id code timeout) w) in
  wf w' /\
  sessions w' = sessions w ++ [(id, List.length (heap w))] /\
  List.length (heap w') = S (List.length (heap w)) /\
  (List.length (envs w') <= S (List.length (envs w)))%nat /\
  (constructions (trace w') <= S (constructions (trace w)))%nat.
Proof.
  intros Hwf Hd w'. subst w'. cbn [perform].
  destruct (execute_ok w id code timeout Hwf)
    as (r & w1 & res & w' & Hg & He & Hx & Hwf1 & Hwf' & _ & _).
  unfold bind. rewrite He. cbn [snd ret].
  pose proof (executed_frame r code timeout w1) as F. rewrite Hx in F.
  cbn [snd] in F. destruct F as (F1 & F2 & F3 & F4).
  rewrite (get_or_create_new _ _ Hd) in Hg.
  pose proof (provision_facts id (envs w) (S (S (steps w)))) as P.
  pose proof (provision_constructions id (envs w) (S (S (steps w)))) as C.
  destruct (provision host id (envs w) (S (S (steps w))))
    as [[[s es] n] evs].
  destruct P as (_ & _ & P3). cbn [snd] in C.
  inversion Hg; subst r w1; clear Hg. cbn [sessions heap envs trace] in F1, F2, F3, F4.
  split; [exact Hwf'|]. split; [exact F1|].
  split; [rewrite F2, length_app; cbn; lia|]. split.
  - rewrite F3.
    destruct P3 as [(_ & [->|(env & ->)])|(_ & env & ->)];
      rewrite ?length_app; cbn; lia.
  - rewrite F4.
    change (creating_msg id :: evs) with ([creating_msg id] ++ evs).
    rewrite !constructions_app. cbn [constructions filter is_construct
      creating_msg List.length]. lia.
Qed.

(** A request for an id that is registered. *)
Lemma later_request w id code timeout r :
  wf w -> dict_get id (sessions w) = Some r ->
  let w' := snd (perform host (PostExecute id code timeout) w) in
  wf w' /\
  sessions w' = sessions w /\
  List.length (heap w') = List.length (heap w) /\
  List.length (envs w') = List.length (envs w) /\
  constructions (trace w') = constructions (trace w).
Proof.
  intros Hwf Hd w'. subst w'. cbn [perform].
  destruct (execute_ok w id code timeout Hwf)
    as (r' & w1 & res & w' & Hg & He & Hx & Hwf1 & Hwf' & _ & _).
  unfold bind. rewrite He. cbn [snd ret].
  pose proof (executed_frame r' code timeout w1) as F. rewrite Hx in F.
  cbn [snd] in F. destruct F as (F1 & F2 & F3 & F4).
  pose proof Hwf as (_ & Hs & _).
  destruct (Hs _ _ (dict_get_In _ _ _ Hd)) as (ws & Hr & _).
  rewrite (get_or_create_existing _ _ _ _ Hd Hr) in Hg.
  inversion Hg; subst r' w1; clear Hg. cbn [sessions heap envs trace] in F1, F2, F3, F4.
  rewrite update_length in F2. auto.
Qed.

(** C3. The registry never holds two entries for one workspace id, and
    two first requests for an id that is not registered create one record
    and at most one environment between them: each handler runs from
    start to end in one piece, so the second finds the entry that the
    first inserted. *)
Theorem one_session_per_workspace (l : list Action) :
  let w := run_schedule host l init_world in
  NoDup (keys (sessions w)) /\
  forall id c1 t1 c2 t2,
    dict_get id (sessions w) = None ->
    let w2 :=
      run_schedule host [PostExecute id c1 t1; PostExecute id c2 t2] w in
    NoDup (keys (sessions w2)) /\
    sessions w2 = sessions w ++ [(id, List.length (heap w))] /\
    List.length (heap w2) = S (List.length (heap w)) /\
    (List.length (envs w2) <= S (List.length (envs w)))%nat /\
    (constructions (trace w2) <= S (constructions (trace w)))%nat.
Proof.
  intros w. pose proof (reachable_wf l) as Hwf. fold w in Hwf.
  split; [apply Hwf|].
  intros id c1 t1 c2 t2 Hd w2. subst w2. cbn [run_schedule].
  destruct (first_request w id c1 t1 Hwf Hd) as (Hwf1 & A1 & A2 & A3 & A4).
  set (w1 := snd (perform host (PostExecute id c1 t1) w)) in *.
  assert (Hd1 : dict_get id (sessions w1) = Some (List.length (heap w))).
  { apply dict_get_NoDup; [apply Hwf1|]. rewrite A1.
    apply in_or_app. right. left. reflexivity. }
  destruct (later_request w1 id c2 t2 _ Hwf1 Hd1)
    as (Hwf2 & B1 & B2 & B3 & B4).
  split; [apply Hwf2|]. rewrite B1, B2, B3, B4. auto.
Qed.

Lemma dict_get_snoc {V} (k : string) (v : V) d :
  dict_get k d = None -> dict_get k (d ++ [(k, v)]) = Some v.
Proof.
  induction d as [|[k' v'] d IH]; cbn.
  - rewrite String.eqb_refl. reflexivity.
  - destruct (String.eqb k k'); [discriminate | exact IH].
Qed.

Lemma provisioning_fails_None w id :
  provisioning_fails host w ->
  fst (fst (fst (provision host id (envs w) (S (S (steps w)))))) = None.
Proof.
  intros (Hl & Hf). unfold provision. rewrite Hl.
  cbv zeta in Hf.
  destruct (construct_at host (S (S (steps w)))) eqn:Ec; [reflexivity|].
  destruct (enter_at host (S (S (S (steps w)))) (List.length (envs w)))
    eqn:Ee; [reflexivity|].
  destruct Hf as [Hf|[Hf|Hf]]; try congruence.
  destruct (warmup host DEFAULT_LIBRARIES (S (S (S (S (steps w)))))
              (List.length (envs w)) (mkEnv Entered [])) as [[[o n'] env'] evs].
  cbn in Hf. destruct o; [reflexivity | congruence].
Qed.

Lemma provision_fresh id es n :
  let '(s, es', n', evs) := provision host id es n in
  forall h, s = Some h ->
    h = List.length es /\
    exists env,
      es' = es ++ [env] /\ status env = Entered /\
      Forall warmup_stmt (history env).
Proof.
  unfold provision.
  destruct (LLM_SANDBOX_AVAILABLE host); [|discriminate].
  destruct (construct_at host n); [discriminate|].
  destruct (enter_at host (S n) (List.length es)); [discriminate|].
  pose proof (warmup_history DEFAULT_LIBRARIES (S (S n)) (List.length es)
                (mkEnv Entered []) (fun _ H => H) (Forall_nil _)) as W.
  destruct (warmup host DEFAULT_LIBRARIES (S (S n)) (List.length es)
              (mkEnv Entered [])) as [[[o n'] env'] evs].
  destruct W as (W1 & W2).
  destruct o; [discriminate|].
  intros h E. inversion E; subst. split; [reflexivity|]. eauto.
Qed.

(** C4 (amended). When the environment of a new record has been
    constructed and entered, the warm-up goes through the fixed library
    list in order: it runs the import statement of the library and, only
    if that run raises, the install line; it logs nothing of its own.  If
    every install line that was run succeeded, the record keeps its handle
    and creation is logged.  If an install line raises, the rest of the
    list is skipped, that exception is logged as a failure to create the
    sandbox session and the record is left without handle.  In both cases
    the record is created and registered. *)
Theorem warmup_checks_then_installs (w : World) (id : string) :
  dict_get id (sessions w) = None ->
  LLM_SANDBOX_AVAILABLE host = true ->
  construct_at host (S (S (steps w))) = None ->
  enter_at host (S (S (S (steps w)))) (List.length (envs w)) = None ->
  let h := List.length (envs w) in
  let r := List.length (heap w) in
  let '(o, n', env', evs) :=
    warmup host DEFAULT_LIBRARIES (S (S (S (S (steps w))))) h
      (mkEnv Entered []) in
  exists w' ws,
    get_or_create_session host id w = (Ok r, w') /\
    dict_get id (sessions w') = Some r /\
    nth_error (heap w') r = Some ws /\
    session ws = match o with None => Some h | Some _ => None end /\
    envs w' = envs w ++ [env'] /\
    filter is_log evs = [] /\
    (forall lib, In (install_stmt lib) (history env') ->
       exists m e0 x,
         run_at host m h e0 (import_stmt lib) None = RunRaises x) /\
    trace w' =
      trace w ++
        [creating_msg id; Begin OpConstruct; End OpConstruct;
         Begin (OpEnter h); End (OpEnter h)] ++ evs ++
        [match o with
         | None => Log INFO ("Session created for workspace: " ^^ id)
         | Some e => Log ERROR ("Failed to create sandbox session: " ^^ str e)
         end].
Proof.
  intros Hd Hl Hc He h r. subst h r.
  rewrite (get_or_create_new _ _ Hd). unfold provision.
  rewrite Hl, Hc, He.
  pose proof (warmup_logs_nothing DEFAULT_LIBRARIES (S (S (S (S (steps w)))))
                (List.length (envs w)) (mkEnv Entered [])) as W.
  pose proof (warmup_installs DEFAULT_LIBRARIES (S (S (S (S (steps w)))))
                (List.length (envs w)) (mkEnv Entered [])) as V.
  destruct (warmup host DEFAULT_LIBRARIES (S (S (S (S (steps w)))))
              (List.length (envs w)) (mkEnv Entered [])) as [[[o n'] env'] evs].
  cbn [snd] in W.
  assert (V' : forall lib, In (install_stmt lib) (history env') ->
               exists m e0 x,
                 run_at host m (List.length (envs w)) e0 (import_stmt lib) None
                 = RunRaises x).
  { intros lib I. destruct (V _ I) as [[]|(lib' & _ & [E|(E & D)])].
    - unfold install_stmt, import_stmt in E. cbn [String.append] in E.
      discriminate.
    - apply append_inj_l in E. subst lib'. exact D. }
  destruct o as [e|]; do 2 eexists; (split; [reflexivity|]);
    cbn [sessions heap envs trace]; rewrite nth_error_last;
    (split; [apply dict_get_snoc; exact Hd|]);
    (split; [reflexivity|]); (split; [reflexivity|]);
    (split; [reflexivity|]); (split; [exact W|]); (split; [exact V'|]);
    cbn; rewrite <- ?app_assoc; reflexivity.
Qed.

(** C5. When provisioning fails for a new workspace id, the record is
    registered without handle; and as long as that record is the one
    registered for the id (it has not been evicted or destroyed),
    whatever the manager has done in between, [get_or_create_session]
    returns it without creating or touching any environment, and it still
    has no handle. *)
Theorem degraded_session_is_reused (l : list Action) (id : string) :
  let w := run_schedule host l init_world in
  dict_get id (sessions w) = None ->
  provisioning_fails host w ->
  exists r w1 ws,
    get_or_create_session host id w = (Ok r, w1) /\
    dict_get id (sessions w1) = Some r /\
    nth_error (heap w1) r = Some ws /\
    session ws = None /\
    forall l2,
      let w2 := run_schedule host l2 w1 in
      dict_get id (sessions w2) = Some r ->
      exists ws2 w3,
        nth_error (heap w2) r = Some ws2 /\
        session ws2 = None /\
        get_or_create_session host id w2 = (Ok r, w3) /\
        envs w3 = envs w2 /\
        trace w3 = trace w2.
Proof.
  intros w Hd Hf. pose proof (reachable_wf l) as Hwf. fold w in Hwf.
  destruct (get_or_create_ok w id Hwf)
    as (r & w1 & ws & Hg & Hwf1 & Hd1 & Hr & Hid & Hh).
  exists r, w1, ws. split; [exact Hg|]. split; [exact Hd1|].
  split; [exact Hr|].
  assert (Hs : session ws = None).
  { pose proof (provisioning_fails_None w id Hf) as P.
    rewrite (get_or_create_new _ _ Hd) in Hg.
    destruct (provision host id (envs w) (S (S (steps w))))
      as [[[s es] n] evs].
    cbn in P. subst s. inversion Hg; subst r w1; clear Hg.
    cbn in Hr. rewrite nth_error_last in Hr. inversion Hr; subst ws.
    reflexivity. }
  split; [exact Hs|].
  intros l2 w2 Hd2.
  destruct (run_schedule_ok l2 w1 Hwf1) as (Hwf2 & (Hgr & _)).
  fold w2 in Hwf2, Hgr.
  destruct (Hgr _ _ Hr) as (ws2 & Hr2 & _ & Hs2 & _).
  exists ws2. eexists. split; [exact Hr2|]. split; [congruence|].
  rewrite (get_or_create_existing _ _ _ _ Hd2 Hr2).
  split; [reflexivity|]. cbn. auto.
Qed.

(** ** Idle reaper *)

Lemma expired_keys_nth ss hp : forall n i k r ws,
  NoDup (keys ss) -> nth_error ss i = Some (k, r) ->
  nth_error hp r = Some ws ->
  In k (expired_keys host ss hp n) <->
  (time_at host (n + i) - last_used ws >? IDLE_TIMEOUT) = true.
Proof.
  induction ss as [|[k0 r0] ss IH]; intros n i k r ws ND Hi Hr.
  - destruct i; discriminate.
  - inversion ND as [|? ? Hn ND']; subst.
    destruct i as [|i]; cbn [nth_error] in Hi.
    + inversion Hi; subst k0 r0. cbn [expired_keys]. rewrite Hr, Nat.add_0_r.
      destruct (time_at host n - last_used ws >? IDLE_TIMEOUT).
      * split; [reflexivity | intros; left; reflexivity].
      * split; [|discriminate]. intros I. exfalso. apply Hn.
        eapply expired_keys_incl; eauto.
    + assert (Hk : k0 <> k).
      { intros ->. apply Hn. apply nth_error_In in Hi.
        apply in_map_iff. exists (k, r). auto. }
      rewrite Nat.add_succ_r, <- Nat.add_succ_l.
      rewrite <- (IH (S n) i k r ws ND' Hi Hr).
      cbn [expired_keys]. destruct (nth_error hp r0) as [ws0|]; [|tauto].
      destruct (time_at host n - last_used ws0 >? IDLE_TIMEOUT); [|tauto].
      cbn. intuition.
Qed.

Lemma evicted_all_keeps ids : forall w k,
  ~ In k ids ->
  dict_get k (sessions (evicted_all host ids w)) = dict_get k (sessions w).
Proof.
  induction ids as [|k0 ids IH]; intros w k Hn; cbn [evicted_all]; auto.
  rewrite IH by (intros I; apply Hn; right; exact I).
  destruct (evicted_frame k0 w) as (F1 & _). rewrite F1.
  apply dict_del_other. intros ->. apply Hn. left. reflexivity.
Qed.

Lemma evicted_all_removes ids : forall w k,
  NoDup (keys (sessions w)) -> In k ids ->
  dict_get k (sessions (evicted_all host ids w)) = None.
Proof.
  induction ids as [|k0 ids IH]; intros w k ND Hin; [destruct Hin|].
  cbn [evicted_all].
  destruct (evicted_frame k0 w) as (F1 & _).
  destruct (in_dec string_dec k ids) as [I|Hn].
  - apply IH; auto. rewrite F1. apply dict_del_NoDup. exact ND.
  - destruct Hin as [->|I]; [|contradiction].
    rewrite evicted_all_keeps by exact Hn. rewrite F1.
    apply dict_get_None, dict_del_gone, ND.
Qed.



(** * More of the module *)

(** ** Requests, seen from the world *)

(** The world after the handler of [POST /execute] is the one of
    [executed] on the record that [get_or_create_session] resolves. *)
Lemma post_execute_world w id code timeout :
  wf w ->
  exists r w1 ws,
    get_or_create_session host id w = (Ok r, w1) /\ wf w1 /\
    dict_get id (sessions w1) = Some r /\
    nth_error (heap w1) r = Some ws /\ workspace_id ws = id /\
    (forall h, session ws = Some h -> (h < List.length (envs w1))%nat) /\
    execute host id code timeout w = executed host r code timeout w1 /\
    snd (perform host (PostExecute id code timeout) w) =
      snd (executed host r code timeout w1).
Proof.
  intros Hwf.
  destruct (get_or_create_ok w id Hwf)
    as (r & w1 & ws & Hg & Hwf1 & Hd & Hr & Hid & Hh).
  exists r, w1, ws.
  pose proof (execute_eq _ _ code timeout _ _ _ Hg Hr Hid Hh) as E.
  split; [exact Hg|]. split; [exact Hwf1|]. split; [exact Hd|].
  split; [exact Hr|]. split; [exact Hid|]. split; [exact Hh|].
  split; [exact E|].
  cbn [perform]. unfold bind. rewrite E.
  destruct (executed host r code timeout w1) as [[res| |] w']; reflexivity.
Qed.

Lemma get_or_create_tasks w id r w1 :
  wf w -> get_or_create_session host id w = (Ok r, w1) ->
  tasks w1 = tasks w /\ _cleanup_task w1 = _cleanup_task w.
Proof.
  intros Hwf. pose proof Hwf as (_ & Ws & _).
  destruct (dict_get id (sessions w)) as [r0|] eqn:Hd.
  - destruct (Ws _ _ (dict_get_In _ _ _ Hd)) as (ws & Hr & _).
    rewrite (get_or_create_existing _ _ _ _ Hd Hr).
    intros E; inversion E; subst. cbn. auto.
  - rewrite (get_or_create_new _ _ Hd).
    destruct (provision host id (envs w) (S (S (steps w))))
      as [[[s es] n] evs].
    intros E; inversion E; subst. cbn. auto.
Qed.

Lemma executed_tasks r code timeout w :
  tasks (snd (executed host r code timeout w)) = tasks w /\
  _cleanup_task (snd (executed host r code timeout w)) = _cleanup_task w.
Proof.
  unfold executed.
  destruct (nth_error (heap w) r) as [ws|]; [|cbn; auto].
  destruct (session ws) as [h|]; [|cbn; auto].
  destruct (nth_error (envs w) h) as [env|]; [|cbn; auto].
  destruct (run_at host (steps w) h env code (Some timeout)); cbn; auto.
Qed.

Lemma stopped_tasks w :
  wf w ->
  _cleanup_task (stopped host w) = _cleanup_task w /\
  tasks (stopped host w) =
    match _cleanup_task w with
    | Some t =>
        match nth_error (tasks w) t with
        | Some st => update t (cancel_status st) (tasks w)
        | None => tasks w
        end
    | None => tasks w
    end.
Proof.
  intros Hwf.
  destruct (closed_all_frame (values (sessions w)) (cancelled w))
    as (_ & F2 & _ & F4 & _).
  unfold stopped. cbn [tasks _cleanup_task]. rewrite F2, F4.
  unfold cancelled. destruct (_cleanup_task w) as [t|] eqn:Hc; auto.
  destruct (nth_error (tasks w) t); cbn; auto.
Qed.

(** ** Reaper tasks *)

Lemma cancel_status_stopped st : stopped_task st -> cancel_status st = st.
Proof. destruct st; cbn; tauto. Qed.

Lemma perform_stopped_task a w t st :
  wf w -> nth_error (tasks w) t = Some st -> stopped_task st ->
  exists st',
    nth_error (tasks (snd (perform host a w))) t = Some st' /\
    stopped_task st'.
Proof.
  intros Hwf Ht Hs.
  assert (Hlt : (t < List.length (tasks w))%nat)
    by (eapply nth_error_valid; eauto).
  destruct a as [id code timeout|id| | |t'].
  - destruct (post_execute_world w id code timeout Hwf)
      as (r & w1 & ws & Hg & _ & _ & _ & _ & _ & _ & E).
    rewrite E. destruct (executed_tasks r code timeout w1) as (T1 & _).
    destruct (get_or_create_tasks _ _ _ _ Hwf Hg) as (T2 & _).
    rewrite T1, T2. eauto.
  - cbn [perform]. rewrite (destroy_eq w id Hwf). cbn [snd].
    unfold destroyed. destruct (dict_get id (sessions w)) as [r|]; eauto.
    destruct (closed_ref_frame r w) as (_ & _ & _ & F4 & _).
    cbn. rewrite F4. eauto.
  - cbn [perform]. rewrite start_eq. cbn.
    rewrite nth_error_app1 by exact Hlt. eauto.
  - cbn [perform]. rewrite (stop_eq w Hwf). cbn [snd].
    destruct (stopped_tasks w Hwf) as (_ & T). rewrite T.
    destruct (_cleanup_task w) as [t0|]; eauto.
    destruct (nth_error (tasks w) t0) as [st0|] eqn:E0; eauto.
    destruct (Nat.eq_dec t0 t) as [->|Hne].
    + rewrite nth_error_update_eq by exact Hlt.
      rewrite Ht in E0. inversion E0; subst st0.
      rewrite (cancel_status_stopped _ Hs). eauto.
    + rewrite nth_error_update_neq by exact Hne. eauto.
  - cbn [perform]. rewrite (resume_cleanup_eq w t' Hwf).
    destruct (Nat.eq_dec t' t) as [->|Hne].
    + rewrite Ht. destruct st as [pc|pc|]; [destruct Hs| |]; cbn [snd].
      * cbn. rewrite nth_error_update_eq by exact Hlt.
        eexists; split; [reflexivity | exact I].
      * eauto.
    + destruct (nth_error (tasks w) t') as [[[|d]|pc|]|]; cbn [snd];
        cbn [tasks set_tasks];
        rewrite ?nth_error_update_neq by exact Hne; eauto.
Qed.

Lemma run_schedule_stopped_task l : forall w t st,
  wf w -> nth_error (tasks w) t = Some st -> stopped_task st ->
  exists st',
    nth_error (tasks (run_schedule host l w)) t = Some st' /\
    stopped_task st'.
Proof.
  induction l as [|a l IH]; intros w t st Hwf Ht Hs; cbn [run_schedule].
  - eauto.
  - destruct (perform_stopped_task a w t st Hwf Ht Hs) as (st1 & H1 & H2).
    eapply IH; eauto. apply perform_ok. exact Hwf.
Qed.

(** ** Lifecycle supervisor *)

(** C9 (amended). [stop] never raises, whether or not [start] was called
    before.  If [self._cleanup_task] holds a task, which is the one that
    the most recent [start] created, [stop] calls [cancel] on it and on
    no other task: a parked task becomes one with a cancellation pending,
    and whenever the event loop resumes it afterwards it ends without
    running an iteration; the reaper of an earlier [start] is left as it
    was.  [stop] then runs [_close_session] on every record of the
    registry, so that [__exit__] is called on every handle, and leaves the
    registry empty. *)
Theorem stop_drains_registry (l : list Action) :
  let w := run_schedule host l init_world in
  exists w' seg,
    stop host w = (Ok tt, w') /\
    sessions w' = [] /\
    match _cleanup_task w with
    | None => tasks w' = tasks w
    | Some t =>
        exists st,
          nth_error (tasks w) t = Some st /\
          nth_error (tasks w') t =
            Some match st with
                 | Parked pc => CancelRequested pc
                 | CancelRequested pc => CancelRequested pc
                 | Finished => Finished
                 end /\
          (forall t', t' <> t ->
             nth_error (tasks w') t' = nth_error (tasks w) t') /\
          forall l2,
            let w2 := run_schedule host l2 w' in
            exists w3,
              resume_cleanup host t w2 = (Ok tt, w3) /\
              nth_error (tasks w3) t = Some Finished /\
              sessions w3 = sessions w2 /\ heap w3 = heap w2 /\
              envs w3 = envs w2 /\ trace w3 = trace w2
    end /\
    trace w' =
      trace w ++
        match _cleanup_task w with
        | Some t => [CancelTask t]
        | None => []
        end ++ seg ++ [Log INFO "Sandbox manager stopped"] /\
    (forall id r ws h,
       In (id, r) (sessions w) -> nth_error (heap w) r = Some ws ->
       session ws = Some h -> In (Begin (OpExit h)) seg).
Proof.
  intros w. pose proof (reachable_wf l) as Hwf. fold w in Hwf.
  pose proof Hwf as (ND & Hs & Hh & Ht & St).
  assert (Hwf' : wf (stopped host w)).
  { pose proof (perform_ok Shutdown w Hwf) as (H & _).
    cbn [perform] in H. rewrite (stop_eq w Hwf) in H. exact H. }
  destruct (stopped_tasks w Hwf) as (_ & T).
  destruct (closed_all_frame (values (sessions w)) (cancelled w))
    as (F1 & F2 & F3 & F4 & F5 & seg & F6 & F7).
  exists (stopped host w), seg.
  split; [apply stop_eq; exact Hwf|]. split; [reflexivity|].
  split; [|split].
  - rewrite T. destruct (_cleanup_task w) as [t|] eqn:Hc; [|reflexivity].
    specialize (Ht t eq_refl).
    destruct (nth_error (tasks w) t) as [st|] eqn:E.
    2:{ apply nth_error_None in E. lia. }
    exists st. split; [reflexivity|].
    assert (Et : nth_error (update t (cancel_status st) (tasks w)) t =
                 Some (cancel_status st))
      by (apply nth_error_update_eq; exact Ht).
    split; [rewrite Et; destruct st; reflexivity|].
    split; [intros t' Hne; apply nth_error_update_neq; congruence|].
    intros l2 w2.
    assert (S1 : stopped_task (cancel_status st)) by (destruct st; exact I).
    rewrite <- T in Et.
    destruct (run_schedule_stopped_task l2 _ t _ Hwf' Et S1)
      as (st2 & H2 & S2).
    fold w2 in H2.
    assert (Hwf2 : wf w2) by (apply run_schedule_ok; exact Hwf').
    rewrite (resume_cleanup_eq w2 t Hwf2), H2.
    destruct st2 as [pc|pc|]; [destruct S2| |].
    + eexists. split; [reflexivity|]. cbn [tasks set_tasks].
      split; [|cbn; auto].
      apply nth_error_update_eq. eapply nth_error_valid; eauto.
    + eexists. split; [reflexivity|]. auto.
  - unfold stopped. cbn [trace]. rewrite F6. unfold cancelled.
    destruct (_cleanup_task w) as [t|] eqn:Hc.
    + specialize (Ht t eq_refl).
      destruct (nth_error (tasks w) t) as [st|] eqn:E.
      2:{ apply nth_error_None in E. lia. }
      cbn [trace]. rewrite <- !app_assoc. reflexivity.
    + rewrite <- !app_assoc. reflexivity.
  - intros id r ws h Hin Hr Hse.
    destruct (cancelled_frame w) as (_ & _ & C3 & _).
    destruct (closed_all_exits (values (sessions w)) (cancelled w) r ws h)
      as (seg' & E' & I).
    + apply in_map_iff. exists (id, r). auto.
    + rewrite C3. exact Hr.
    + exact Hse.
    + rewrite F6 in E'. apply app_inv_head in E'. subst seg'. exact I.
Qed.

(** X1. After [stop], the reaper task it cancelled never evicts again:
    whatever the manager does afterwards, resuming that task raises
    nothing and leaves the registry, the records, the environments, the
    clock and the trace as they are. *)
Theorem cancelled_reaper_never_evicts
    (l l2 : list Action) (t : task_id) :
  let w := run_schedule host l init_world in
  _cleanup_task w = Some t ->
  let w2 := run_schedule host (Shutdown :: l2) w in
  exists w3,
    resume_cleanup host t w2 = (Ok tt, w3) /\
    sessions w3 = sessions w2 /\ heap w3 = heap w2 /\ envs w3 = envs w2 /\
    steps w3 = steps w2 /\ trace w3 = trace w2.
Proof.
  intros w Hc w2. subst w2. cbn [run_schedule].
  pose proof (reachable_wf l) as Hwf. fold w in Hwf.
  pose proof Hwf as (_ & _ & _ & Ht & _). specialize (Ht t Hc).
  destruct (nth_error (tasks w) t) as [st|] eqn:E.
  2:{ apply nth_error_None in E. lia. }
  assert (Hwf1 : wf (snd (perform host Shutdown w)))
    by (apply perform_ok; exact Hwf).
  assert (H1 : exists st1,
             nth_error (tasks (snd (perform host Shutdown w))) t = Some st1 /\
             stopped_task st1).
  { cbn [perform]. rewrite (stop_eq w Hwf). cbn [snd].
    destruct (stopped_tasks w Hwf) as (_ & T). rewrite T, Hc, E.
    rewrite nth_error_update_eq by exact Ht.
    eexists; split; [reflexivity|]. destruct st; exact I. }
  destruct H1 as (st1 & H1 & S1).
  destruct (run_schedule_stopped_task l2 _ t st1 Hwf1 H1 S1) as (st2 & H2 & S2).
  rewrite resume_cleanup_eq by (apply run_schedule_ok; exact Hwf1).
  rewrite H2. destruct st2 as [pc|pc|]; [destruct S2| |];
    eexists; (split; [reflexivity|]); cbn; auto.
Qed.

(** X2. [stop] cancels only the task that the last [start] created: when
    [start] is called while a reaper is parked, [self._cleanup_task] is
    overwritten, and after a following [stop] the earlier reaper is still
    parked, so the event loop goes on resuming it. *)
Theorem stop_cancels_only_latest_task
    (l : list Action) (t : task_id) (pc : CleanupPc) :
  let w := run_schedule host l init_world in
  nth_error (tasks w) t = Some (Parked pc) ->
  let w' := run_schedule host [Startup; Shutdown] w in
  nth_error (tasks w') t = Some (Parked pc) /\
  _cleanup_task w' = Some (List.length (tasks w)) /\
  nth_error (tasks w') (List.length (tasks w)) = Some (CancelRequested AtEntry).
Proof.
  intros w Ht w'. subst w'. cbn [run_schedule perform].
  pose proof (reachable_wf l) as Hwf. fold w in Hwf.
  assert (Hlt : (t < List.length (tasks w))%nat)
    by (eapply nth_error_valid; eauto).
  pose proof (perform_ok Startup w Hwf) as (Hwf1 & _). cbn [perform] in Hwf1.
  rewrite start_eq in *. cbn [snd] in *.
  rewrite (stop_eq _ Hwf1). cbn [snd].
  destruct (stopped_tasks _ Hwf1) as (T1 & T2). rewrite T1, T2.
  cbn [_cleanup_task tasks]. rewrite nth_error_last.
  split; [|split; [reflexivity|]].
  - rewrite nth_error_update_neq by lia. apply nth_error_grow. exact Ht.
  - rewrite update_last. apply nth_error_last.
Qed.

(** ** Registered environments are entered ones *)

Lemma closed_ref_envs r w h :
  nth_error (envs (closed_ref host r w)) h = nth_error (envs w) h \/
  exists ws, nth_error (heap w) r = Some ws /\ session ws = Some h.
Proof.
  unfold closed_ref.
  destruct (nth_error (heap w) r) as [ws|] eqn:Hr; [|left; reflexivity].
  unfold closed_world.
  destruct (session ws) as [h0|] eqn:Hs; [|left; reflexivity].
  destruct (Nat.eq_dec h0 h) as [->|Hne].
  - right. exists ws. split; [reflexivity | exact Hs].
  - left. destruct (exit_at host (steps w) h0); cbn [envs].
    + reflexivity.
    + apply nth_error_update_neq. exact Hne.
Qed.

Lemma opened_step w w' :
  opened w ->
  sessions w' = sessions w ->
  (forall r ws', nth_error (heap w') r = Some ws' ->
     exists ws, nth_error (heap w) r = Some ws /\ session ws = session ws') ->
  (forall h env, nth_error (envs w) h = Some env -> status env = Entered ->
     exists env', nth_error (envs w') h = Some env' /\ status env' = Entered) ->
  opened w'.
Proof.
  intros O Hs Hh He k r ws' h Hi Hr Hse. rewrite Hs in Hi.
  destruct (Hh _ _ Hr) as (ws & Hr0 & E).
  destruct (O k r ws h Hi Hr0) as (env & Hn & Hst); [congruence|].
  eapply He; eauto.
Qed.

Lemma opened_teardown w w' :
  live w -> opened w ->
  (forall x, In x (sessions w') -> In x (sessions w)) ->
  heap w' = heap w ->
  (forall h,
     nth_error (envs w') h = nth_error (envs w) h \/
     exists k0 r0 ws0,
       In (k0, r0) (sessions w) /\ nth_error (heap w) r0 = Some ws0 /\
       session ws0 = Some h /\ ~ In k0 (keys (sessions w'))) ->
  opened w'.
Proof.
  intros (_ & I2 & _) O Hin Hh He k r ws h Hi Hr Hse.
  rewrite Hh in Hr.
  destruct (He h) as [E|(k0 & r0 & ws0 & Hi0 & Hr0 & Hs0 & Hgone)].
  - rewrite E. eapply O; eauto.
  - exfalso. apply Hgone.
    assert (k = k0) by (eapply (I2 k r ws k0 r0 ws0 h); eauto).
    subst k0. apply in_map_iff. exists (k, r). auto.
Qed.

Lemma opened_evicted w k : wf w -> live w -> opened w ->
  opened (evicted host k w).
Proof.
  intros Hwf Hl O. pose proof Hwf as (ND & _).
  unfold evicted.
  set (w0 := set_trace _ w).
  destruct (dict_get k (sessions w)) as [r|] eqn:Hd; [|exact O].
  destruct (closed_ref_frame r w0) as (_ & _ & F3 & _).
  apply (opened_teardown w); auto.
  - cbn. intros x. apply dict_del_subset.
  - intros h. cbn [envs set_sessions].
    destruct (closed_ref_envs r w0 h) as [E|(ws & Hr & Hs)]; [left; exact E|].
    right. exists k, r, ws. split; [apply dict_get_In; exact Hd|].
    split; [exact Hr|]. split; [exact Hs|].
    cbn. apply dict_del_gone. exact ND.
Qed.

Lemma opened_evicted_all ids : forall w,
  wf w -> live w -> opened w -> opened (evicted_all host ids w).
Proof.
  induction ids as [|k ids IH]; intros w Hwf Hl O; cbn [evicted_all]; auto.
  apply IH; [apply wf_evicted | apply live_evicted | apply opened_evicted];
    auto.
Qed.

Lemma opened_destroyed w id : wf w -> live w -> opened w ->
  opened (destroyed host id w).
Proof.
  intros Hwf Hl O. pose proof Hwf as (ND & _).
  unfold destroyed.
  destruct (dict_get id (sessions w)) as [r|] eqn:Hd; [|exact O].
  destruct (closed_ref_frame r w) as (_ & _ & F3 & _).
  apply (opened_teardown w); auto.
  - cbn. intros x. apply dict_del_subset.
  - intros h. cbn [envs].
    destruct (closed_ref_envs r w h) as [E|(ws & Hr & Hs)]; [left; exact E|].
    right. exists id, r, ws. split; [apply dict_get_In; exact Hd|].
    split; [exact Hr|]. split; [exact Hs|].
    cbn. apply dict_del_gone. exact ND.
Qed.

Lemma opened_get_or_create w id r w1 :
  wf w -> opened w -> get_or_create_session host id w = (Ok r, w1) ->
  opened w1.
Proof.
  intros Hwf O. pose proof Hwf as (ND & Ws & Wh & _).
  destruct (dict_get id (sessions w)) as [r0|] eqn:Hd.
  - destruct (Ws _ _ (dict_get_In _ _ _ Hd)) as (ws & Hr & Hid).
    rewrite (get_or_create_existing _ _ _ _ Hd Hr).
    intros E; inversion E; subst; clear E.
    apply (opened_step w); cbn; eauto.
    intros r' ws'. destruct (Nat.eq_dec r r') as [<-|Hne].
    + rewrite nth_error_update_eq by (eapply nth_error_valid; eauto).
      intros E; inversion E; subst. eauto.
    + rewrite nth_error_update_neq by exact Hne. eauto.
  - rewrite (get_or_create_new _ _ Hd).
    pose proof (provision_facts id (envs w) (S (S (steps w)))) as P.
    pose proof (provision_fresh id (envs w) (S (S (steps w)))) as Q.
    destruct (provision host id (envs w) (S (S (steps w))))
      as [[[s es] n] evs].
    destruct P as (_ & _ & P3).
    intros E; inversion E; subst; clear E.
    intros k r ws h Hi Hr Hse. cbn [sessions heap envs] in *.
    apply in_app_or in Hi. destruct Hi as [Hi|[Hi|[]]].
    + destruct (Ws _ _ Hi) as (ws0 & Hr0 & _).
      rewrite (nth_error_grow _ _ _ _ Hr0) in Hr. inversion Hr; subst ws0.
      destruct (O k r ws h Hi Hr0 Hse) as (env & Hn & Hst).
      exists env. split; [|exact Hst].
      destruct P3 as [(_ & [->|(e & ->)])|(_ & e & ->)];
        auto using nth_error_grow.
    + inversion Hi; subst k r. rewrite nth_error_last in Hr.
      inversion Hr; subst ws. cbn in Hse.
      destruct (Q h Hse) as (-> & env & -> & Hst & _).
      exists env. split; [apply nth_error_last | exact Hst].
Qed.

Lemma opened_executed w id r ws code timeout :
  opened w -> In (id, r) (sessions w) -> nth_error (heap w) r = Some ws ->
  opened (snd (executed host r code timeout w)).
Proof.
  intros O Hi Hr. unfold executed. rewrite Hr.
  destruct (session ws) as [h|] eqn:Hs.
  - destruct (nth_error (envs w) h) as [env|] eqn:He; [|exact O].
    assert (Hlt : (h < List.length (envs w))%nat)
      by (eapply nth_error_valid; eauto).
    assert (Henv : forall h' env', nth_error (envs w) h' = Some env' ->
               status env' = Entered ->
               exists env'',
                 nth_error (update h (ran code env) (envs w)) h' = Some env'' /\
                 status env'' = Entered).
    { intros h' env' Hn Hst. destruct (Nat.eq_dec h h') as [<-|Hne].
      - rewrite nth_error_update_eq by exact Hlt.
        eexists; split; [reflexivity|]. cbn. congruence.
      - rewrite nth_error_update_neq by exact Hne. eauto. }
    destruct (run_at host (steps w) h env code (Some timeout)); cbn [snd].
    + apply (opened_step w); cbn; auto.
      intros r' ws'. destruct (Nat.eq_dec r r') as [<-|Hne].
      * rewrite nth_error_update_eq by (eapply nth_error_valid; eauto).
        intros E; inversion E; subst. eauto.
      * rewrite nth_error_update_neq by exact Hne. eauto.
    + apply (opened_step w); cbn; eauto.
  - cbn [snd]. apply (opened_step w); cbn; eauto.
Qed.

Lemma perform_opened a w :
  wf w -> live w -> opened w -> opened (snd (perform host a w)).
Proof.
  intros Hwf Hl O. destruct a as [id code timeout|id| | |t].
  - destruct (post_execute_world w id code timeout Hwf)
      as (r & w1 & ws & Hg & Hwf1 & Hd & Hr & _ & _ & _ & E).
    rewrite E.
    apply (opened_executed w1 id r ws);
      [|apply dict_get_In; exact Hd | exact Hr].
    apply (opened_get_or_create w id r w1); assumption.
  - cbn [perform]. rewrite (destroy_eq w id Hwf). apply opened_destroyed; auto.
  - cbn [perform]. rewrite start_eq. cbn [snd].
    apply (opened_step w); cbn; eauto.
  - cbn [perform]. rewrite (stop_eq w Hwf). cbn [snd].
    intros k r ws h Hi. destruct Hi.
  - cbn [perform]. rewrite (resume_cleanup_eq w t Hwf).
    destruct (nth_error (tasks w) t) as [[[|d]|pc|]|]; cbn [snd];
      try exact O.
    apply (opened_evicted_all _ (set_steps _ w)); auto.
Qed.

Lemma reachable_opened l : opened (run_schedule host l init_world).
Proof.
  assert (G : forall l w, wf w -> live w -> opened w ->
                          opened (run_schedule host l w)).
  { clear l. induction l as [|a l IH]; intros w Hwf Hl O; cbn [run_schedule].
    - exact O.
    - apply IH; [apply perform_ok | apply perform_live | apply perform_opened];
        auto. }
  apply G; [apply wf_init | apply live_init |].
  intros k r ws h [].
Qed.

(** X3. In every reachable world the environment of a registered session
    is usable: it has been entered, and [__exit__] has never been called
    on it. *)
Theorem registered_environment_is_open
    (l : list Action) (k : string) (r : ref) (ws : WorkspaceSession)
    (h : handle) :
  let w := run_schedule host l init_world in
  In (k, r) (sessions w) ->
  nth_error (heap w) r = Some ws ->
  session ws = Some h ->
  (exists env, nth_error (envs w) h = Some env /\ status env = Entered) /\
  ~ In (Begin (OpExit h)) (trace w).
Proof.
  intros w Hi Hr Hs. split.
  - eapply (reachable_opened l); eauto.
  - pose proof (reachable_live l) as (I1 & _). eapply I1; eauto.
Qed.

(** X4. In every reachable world two workspace ids never share a record
    or an environment. *)
Theorem workspaces_share_nothing
    (l : list Action) (k1 k2 : string) (r1 r2 : ref)
    (ws1 ws2 : WorkspaceSession) :
  let w := run_schedule host l init_world in
  In (k1, r1) (sessions w) -> In (k2, r2) (sessions w) -> k1 <> k2 ->
  nth_error (heap w) r1 = Some ws1 -> nth_error (heap w) r2 = Some ws2 ->
  r1 <> r2 /\
  forall h, session ws1 = Some h -> session ws2 <> Some h.
Proof.
  intros w H1 H2 Hne Hr1 Hr2.
  pose proof (reachable_wf l) as (_ & Ws & _). fold w in Ws.
  pose proof (reachable_live l) as (_ & I2 & _). fold w in I2.
  split.
  - intros ->. destruct (Ws _ _ H1) as (a & Ha & Ea).
    destruct (Ws _ _ H2) as (b & Hb & Eb). congruence.
  - intros h S1 S2. apply Hne.
    eapply (I2 k1 r1 ws1 k2 r2 ws2 h); eauto.
Qed.

(** ** Isolation and persistence *)

Lemma get_or_create_others w id r w1 :
  wf w -> get_or_create_session host id w = (Ok r, w1) ->
  (forall h env, nth_error (envs w) h = Some env ->
                 nth_error (envs w1) h = Some env) /\
  forall k' r' ws',
    In (k', r') (sessions w) -> k' <> id ->
    nth_error (heap w) r' = Some ws' ->
    In (k', r') (sessions w1) /\ nth_error (heap w1) r' = Some ws'.
Proof.
  intros Hwf. pose proof Hwf as (ND & Ws & Wh & _).
  destruct (dict_get id (sessions w)) as [r0|] eqn:Hd.
  - destruct (Ws _ _ (dict_get_In _ _ _ Hd)) as (ws & Hr & Hid).
    rewrite (get_or_create_existing _ _ _ _ Hd Hr).
    intros E; inversion E; subst r0 w1; clear E. cbn [envs sessions heap].
    split; [auto|]. intros k' r' ws' Hi Hne Hr'. split; [exact Hi|].
    rewrite nth_error_update_neq; [exact Hr'|].
    intros <-. apply Hne. rewrite Hr in Hr'. inversion Hr'; subst ws'.
    destruct (Ws _ _ Hi) as (ws2 & Hr2 & Hid2). congruence.
  - rewrite (get_or_create_new _ _ Hd).
    pose proof (provision_facts id (envs w) (S (S (steps w)))) as P.
    destruct (provision host id (envs w) (S (S (steps w))))
      as [[[s es] n] evs].
    destruct P as (_ & _ & P3).
    intros E; inversion E; subst; clear E. cbn [envs sessions heap].
    split.
    + intros h env Hn.
      destruct P3 as [(_ & [->|(e & ->)])|(_ & e & ->)];
        auto using nth_error_grow.
    + intros k' r' ws' Hi Hne Hr'. split; [apply in_or_app; left; exact Hi|].
      apply nth_error_grow. exact Hr'.
Qed.

Lemma executed_others w id r ws code timeout :
  wf w -> live w -> In (id, r) (sessions w) ->
  nth_error (heap w) r = Some ws ->
  let w' := snd (executed host r code timeout w) in
  forall k' r' ws',
    In (k', r') (sessions w) -> k' <> id ->
    nth_error (heap w) r' = Some ws' ->
    In (k', r') (sessions w') /\ nth_error (heap w') r' = Some ws' /\
    forall h, session ws' = Some h ->
              nth_error (envs w') h = nth_error (envs w) h.
Proof.
  intros (_ & Ws & _) (_ & I2 & _) Hi Hr w' k' r' ws' Hi' Hne Hr'.
  assert (Hrr : r <> r').
  { intros <-. destruct (Ws _ _ Hi) as (a & Ha & Ea).
    destruct (Ws _ _ Hi') as (b & Hb & Eb). congruence. }
  subst w'. unfold executed. rewrite Hr.
  destruct (session ws) as [h|] eqn:Hs.
  - destruct (nth_error (envs w) h) as [env|] eqn:He;
      [|cbn [snd]; auto].
    assert (Hh : forall h', session ws' = Some h' ->
              nth_error (update h (ran code env) (envs w)) h' =
              nth_error (envs w) h').
    { intros h' Hs'. apply nth_error_update_neq. intros <-.
      apply Hne. eapply (I2 k' r' ws' id r ws h); eauto. }
    destruct (run_at host (steps w) h env code (Some timeout));
      cbn [snd sessions heap envs].
    + split; [exact Hi'|]. split; [|exact Hh].
      rewrite nth_error_update_neq by exact Hrr. exact Hr'.
    + auto.
  - cbn [snd sessions heap envs]. auto.
Qed.

(** X5. A request for one workspace leaves every other registered
    workspace alone: its registry entry, its record (with [last_used]) and
    its environment are what they were. *)
Theorem execute_leaves_other_workspaces
    (l : list Action) (id code : string) (timeout : Z)
    (k : string) (r : ref) (ws : WorkspaceSession) :
  let w := run_schedule host l init_world in
  In (k, r) (sessions w) -> k <> id ->
  nth_error (heap w) r = Some ws ->
  let w' := snd (execute host id code timeout w) in
  In (k, r) (sessions w') /\ nth_error (heap w') r = Some ws /\
  forall h, session ws = Some h ->
            nth_error (envs w') h = nth_error (envs w) h.
Proof.
  intros w Hi Hne Hr w'.
  pose proof (reachable_wf l) as Hwf. fold w in Hwf.
  pose proof (reachable_live l) as Hl. fold w in Hl.
  destruct (post_execute_world w id code timeout Hwf)
    as (r0 & w1 & ws0 & Hg & Hwf1 & Hd & Hr0 & _ & _ & E & _).
  subst w'. rewrite E.
  destruct (get_or_create_others w id r0 w1 Hwf Hg) as (He & Ho).
  destruct (Ho k r ws Hi Hne Hr) as (Hi1 & Hr1).
  pose proof (live_get_or_create w id r0 w1 Hwf Hl Hg) as Hl1.
  destruct (executed_others w1 id r0 ws0 code timeout Hwf1 Hl1
              (dict_get_In _ _ _ Hd) Hr0 k r ws Hi1 Hne Hr1)
    as (A & B & C).
  split; [exact A|]. split; [exact B|].
  intros h Hs. rewrite (C h Hs).
  pose proof Hwf as (_ & _ & Wh & _).
  pose proof (Wh r ws h Hr Hs) as Hlt.
  destruct (nth_error (envs w) h) as [env|] eqn:Hn.
  - apply He. exact Hn.
  - apply nth_error_None in Hn. lia.
Qed.

Lemma execute_on_environment w id r ws h env code timeout :
  wf w -> dict_get id (sessions w) = Some r ->
  nth_error (heap w) r = Some ws -> session ws = Some h ->
  nth_error (envs w) h = Some env ->
  let w' := snd (execute host id code timeout w) in
  dict_get id (sessions w') = Some r /\
  (exists ws', nth_error (heap w') r = Some ws' /\ session ws' = Some h) /\
  nth_error (envs w') h = Some (ran code env).
Proof.
  intros Hwf Hd Hr Hs He w'.
  destruct (post_execute_world w id code timeout Hwf)
    as (r0 & w1 & ws0 & Hg & Hwf1 & Hd1 & Hr0 & _ & _ & E & _).
  subst w'. rewrite E. clear E.
  rewrite (get_or_create_existing _ _ _ _ Hd Hr) in Hg.
  inversion Hg; subst r0 w1; clear Hg.
  assert (Hrl : (r < List.length (heap w))%nat)
    by (eapply nth_error_valid; eauto).
  assert (Hhl : (h < List.length (envs w))%nat)
    by (eapply nth_error_valid; eauto).
  cbn [heap] in Hr0. rewrite nth_error_update_eq in Hr0 by exact Hrl.
  inversion Hr0; subst ws0; clear Hr0.
  unfold executed. cbn [heap envs steps sessions].
  rewrite nth_error_update_eq by exact Hrl. cbn [session].
  rewrite Hs, He.
  destruct (run_at host (S (steps w)) h env code (Some timeout));
    cbn [snd sessions heap envs].
  - split; [exact Hd|]. split.
    + rewrite update_update, nth_error_update_eq by exact Hrl.
      eexists; split; [reflexivity|]. reflexivity.
    + apply nth_error_update_eq. exact Hhl.
  - split; [exact Hd|]. split.
    + rewrite nth_error_update_eq by exact Hrl.
      eexists; split; [reflexivity|]. reflexivity.
    + apply nth_error_update_eq. exact Hhl.
Qed.

Lemma requests_accumulate l2 : forall w id r ws h env,
  Forall is_request l2 ->
  wf w -> live w -> dict_get id (sessions w) = Some r ->
  nth_error (heap w) r = Some ws -> session ws = Some h ->
  nth_error (envs w) h = Some env ->
  let w' := run_schedule host l2 w in
  dict_get id (sessions w') = Some r /\
  (exists ws', nth_error (heap w') r = Some ws' /\ session ws' = Some h) /\
  nth_error (envs w') h =
    Some (mkEnv (status env) (history env ++ codes_for id l2)).
Proof.
  induction l2 as [|a l2 IH]; intros w id r ws h env Hreq Hwf Hl Hd Hr Hs He.
  - cbn. rewrite app_nil_r. destruct env. eauto.
  - inversion Hreq as [|? ? Ha Hreq']; subst.
    destruct a as [k code timeout| | | |]; try contradiction.
    cbn [run_schedule codes_for].
    pose proof (perform_ok (PostExecute k code timeout) w Hwf)
      as (Hwf' & _).
    pose proof (perform_live (PostExecute k code timeout) w Hwf Hl) as Hl'.
    destruct (post_execute_world w k code timeout Hwf)
      as (r0 & w1 & ws0 & Hg & Hwf1 & Hd1 & Hr0 & _ & _ & E & E').
    destruct (String.eqb_spec k id) as [->|Hne].
    + destruct (execute_on_environment w id r ws h env code timeout
                  Hwf Hd Hr Hs He) as (A & (ws' & B & B') & C).
      rewrite E in A, B, C. rewrite <- E' in A, B, C.
      specialize (IH _ id r ws' h (ran code env) Hreq' Hwf' Hl' A B B' C).
      cbn [ran status history] in IH. rewrite <- app_assoc in IH.
      exact IH.
    + pose proof (live_get_or_create w k r0 w1 Hwf Hl Hg) as Hl1.
      destruct (get_or_create_others w k r0 w1 Hwf Hg) as (Hen & Ho).
      assert (Hne' : id <> k) by congruence.
      destruct (Ho id r ws (dict_get_In _ _ _ Hd) Hne' Hr) as (Hi1 & Hr1).
      destruct (executed_others w1 k r0 ws0 code timeout Hwf1 Hl1
                  (dict_get_In _ _ _ Hd1) Hr0 id r ws Hi1 Hne' Hr1)
        as (A & B & C).
      rewrite <- E' in A, B, C.
      pose proof Hwf' as (ND' & _).
      apply (IH _ id r ws h env Hreq' Hwf' Hl').
      * apply dict_get_NoDup; assumption.
      * exact B.
      * exact Hs.
      * rewrite (C h Hs). apply Hen. exact He.
Qed.

(** X6. State persists and is private: over any sequence of execute
    requests, whatever workspaces they address, the environment of a
    registered session receives exactly the codes sent to its own
    workspace id, in order, after what it had run before; the id keeps
    its record and the record keeps its environment. *)
Theorem session_state_persists
    (l l2 : list Action) (id : string) (r : ref) (ws : WorkspaceSession)
    (h : handle) (env : EnvObj) :
  let w := run_schedule host l init_world in
  Forall is_request l2 ->
  dict_get id (sessions w) = Some r ->
  nth_error (heap w) r = Some ws -> session ws = Some h ->
  nth_error (envs w) h = Some env ->
  let w' := run_schedule host l2 w in
  dict_get id (sessions w') = Some r /\
  (exists ws', nth_error (heap w') r = Some ws' /\ session ws' = Some h) /\
  nth_error (envs w') h =
    Some (mkEnv (status env) (history env ++ codes_for id l2)).
Proof.
  intros w Hreq Hd Hr Hs He.
  apply (requests_accumulate l2 w id r ws h env); auto.
  - apply reachable_wf.
  - apply reachable_live.
Qed.

(** ** Environments out of reach *)

Lemma abandoned_teardown h w w' :
  abandoned h w ->
  (forall x, In x (sessions w') -> In x (sessions w)) ->
  heap w' = heap w ->
  List.length (envs w') = List.length (envs w) ->
  (nth_error (envs w') h = nth_error (envs w) h \/
   exists k r ws,
     In (k, r) (sessions w) /\ nth_error (heap w) r = Some ws /\
     session ws = Some h) ->
  abandoned h w' /\ nth_error (envs w') h = nth_error (envs w) h.
Proof.
  intros (Hlt & U) Hin Hh Hlen [E|(k & r & ws & Hi & Hr & Hs)].
  - split; [|exact E]. split; [lia|].
    intros k r ws Hi Hr. rewrite Hh in Hr. eapply U; eauto.
  - exfalso. exact (U k r ws Hi Hr Hs).
Qed.

Lemma abandoned_closed_ref h w k r :
  abandoned h w -> In (k, r) (sessions w) ->
  abandoned h (closed_ref host r w) /\
  nth_error (envs (closed_ref host r w)) h = nth_error (envs w) h.
Proof.
  intros A Hi.
  destruct (closed_ref_frame r w) as (F1 & _ & F3 & _ & F5 & _).
  apply abandoned_teardown; auto.
  - rewrite F1. auto.
  - destruct (closed_ref_envs r w h) as [E|(ws & Hr & Hs)]; [left; exact E|].
    right. exists k, r, ws. auto.
Qed.

Lemma abandoned_closed_all h rs : forall w,
  abandoned h w -> (forall r, In r rs -> exists k, In (k, r) (sessions w)) ->
  abandoned h (closed_all host rs w) /\
  nth_error (envs (closed_all host rs w)) h = nth_error (envs w) h.
Proof.
  induction rs as [|r rs IH]; intros w A Hrs; cbn [closed_all]; [auto|].
  destruct (Hrs r (or_introl eq_refl)) as (k & Hi).
  destruct (abandoned_closed_ref h w k r A Hi) as (A1 & E1).
  destruct (closed_ref_frame r w) as (F1 & _).
  destruct (IH (closed_ref host r w) A1) as (A2 & E2).
  - intros r' Hr'. rewrite F1. apply Hrs. right. exact Hr'.
  - split; [exact A2 | congruence].
Qed.

Lemma abandoned_same h w w' :
  abandoned h w -> sessions w' = sessions w -> heap w' = heap w ->
  envs w' = envs w ->
  abandoned h w' /\ nth_error (envs w') h = nth_error (envs w) h.
Proof.
  intros A Hs Hh He. apply abandoned_teardown; auto.
  - rewrite Hs. auto.
  - rewrite He. reflexivity.
  - left. rewrite He. reflexivity.
Qed.

Lemma abandoned_shrink h w ss :
  abandoned h w -> (forall x, In x ss -> In x (sessions w)) ->
  abandoned h (set_sessions ss w).
Proof.
  intros (Hlt & U) Hin. split; [exact Hlt|].
  intros k r ws Hi Hr. cbn in *. eapply U; eauto.
Qed.

Lemma abandoned_evicted h w k :
  abandoned h w ->
  abandoned h (evicted host k w) /\
  nth_error (envs (evicted host k w)) h = nth_error (envs w) h.
Proof.
  intros A. unfold evicted.
  set (w0 := set_trace _ w).
  assert (A0 : abandoned h w0) by exact A.
  destruct (dict_get k (sessions w)) as [r|] eqn:Hd; [|auto].
  destruct (abandoned_closed_ref h w0 k r A0 (dict_get_In _ _ _ Hd))
    as (A1 & E1).
  destruct (closed_ref_frame r w0) as (F1 & _).
  split; [|exact E1].
  apply abandoned_shrink; [exact A1|].
  intros x Hx. rewrite F1. cbn. eapply dict_del_subset; eauto.
Qed.

Lemma abandoned_evicted_all h ids : forall w,
  abandoned h w ->
  abandoned h (evicted_all host ids w) /\
  nth_error (envs (evicted_all host ids w)) h = nth_error (envs w) h.
Proof.
  induction ids as [|k ids IH]; intros w A; cbn [evicted_all]; [auto|].
  destruct (abandoned_evicted h w k A) as (A1 & E1).
  destruct (IH _ A1) as (A2 & E2). split; [exact A2 | congruence].
Qed.

Lemma abandoned_get_or_create h w id r w1 :
  wf w -> abandoned h w -> get_or_create_session host id w = (Ok r, w1) ->
  abandoned h w1 /\ nth_error (envs w1) h = nth_error (envs w) h.
Proof.
  intros Hwf (Hlt & U). pose proof Hwf as (ND & Ws & Wh & _).
  destruct (dict_get id (sessions w)) as [r0|] eqn:Hd.
  - destruct (Ws _ _ (dict_get_In _ _ _ Hd)) as (ws & Hr & Hid).
    rewrite (get_or_create_existing _ _ _ _ Hd Hr).
    intros E; inversion E; subst r0 w1; clear E. cbn [envs].
    split; [|reflexivity]. split; [exact Hlt|].
    intros k r' ws' Hi Hr'. cbn [sessions heap] in *.
    destruct (Nat.eq_dec r r') as [<-|Hne].
    + rewrite nth_error_update_eq in Hr' by (eapply nth_error_valid; eauto).
      inversion Hr'; subst ws'. cbn [session]. eapply U; eauto.
    + rewrite nth_error_update_neq in Hr' by exact Hne. eapply U; eauto.
  - rewrite (get_or_create_new _ _ Hd).
    pose proof (provision_facts id (envs w) (S (S (steps w)))) as P.
    pose proof (provision_fresh id (envs w) (S (S (steps w)))) as Q.
    destruct (provision host id (envs w) (S (S (steps w))))
      as [[[s es] n] evs].
    destruct P as (_ & _ & P3).
    intros E; inversion E; subst; clear E. cbn [envs sessions heap].
    assert (Hes : nth_error es h = nth_error (envs w) h /\
                  (List.length (envs w) <= List.length es)%nat).
    { destruct P3 as [(_ & [->|(e & ->)])|(_ & e & ->)];
        rewrite ?nth_error_app1, ?length_app by exact Hlt; split;
        auto; lia. }
    destruct Hes as (Hes & Hle).
    split; [|exact Hes]. split; [cbn; lia|].
    intros k r ws Hi Hr. cbn [sessions heap] in *.
    apply in_app_or in Hi. destruct Hi as [Hi|[Hi|[]]].
    + destruct (Ws _ _ Hi) as (ws0 & Hr0 & _).
      rewrite (nth_error_grow _ _ _ _ Hr0) in Hr. inversion Hr; subst ws0.
      eapply U; eauto.
    + inversion Hi; subst k r. rewrite nth_error_last in Hr.
      inversion Hr; subst ws. cbn [session]. intros Hs.
      destruct (Q h Hs) as (-> & _). lia.
Qed.

Lemma abandoned_executed h w id r ws code timeout :
  abandoned h w -> In (id, r) (sessions w) ->
  nth_error (heap w) r = Some ws ->
  let w' := snd (executed host r code timeout w) in
  abandoned h w' /\ nth_error (envs w') h = nth_error (envs w) h.
Proof.
  intros (Hlt & U) Hi Hr w'. subst w'. unfold executed. rewrite Hr.
  assert (Hu : forall ws1,
            session ws1 = session ws ->
            unreferenced h
              (mkWorld (sessions w) (_cleanup_task w) (update r ws1 (heap w))
                 (envs w) (tasks w) (steps w) (trace w))).
  { intros ws1 E k r' ws' Hi' Hr'. cbn [sessions heap] in *.
    destruct (Nat.eq_dec r r') as [<-|Hne].
    - rewrite nth_error_update_eq in Hr' by (eapply nth_error_valid; eauto).
      inversion Hr'; subst ws'. rewrite E. eapply U; eauto.
    - rewrite nth_error_update_neq in Hr' by exact Hne. eapply U; eauto. }
  destruct (session ws) as [h0|] eqn:Hs.
  - destruct (nth_error (envs w) h0) as [env|] eqn:He;
      [|cbn [snd]; split; [split|]; auto].
    assert (Hne : h0 <> h) by (intros ->; exact (U id r ws Hi Hr Hs)).
    destruct (run_at host (steps w) h0 env code (Some timeout));
      cbn [snd envs].
    + split; [split|].
      * cbn [envs]. rewrite update_length. exact Hlt.
      * intros k r' ws' Hi' Hr'. cbn [sessions heap] in Hi', Hr'.
        exact (Hu (mkWS (workspace_id ws) (Some h0) (created_at ws)
                     (time_at host (S (steps w)))) eq_refl k r' ws' Hi' Hr').
      * apply nth_error_update_neq. exact Hne.
    + split; [split|].
      * cbn [envs]. rewrite update_length. exact Hlt.
      * exact U.
      * apply nth_error_update_neq. exact Hne.
  - cbn [snd envs]. split; [split|]; auto.
Qed.

Lemma perform_abandoned h a w :
  wf w -> abandoned h w ->
  abandoned h (snd (perform host a w)) /\
  nth_error (envs (snd (perform host a w))) h = nth_error (envs w) h.
Proof.
  intros Hwf A. destruct a as [id code timeout|id| | |t].
  - destruct (post_execute_world w id code timeout Hwf)
      as (r & w1 & ws & Hg & Hwf1 & Hd & Hr & _ & _ & _ & E).
    rewrite E.
    destruct (abandoned_get_or_create h w id r w1 Hwf A Hg) as (A1 & E1).
    destruct (abandoned_executed h w1 id r ws code timeout A1
                (dict_get_In _ _ _ Hd) Hr) as (A2 & E2).
    split; [exact A2 | congruence].
  - cbn [perform]. rewrite (destroy_eq w id Hwf). cbn [snd].
    unfold destroyed.
    destruct (dict_get id (sessions w)) as [r|] eqn:Hd; [|auto].
    destruct (abandoned_closed_ref h w id r A (dict_get_In _ _ _ Hd))
      as (A1 & E1).
    destruct (closed_ref_frame r w) as (F1 & _).
    split; [|exact E1].
    destruct A1 as (Hlt & U). split; [exact Hlt|].
    intros k r' ws Hi Hr'. cbn [sessions heap] in *.
    apply dict_del_subset in Hi. rewrite <- F1 in Hi. eapply U; eauto.
  - cbn [perform]. rewrite start_eq. cbn [snd].
    apply abandoned_same; auto.
  - cbn [perform]. rewrite (stop_eq w Hwf). cbn [snd].
    unfold stopped.
    destruct (cancelled_frame w) as (C1 & _ & C3 & C4 & _).
    destruct (abandoned_same h w (cancelled w) A C1 C3 C4) as (A0 & E0).
    destruct (abandoned_closed_all h (values (sessions w)) (cancelled w) A0)
      as (A1 & E1).
    + intros r Hr. rewrite C1. apply in_map_iff in Hr.
      destruct Hr as ([k r'] & <- & Hi). exists k. exact Hi.
    + cbn [envs]. split; [|congruence].
      destruct A1 as (Hlt & _). split; [exact Hlt|].
      intros k r ws [].
  - cbn [perform]. rewrite (resume_cleanup_eq w t Hwf).
    destruct (nth_error (tasks w) t) as [[[|d]|pc|]|]; cbn [snd];
      try (apply abandoned_same; auto; fail); auto.
    unfold ticked.
    destruct (abandoned_evicted_all h
                (expired_keys host (sessions w) (heap w) (steps w))
                (set_steps (List.length (sessions w) + steps w) w) A)
      as (A1 & E1).
    split; [exact A1 | exact E1].
Qed.

Lemma run_schedule_abandoned h l : forall w,
  wf w -> abandoned h w ->
  abandoned h (run_schedule host l w) /\
  nth_error (envs (run_schedule host l w)) h = nth_error (envs w) h.
Proof.
  induction l as [|a l IH]; intros w Hwf A; cbn [run_schedule]; [auto|].
  destruct (perform_abandoned h a w Hwf A) as (A1 & E1).
  destruct (perform_ok a w Hwf) as (Hwf1 & _).
  destruct (IH _ Hwf1 A1) as (A2 & E2). split; [exact A2 | congruence].
Qed.

Lemma evicted_trace_grows k w :
  exists seg, trace (evicted host k w) = trace w ++ seg.
Proof.
  destruct (evicted_frame k w) as (_ & _ & _ & _ & _ & seg & E & _). eauto.
Qed.

Lemma evicted_all_trace_grows ids : forall w,
  exists seg, trace (evicted_all host ids w) = trace w ++ seg.
Proof.
  induction ids as [|k ids IH]; intros w; cbn [evicted_all].
  - exists []. rewrite app_nil_r. reflexivity.
  - destruct (evicted_trace_grows k w) as (s1 & E1).
    destruct (IH (evicted host k w)) as (s2 & E2).
    exists (s1 ++ s2). rewrite E2, E1, app_assoc. reflexivity.
Qed.

Lemma evicted_one_events w k r ws h :
  dict_get k (sessions w) = Some r -> nth_error (heap w) r = Some ws ->
  workspace_id ws = k -> session ws = Some h ->
  trace (evicted host k w) =
  trace w ++
    Log INFO ("Cleaning up expired session: " ^^ k) ::
    teardown_events host k (Some h) (steps w).
Proof.
  intros Hd Hr Hid Hs. unfold evicted. rewrite Hd. cbn [trace set_sessions].
  unfold closed_ref. cbn [heap set_trace]. rewrite Hr, Hs, Hid.
  rewrite closed_world_trace. cbn [trace steps set_trace].
  rewrite <- app_assoc. reflexivity.
Qed.

Lemma evicted_all_events ids : forall w k r ws h,
  wf w -> In k ids ->
  dict_get k (sessions w) = Some r -> nth_error (heap w) r = Some ws ->
  workspace_id ws = k -> session ws = Some h ->
  exists a n b,
    trace (evicted_all host ids w) =
    trace w ++ a ++
      Log INFO ("Cleaning up expired session: " ^^ k) ::
      teardown_events host k (Some h) n ++ b.
Proof.
  induction ids as [|k0 ids IH]; intros w k r ws h Hwf Hin Hd Hr Hid Hs;
    [destruct Hin|].
  cbn [evicted_all].
  destruct (String.eqb_spec k0 k) as [->|Hne].
  - destruct (evicted_all_trace_grows ids (evicted host k w)) as (b & E).
    exists [], (steps w), b.
    rewrite E, (evicted_one_events w k r ws h Hd Hr Hid Hs), <- app_assoc.
    reflexivity.
  - destruct Hin as [->|Hin]; [contradiction|].
    destruct (evicted_frame k0 w) as (F1 & _ & F3 & _).
    destruct (evicted_trace_grows k0 w) as (s1 & E1).
    destruct (IH (evicted host k0 w) k r ws h) as (a & n & b & E); auto.
    + apply wf_evicted. exact Hwf.
    + rewrite F1, dict_del_other by congruence. exact Hd.
    + rewrite F3. exact Hr.
    + exists (s1 ++ a), n, b. rewrite E, E1, <- !app_assoc. reflexivity.
Qed.

(** X7. Eviction tears the environment down.  For a record that the
    reaper finds expired and that has an environment, the iteration logs
    the clean-up of the workspace and then calls [__exit__] on that
    environment, which had not been closed before; an exception of
    [__exit__] is turned into an ERROR log line.  From then on the
    environment is out of reach: whatever is requested later, nothing is
    run on it and its state stays as the iteration left it. *)
Theorem eviction_closes_environment
    (l : list Action) (t : task_id) (d : Z) (i : nat) (id : string)
    (r : ref) (ws : WorkspaceSession) (h : handle) :
  let w := run_schedule host l init_world in
  nth_error (tasks w) t = Some (Parked (InSleep d)) ->
  nth_error (sessions w) i = Some (id, r) ->
  nth_error (heap w) r = Some ws -> session ws = Some h ->
  (time_at host (steps w + i) - last_used ws >? IDLE_TIMEOUT) = true ->
  let w' := snd (resume_cleanup host t w) in
  ~ exited h (trace w) /\
  (exists a n b,
     trace w' =
     trace w ++ a ++
       Log INFO ("Cleaning up expired session: " ^^ id) ::
       teardown_events host id (Some h) n ++ b) /\
  forall l2,
    let w2 := run_schedule host l2 w' in
    unreferenced h w2 /\ nth_error (envs w2) h = nth_error (envs w') h.
Proof.
  intros w Ht Hi Hr Hs Hx w'.
  pose proof (reachable_wf l) as Hwf. fold w in Hwf.
  pose proof (reachable_live l) as Hl. fold w in Hl.
  pose proof Hwf as (ND & Ws & Wh & _).
  pose proof Hl as (I1 & I2 & _).
  assert (Hin : In (id, r) (sessions w)) by (eapply nth_error_In; eauto).
  assert (Hd : dict_get id (sessions w) = Some r)
    by (apply dict_get_NoDup; assumption).
  assert (Hid : workspace_id ws = id).
  { destruct (Ws _ _ Hin) as (ws0 & Hr0 & E). congruence. }
  assert (Hk : In id (expired_keys host (sessions w) (heap w) (steps w))).
  { apply (expired_keys_nth (sessions w) (heap w) (steps w) i id r ws);
      assumption. }
  split; [eapply I1; eauto|].
  pose proof (perform_ok (ResumeCleanup t) w Hwf) as (Hwf' & _).
  pose proof (perform_live (ResumeCleanup t) w Hwf Hl) as Hl'.
  cbn [perform] in Hwf', Hl'. fold w' in Hwf', Hl'.
  assert (Ew : w' =
            set_tasks (update t (Parked (InSleep CLEANUP_INTERVAL)) (tasks w))
              (ticked host w)).
  { subst w'. rewrite (resume_cleanup_eq w t Hwf), Ht. reflexivity. }
  set (w0 := set_steps (List.length (sessions w) + steps w) w).
  assert (Hwf0 : wf w0) by exact Hwf.
  split.
  - rewrite Ew. cbn [trace set_tasks]. unfold ticked. fold w0.
    apply (evicted_all_events _ w0 id r ws h); assumption.
  - assert (Hgone : dict_get id (sessions w') = None).
    { rewrite Ew. cbn [sessions set_tasks]. unfold ticked.
      apply evicted_all_removes; assumption. }
    assert (Hsub : forall x, In x (sessions w') -> In x (sessions w)).
    { rewrite Ew. cbn [sessions set_tasks]. unfold ticked. fold w0.
      generalize (expired_keys host (sessions w) (heap w) (steps w)).
      intros ids. change (sessions w) with (sessions w0).
      generalize w0. clear. induction ids as [|k ids IH]; intros w x;
        cbn [evicted_all]; [auto|].
      intros Hx. apply IH in Hx.
      destruct (evicted_frame k w) as (F1 & _). rewrite F1 in Hx.
      eapply dict_del_subset; eauto. }
    assert (Hheap : heap w' = heap w).
    { rewrite Ew. cbn [heap set_tasks]. unfold ticked. fold w0.
      generalize (expired_keys host (sessions w) (heap w) (steps w)).
      intros ids. change (heap w) with (heap w0).
      generalize w0. clear. induction ids as [|k ids IH]; intros w;
        cbn [evicted_all]; [auto|].
      rewrite IH. destruct (evicted_frame k w) as (_ & _ & F3 & _).
      exact F3. }
    assert (Hlen : List.length (envs w') = List.length (envs w)).
    { rewrite Ew. cbn [envs set_tasks]. unfold ticked. fold w0.
      generalize (expired_keys host (sessions w) (heap w) (steps w)).
      intros ids. change (envs w) with (envs w0).
      generalize w0. clear. induction ids as [|k ids IH]; intros w;
        cbn [evicted_all]; [auto|].
      rewrite IH. destruct (evicted_frame k w) as (_ & _ & _ & _ & F5 & _).
      exact F5. }
    assert (A : abandoned h w').
    { split; [rewrite Hlen; eapply Wh; eauto|].
      intros k r' ws' Hi' Hr' Hs'. rewrite Hheap in Hr'.
      assert (k = id)
        by (eapply (I2 k r' ws' id r ws h); eauto).
      subst k. apply dict_get_None in Hgone. apply Hgone.
      apply in_map_iff. exists (id, r'). auto. }
    intros l2 w2.
    destruct (run_schedule_abandoned h l2 w' Hwf' A) as ((_ & U) & E).
    split; assumption.
Qed.

Lemma provision_constructed id es n :
  LLM_SANDBOX_AVAILABLE host = true -> construct_at host n = None ->
  let '(s, es', n', evs) := provision host id es n in
  exists env, es' = es ++ [env] /\ status env <> Exited.
Proof.
  intros Hav Hc. unfold provision. rewrite Hav, Hc.
  destruct (enter_at host (S n) (List.length es)) as [e|].
  - eexists; split; [reflexivity|]. discriminate.
  - pose proof (warmup_history DEFAULT_LIBRARIES (S (S n)) (List.length es)
                  (mkEnv Entered []) (fun _ H => H) (Forall_nil _)) as W.
    destruct (warmup host DEFAULT_LIBRARIES (S (S n)) (List.length es)
                (mkEnv Entered [])) as [[[o n'] env'] evs].
    destruct W as (_ & W).
    destruct o as [e|]; (eexists; split; [reflexivity|]);
      rewrite W; discriminate.
Qed.

(** X8. An environment that was constructed for a session whose
    provisioning then failed (in [__enter__] or in the warm-up) is dropped
    without being closed: the record is registered without it, and in
    every later world the environment is still there, not exited, in the
    state the failed provisioning left it, held by no registered
    record. *)
Theorem failed_provisioning_leaks_environment
    (l : list Action) (id code : string) (timeout : Z)
    (r : ref) (ws : WorkspaceSession) :
  let w := run_schedule host l init_world in
  dict_get id (sessions w) = None ->
  LLM_SANDBOX_AVAILABLE host = true ->
  construct_at host (S (S (steps w))) = None ->
  let w1 := snd (execute host id code timeout w) in
  dict_get id (sessions w1) = Some r ->
  nth_error (heap w1) r = Some ws -> session ws = None ->
  let h := List.length (envs w) in
  exists env,
    nth_error (envs w1) h = Some env /\ status env <> Exited /\
    forall l2,
      let w2 := run_schedule host l2 w1 in
      nth_error (envs w2) h = Some env /\ unreferenced h w2.
Proof.
  intros w Hd Hav Hc w1 Hd1 Hr1 Hs1 h.
  pose proof (reachable_wf l) as Hwf. fold w in Hwf.
  pose proof Hwf as (ND & Ws & Wh & _).
  destruct (post_execute_world w id code timeout Hwf)
    as (r0 & w0 & ws0 & Hg & Hwf0 & Hd0 & Hr0 & _ & _ & E & E').
  pose proof (perform_ok (PostExecute id code timeout) w Hwf) as (Hwf1 & _).
  rewrite E', <- E in Hwf1. fold w1 in Hwf1.
  destruct (executed_ok w0 r0 ws0 code timeout Hwf0 Hr0)
    as (res & w1' & Ex & _ & (Hgr & _) & X1).
  assert (Ew1 : w1 = w1') by (unfold w1; rewrite E, Ex; reflexivity).
  rewrite <- Ew1 in Hgr, X1.
  assert (r = r0) by congruence. subst r0.
  (* the record made by [get_or_create_session] has no handle either *)
  assert (Hs0 : session ws0 = None).
  { destruct (Hgr r ws0 Hr0) as (ws' & Hr' & _ & Q & _). congruence. }
  rewrite (get_or_create_new _ _ Hd) in Hg.
  pose proof (provision_constructed id (envs w) (S (S (steps w))) Hav Hc)
    as P.
  destruct (provision host id (envs w) (S (S (steps w))))
    as [[[s es] n] evs].
  destruct P as (env & -> & Hst).
  inversion Hg as [[Er Ew0]]; subst r w0; clear Hg.
  cbn [sessions heap envs] in *.
  rewrite nth_error_last in Hr0. inversion Hr0; subst ws0; clear Hr0.
  cbn [session] in Hs0. subst s.
  set (w0 := mkWorld _ _ _ _ _ _ _) in *.
  assert (A0 : abandoned h w0).
  { split; [unfold w0, h; cbn [envs]; rewrite length_app; cbn; lia|].
    intros k r' ws' Hi' Hr' Hs'. unfold w0 in Hi', Hr'.
    cbn [sessions heap] in Hi', Hr'.
    apply in_app_or in Hi'. destruct Hi' as [Hi'|[Hi'|[]]].
    - destruct (Ws _ _ Hi') as (ws2 & Hr2 & _).
      rewrite (nth_error_grow _ _ _ _ Hr2) in Hr'. inversion Hr'; subst ws2.
      pose proof (Wh r' ws' h Hr2 Hs'). unfold h in *. lia.
    - inversion Hi'; subst k r'. rewrite nth_error_last in Hr'.
      inversion Hr'; subst ws'. discriminate. }
  destruct (abandoned_executed h w0 id (List.length (heap w))
              (mkWS id None (time_at host (steps w))
                 (time_at host (S (steps w)))) code timeout A0)
    as (A1 & E1).
  { unfold w0. cbn [sessions]. apply in_or_app. right. left. reflexivity. }
  { unfold w0. cbn [heap]. apply nth_error_last. }
  rewrite Ex in A1, E1. cbn [snd] in A1, E1. rewrite <- Ew1 in A1, E1.
  assert (Hn : nth_error (envs w1) h = Some env).
  { rewrite E1. unfold w0, h. cbn [envs]. apply nth_error_last. }
  exists env. split; [exact Hn|]. split; [exact Hst|].
  intros l2.
  destruct (run_schedule_abandoned h l2 w1 Hwf1 A1) as ((_ & U) & E2).
  split; [congruence | exact U].
Qed.

(** ** The endpoints *)

Lemma executed_events w r ws code timeout :
  nth_error (heap w) r = Some ws ->
  (forall h, session ws = Some h -> (h < List.length (envs w))%nat) ->
  let w' := snd (executed host r code timeout w) in
  (exists pre post,
     trace w' =
     trace w ++ pre ++
       [Begin
          match session ws with
          | Some h => OpRun h code (Some timeout)
          | None => OpSubprocess (fallback_python host (steps w)) code timeout
          end;
        End
          match session ws with
          | Some h => OpRun h code (Some timeout)
          | None => OpSubprocess (fallback_python host (steps w)) code timeout
          end] ++ post /\
     forallb is_log pre = true /\ forallb is_log post = true) /\
  match session ws with
  | None => steps w' = S (S (steps w))
  | Some h =>
      exists env,
        nth_error (envs w) h = Some env /\
        steps w' =
          match run_at host (steps w) h env code (Some timeout) with
          | RunReturns _ => S (S (steps w))
          | RunRaises _ => S (steps w)
          end
  end.
Proof.
  intros Hr Hh w'. subst w'. unfold executed. rewrite Hr.
  destruct (session ws) as [h|] eqn:Hs.
  - destruct (nth_error (envs w) h) as [env|] eqn:He.
    + split; [|exists env; split; [reflexivity|];
                destruct (run_at host (steps w) h env code (Some timeout));
                reflexivity].
      destruct (run_at host (steps w) h env code (Some timeout)) as [c|e];
        cbn [snd trace].
      * exists [], (images_log (workspace_id ws) c).
        split; [reflexivity|]. split; [reflexivity|].
        destruct (images_log_cases (workspace_id ws) c) as [E|(msg & E)];
          rewrite E; reflexivity.
      * exists [], [Log ERROR
                      ("Execution error in " ^^ workspace_id ws ^^ ": "
                         ^^ str e)].
        auto.
    + apply nth_error_None in He. specialize (Hh h eq_refl). lia.
  - cbn [snd trace steps]. split; [|reflexivity].
    exists [Log WARNING "No sandbox available, using subprocess fallback"], [].
    auto.
Qed.

(** X9. POST /execute always answers with a response, whose four fields
    are those of the manager's result.  The request's timeout is the bound
    of the execution, and a request without timeout gets 60 seconds.
    After the session has been looked up or created, the handler runs the
    request's code exactly once, in the session's environment or, when
    the session has none, in a subprocess, with that bound; whatever else
    it appends to the trace is log lines.  Besides that call it asks the
    host one more thing, or nothing: whether the interpreter of the
    virtual environment exists, before a subprocess; the time, in
    [touch], after a [run] that returned; nothing after a [run] that
    raised. *)
Theorem api_execute_runs_code_with_timeout
    (l : list Action) (id code : string) (timeout : option Z) :
  let w := run_schedule host l init_world in
  let request := ExecuteRequest_new id code timeout in
  let bound := match timeout with Some t => t | None => 60 end in
  exists res w' r w1 ws pre post,
    execute host id code bound w = (Ok res, w') /\
    Api.execute host request w =
      (Ok (mkResponse (success res) (stdout res) (stderr res) (artifacts res)),
       w') /\
    get_or_create_session host id w = (Ok r, w1) /\
    nth_error (heap w1) r = Some ws /\
    let op :=
      match session ws with
      | Some h => OpRun h code (Some bound)
      | None => OpSubprocess (fallback_python host (steps w1)) code bound
      end in
    trace w' = trace w1 ++ pre ++ [Begin op; End op] ++ post /\
    forallb is_log pre = true /\ forallb is_log post = true /\
    match session ws with
    | None =>
        fallback_python host (steps w1) =
          (if path_exists_at host (steps w1)
                (venv_python_path (module_dir host))
           then venv_python_path (module_dir host) else "python3") /\
        res =
          fallback_result host (S (steps w1))
            (fallback_python host (steps w1)) code bound /\
        steps w' = S (S (steps w1))
    | Some h =>
        exists env,
          nth_error (envs w1) h = Some env /\
          match run_at host (steps w1) h env code (Some bound) with
          | RunReturns _ =>
              steps w' = S (S (steps w1)) /\
              exists ws',
                nth_error (heap w') r = Some ws' /\
                last_used ws' = time_at host (S (steps w1))
          | RunRaises _ => steps w' = S (steps w1)
          end
    end.
Proof.
  intros w request bound.
  pose proof (reachable_wf l) as Hwf. fold w in Hwf.
  destruct (post_execute_world w id code bound Hwf)
    as (r & w1 & ws & Hg & Hwf1 & Hd & Hr & _ & Hh & E & _).
  destruct (executed_ok w1 r ws code bound Hwf1 Hr)
    as (res & w' & Ex & _).
  destruct (executed_events w1 r ws code bound Hr Hh)
    as ((pre & post & Et & Hpre & Hpost) & Hst).
  rewrite Ex in Et, Hst. cbn [snd] in Et, Hst.
  assert (Ee : execute host id code bound w = (Ok res, w'))
    by (rewrite E; exact Ex).
  exists res, w', r, w1, ws, pre, post.
  split; [exact Ee|]. split.
  - change (Api.execute host request w)
      with (bind (execute host id code bound)
              (fun result => ret (ExecuteResponse_of result)) w).
    unfold bind. rewrite Ee. reflexivity.
  - split; [exact Hg|]. split; [exact Hr|]. cbv zeta.
    split; [exact Et|]. split; [exact Hpre|]. split; [exact Hpost|].
    revert Ex Hst. unfold executed. rewrite Hr.
    destruct (session ws) as [h|] eqn:Hs.
    + intros Ex (env & He & Hst). exists env. split; [exact He|].
      rewrite He in Ex.
      destruct (run_at host (steps w1) h env code (Some bound)) as [c|e];
        [|exact Hst].
      split; [exact Hst|]. inversion Ex; subst w'. cbn [heap].
      eexists. split.
      * apply nth_error_update_eq. eapply nth_error_valid; eauto.
      * reflexivity.
    + intros Ex Hst. inversion Ex; subst.
      split; [reflexivity|]. split; [reflexivity|]. reflexivity.
Qed.

Lemma dict_del_length {V} (k : string) (v : V) d :
  dict_get k d = Some v -> S (List.length (dict_del k d)) = List.length d.
Proof.
  induction d as [|[k' v'] d IH]; cbn [dict_get dict_del]; [discriminate|].
  destruct (String.eqb k k'); [reflexivity|].
  intros H. cbn [List.length]. rewrite (IH H). reflexivity.
Qed.

Lemma dict_del_length_le {V} (k : string) (d : list (string * V)) :
  (List.length (dict_del k d) <= List.length d)%nat.
Proof.
  induction d as [|[k' v'] d IH]; cbn [dict_del]; [lia|].
  destruct (String.eqb k k'); cbn [List.length]; lia.
Qed.

Lemma evicted_all_length ids : forall w,
  (List.length (sessions (evicted_all host ids w)) <=
   List.length (sessions w))%nat.
Proof.
  induction ids as [|k ids IH]; intros w; cbn [evicted_all]; [lia|].
  specialize (IH (evicted host k w)).
  destruct (evicted_frame k w) as (F1 & _). rewrite F1 in IH.
  pose proof (dict_del_length_le k (sessions w)). lia.
Qed.

(** X10. GET /health reads the registry and changes nothing; it reports
    whether the sandbox library was importable, whatever happened to the
    sessions.  The number of active sessions it reports follows the
    requests: a request for an unregistered workspace adds one, also when
    its provisioning fails; a request for a registered one adds none; a
    delete of a registered workspace takes one away and any other delete
    none; startup changes nothing; after shutdown it is 0; an iteration
    of the reaper never raises it. *)
Theorem health_counts_registered_sessions (l : list Action) (a : Action) :
  let w := run_schedule host l init_world in
  let w' := snd (perform host a w) in
  let n := List.length (sessions w) in
  Api.health host w =
    (Ok (mkHealth "ok" (LLM_SANDBOX_AVAILABLE host) n), w) /\
  exists n',
    Api.health host w' =
      (Ok (mkHealth "ok" (LLM_SANDBOX_AVAILABLE host) n'), w') /\
    match a with
    | PostExecute id _ _ =>
        n' = match dict_get id (sessions w) with
             | Some _ => n
             | None => S n
             end
    | DeleteSession id =>
        n = match dict_get id (sessions w) with
            | Some _ => S n'
            | None => n'
            end
    | Startup => n' = n
    | Shutdown => n' = 0%nat
    | ResumeCleanup _ => (n' <= n)%nat
    end.
Proof.
  intros w w' n.
  pose proof (reachable_wf l) as Hwf. fold w in Hwf.
  split; [reflexivity|].
  exists (List.length (sessions w')). split; [reflexivity|].
  destruct a as [id code timeout|id| | |t].
  - destruct (dict_get id (sessions w)) as [r|] eqn:Hd.
    + destruct (later_request w id code timeout r Hwf Hd) as (_ & E & _).
      unfold w'. rewrite E. reflexivity.
    + destruct (first_request w id code timeout Hwf Hd) as (_ & E & _).
      unfold w'. rewrite E, length_app. cbn. unfold n. lia.
  - unfold w'. cbn [perform]. rewrite (destroy_eq w id Hwf). cbn [snd].
    unfold destroyed.
    destruct (dict_get id (sessions w)) as [r|] eqn:Hd; [|reflexivity].
    cbn [sessions]. unfold n. symmetry. eapply dict_del_length; eauto.
  - reflexivity.
  - unfold w'. cbn [perform]. rewrite (stop_eq w Hwf). reflexivity.
  - unfold w'. cbn [perform]. rewrite (resume_cleanup_eq w t Hwf).
    destruct (nth_error (tasks w) t) as [[[|d]|pc|]|]; cbn [snd];
      try (unfold n; cbn [sessions set_tasks]; lia).
    cbn [sessions set_tasks]. unfold ticked.
    apply (evicted_all_length _ (set_steps _ w)).
Qed.

(** X11. DELETE /sessions/{workspace_id} always answers
    [{"status": "ok"}], for a workspace that has a session and for one
    that has none alike; afterwards the workspace has no session, and
    for a workspace that had none the handler changed nothing. *)
Theorem api_delete_always_ok (l : list Action) (id : string) :
  let w := run_schedule host l init_world in
  exists w',
    Api.destroy_session host id w = (Ok [("status", "ok")], w') /\
    dict_get id (sessions w') = None /\
    (dict_get id (sessions w) = None -> w' = w).
Proof.
  intros w. pose proof (reachable_wf l) as Hwf. fold w in Hwf.
  pose proof Hwf as (ND & _).
  exists (destroyed host id w). split; [|split].
  - unfold Api.destroy_session, bind. rewrite (destroy_eq w id Hwf).
    reflexivity.
  - unfold destroyed.
    destruct (dict_get id (sessions w)) as [r|] eqn:Hd; [|exact Hd].
    cbn [sessions]. apply dict_get_None. apply dict_del_gone. exact ND.
  - intros Hd. unfold destroyed. rewrite Hd. reflexivity.
Qed.

(** X12. [execute] refreshes the idle clock of the session it uses: when
    it returns, [last_used] of the record of the workspace is a reading
    of the clock taken during this call. *)
Theorem execute_refreshes_last_used
    (l : list Action) (id code : string) (timeout : Z) :
  let w := run_schedule host l init_world in
  let w' := snd (execute host id code timeout w) in
  exists r ws' m,
    dict_get id (sessions w') = Some r /\
    nth_error (heap w') r = Some ws' /\
    last_used ws' = time_at host m /\
    (steps w <= m < steps w')%nat.
Proof.
  intros w w'. pose proof (reachable_wf l) as Hwf. fold w in Hwf.
  pose proof Hwf as (ND & Ws & Wh & _).
  destruct (post_execute_world w id code timeout Hwf)
    as (r & w1 & ws & Hg & Hwf1 & Hd & Hr & _ & Hh & E & _).
  assert (H1 : exists m, last_used ws = time_at host m /\
                         (steps w <= m < steps w1)%nat).
  { destruct (dict_get id (sessions w)) as [r0|] eqn:Hd0.
    - destruct (Ws _ _ (dict_get_In _ _ _ Hd0)) as (ws0 & Hr0 & _).
      rewrite (get_or_create_existing _ _ _ _ Hd0 Hr0) in Hg.
      inversion Hg; subst r0 w1; clear Hg. cbn [heap steps] in *.
      rewrite nth_error_update_eq in Hr by (eapply nth_error_valid; eauto).
      inversion Hr; subst ws. cbn [last_used].
      exists (steps w). split; [reflexivity | lia].
    - rewrite (get_or_create_new _ _ Hd0) in Hg.
      pose proof (provision_facts id (envs w) (S (S (steps w)))) as P.
      destruct (provision host id (envs w) (S (S (steps w))))
        as [[[s es] n] evs].
      destruct P as (_ & P2 & _).
      inversion Hg as [[Er Ew]]; subst r w1; clear Hg.
      cbn [heap steps] in *. rewrite nth_error_last in Hr.
      inversion Hr; subst ws. cbn [last_used].
      exists (S (steps w)). split; [reflexivity | lia]. }
  destruct H1 as (m & Hm & Hlt).
  unfold w'. rewrite E. unfold executed. rewrite Hr.
  destruct (session ws) as [h|] eqn:Hs.
  - destruct (nth_error (envs w1) h) as [env|] eqn:He.
    + destruct (run_at host (steps w1) h env code (Some timeout));
        cbn [snd sessions heap steps].
      * exists r, (mkWS (workspace_id ws) (Some h) (created_at ws)
                     (time_at host (S (steps w1)))), (S (steps w1)).
        split; [exact Hd|]. split.
        -- apply nth_error_update_eq. eapply nth_error_valid; eauto.
        -- split; [reflexivity | lia].
      * exists r, ws, m. repeat split; auto; lia.
    + apply nth_error_None in He. specialize (Hh h eq_refl). lia.
  - cbn [snd sessions heap steps]. exists r, ws, m.
    repeat split; auto; lia.
Qed.

(** ** The warm-up on a complete image *)

Lemma warmup_all_present libs : forall n h env,
  (forall m e lib, In lib libs ->
     exists out, run_at host m h e (import_stmt lib) None = RunReturns out) ->
  warmup host libs n h env =
  (None, (n + List.length libs)%nat,
   mkEnv (status env) (history env ++ map import_stmt libs),
   flat_map (fun lib => run_events h (import_stmt lib) None) libs).
Proof.
  induction libs as [|lib libs IH]; intros n h env Hall.
  - change (warmup host [] n h env) with (None (A:=exn), n, env, @nil Event).
    cbn [List.length map flat_map]. rewrite app_nil_r, Nat.add_0_r.
    destruct env; reflexivity.
  - change (warmup host (lib :: libs) n h env) with
      (match run_at host n h env (import_stmt lib) None with
       | RunReturns _ =>
           let '(o, n', env', evs) :=
             warmup host libs (S n) h (ran (import_stmt lib) env) in
           (o, n', env', run_events h (import_stmt lib) None ++ evs)
       | RunRaises _ =>
           match
             run_at host (S n) h (ran (import_stmt lib) env)
               (install_stmt lib) None
           with
           | RunReturns _ =>
               let '(o, n', env', evs) :=
                 warmup host libs (S (S n)) h
                   (ran (install_stmt lib) (ran (import_stmt lib) env)) in
               (o, n', env',
                run_events h (import_stmt lib) None ++
                  run_events h (install_stmt lib) None ++ evs)
           | RunRaises e =>
               (Some e, S (S n),
                ran (install_stmt lib) (ran (import_stmt lib) env),
                run_events h (import_stmt lib) None ++
                  run_events h (install_stmt lib) None)
           end
       end).
    destruct (Hall n env lib (or_introl eq_refl)) as (out & ->).
    rewrite IH by (intros m e lib' Hin; apply Hall; right; exact Hin).
    cbn [List.length map flat_map ran status history].
    rewrite <- app_assoc, Nat.add_succ_r. reflexivity.
Qed.

(** X13. On an image that has every default library, creating a session
    costs exactly seven runs in the new environment, the seven import
    statements in the order of the list, and no install line; the record
    gets the environment and creation is logged. *)
Theorem warmup_on_complete_image (l : list Action) (id : string) :
  let w := run_schedule host l init_world in
  let h := List.length (envs w) in
  dict_get id (sessions w) = None ->
  LLM_SANDBOX_AVAILABLE host = true ->
  construct_at host (S (S (steps w))) = None ->
  enter_at host (S (S (S (steps w)))) h = None ->
  (forall m e lib, In lib DEFAULT_LIBRARIES ->
     exists out, run_at host m h e (import_stmt lib) None = RunReturns out) ->
  exists w',
    get_or_create_session host id w = (Ok (List.length (heap w)), w') /\
    heap w' =
      heap w ++
        [mkWS id (Some h) (time_at host (steps w))
           (time_at host (S (steps w)))] /\
    envs w' =
      envs w ++
        [mkEnv Entered
           ["import pandas"; "import numpy"; "import matplotlib";
            "import pypdf"; "import pdfplumber"; "import openpyxl";
            "import requests"]] /\
    steps w' = (steps w + 11)%nat /\
    trace w' =
      trace w ++
        [creating_msg id; Begin OpConstruct; End OpConstruct;
         Begin (OpEnter h); End (OpEnter h)] ++
        flat_map (fun lib => run_events h (import_stmt lib) None)
          DEFAULT_LIBRARIES ++
        [Log INFO ("Session created for workspace: " ^^ id)].
Proof.
  intros w h Hd Hav Hc He Hall.
  rewrite (get_or_create_new _ _ Hd). unfold provision.
  rewrite Hav, Hc. fold h. rewrite He.
  rewrite (warmup_all_present DEFAULT_LIBRARIES _ h _ Hall).
  eexists. split; [reflexivity|]. cbn [heap envs steps trace].
  split; [reflexivity|]. split; [reflexivity|]. split.
  - cbn [List.length DEFAULT_LIBRARIES]. lia.
  - rewrite <- !app_assoc. reflexivity.
Qed.
(** ** A result object without [images] *)

(** X14. When the sandbox's [run] returns an object that has no [images]
    attribute, the request is answered as a failure although the code has
    run: the environment has the code in its history and [last_used] is
    refreshed, but reading the attribute raises inside the [try], so the
    exit status and the output of the run are dropped, the result is
    [success = false] with the text of the [AttributeError], and that
    text is logged as an execution error. *)
Theorem result_without_images_is_a_failure
    (l : list Action) (id code : string) (timeout : Z)
    (r : ref) (w1 : World) (ws : WorkspaceSession) (h : handle)
    (env : EnvObj) (co : ConsoleOutput) :
  let w := run_schedule host l init_world in
  get_or_create_session host id w = (Ok r, w1) ->
  nth_error (heap w1) r = Some ws -> session ws = Some h ->
  nth_error (envs w1) h = Some env ->
  run_at host (steps w1) h env code (Some timeout) = RunReturns co ->
  images co = None ->
  let text := "'" ^^ co_class co ^^ "' object has no attribute 'images'" in
  exists w',
    execute host id code timeout w = (Ok (mkResult false "" text []), w') /\
    nth_error (envs w') h = Some (ran code env) /\
    nth_error (heap w') r =
      Some (mkWS (workspace_id ws) (Some h) (created_at ws)
              (time_at host (S (steps w1)))) /\
    trace w' =
      trace w1 ++ run_events h code (Some timeout) ++
        [Log ERROR ("Execution error in " ^^ id ^^ ": " ^^ text)].
Proof.
  intros w Hg Hr Hs He Hrun Him text.
  pose proof (reachable_wf l) as Hwf. fold w in Hwf.
  destruct (post_execute_world w id code timeout Hwf)
    as (r' & w1' & ws' & Hg' & Hwf1 & Hd & Hr' & Hid & Hh & E & _).
  rewrite Hg in Hg'. inversion Hg'; subst r' w1'.
  rewrite Hr in Hr'. inversion Hr'; subst ws'.
  rewrite E. unfold executed. rewrite Hr, Hs, He, Hrun.
  unfold sandbox_result, images_log. rewrite Him, Hid.
  eexists. split; [reflexivity|]. cbn [envs heap trace].
  split; [|split].
  - apply nth_error_update_eq. eapply nth_error_valid; eauto.
  - apply nth_error_update_eq. eapply nth_error_valid; eauto.
  - reflexivity.
Qed.
End Methods.

(** ** The statements on the example hosts *)

(** C1 as first stated fails on the provisioning-failure path: no
    environment can be constructed for "ws3", the code runs in a
    subprocess that exits with status 0, and the result has
    [success = true]. *)
Lemma execute_after_provisioning_failure_succeeds :
  provisioning_fails host_no_docker init_world /\
  ~ (forall res w',
       execute host_no_docker "ws3" "print(1)" 5 init_world = (Ok res, w') ->
       success res = false).
Proof.
  split.
  - split; [reflexivity|]. left. discriminate.
  - intros H.
    assert (E : exists w',
               execute host_no_docker "ws3" "print(1)" 5 init_world =
               (Ok (mkResult true "1" "" []), w'))
      by (vm_compute; eexists; reflexivity).
    destruct E as (w' & E). specialize (H _ _ E). discriminate.
Qed.

(** C4 as first stated fails when an installation fails: the environment
    of "ws" is constructed and entered, the import of the first library
    raises and so does its installation; the record is created without
    handle. *)
Lemma warmup_failure_drops_handle :
  construct_at host_offline 2 = None /\
  enter_at host_offline 3 0 = None /\
  ~ (forall r w' ws,
       get_or_create_session host_offline "ws" init_world = (Ok r, w') ->
       nth_error (heap w') r = Some ws ->
       session ws <> None).
Proof.
  split; [reflexivity|]. split; [reflexivity|].
  intros H.
  assert (E : exists w',
             get_or_create_session host_offline "ws" init_world = (Ok 0%nat, w')
             /\ nth_error (heap w') 0 = Some (mkWS "ws" None 0 1))
    by (vm_compute; eexists; split; reflexivity).
  destruct E as (w' & E1 & E2).
  exact (H _ _ _ E1 E2 eq_refl).
Qed.

(** The image lacks one library: its import raises, it is installed, no
    other library is, nothing is logged about it, and the record keeps
    its handle. *)
Lemma warmup_checks_then_installs_witness :
  dict_get "ws" (sessions init_world) = None /\
  LLM_SANDBOX_AVAILABLE host_missing_pypdf = true /\
  construct_at host_missing_pypdf 2 = None /\
  enter_at host_missing_pypdf 3 0 = None /\
  exists w' ws,
    get_or_create_session host_missing_pypdf "ws" init_world = (Ok 0%nat, w') /\
    nth_error (heap w') 0 = Some ws /\
    session ws = Some 0%nat /\
    filter is_log (trace w') =
      [creating_msg "ws"; Log INFO "Session created for workspace: ws"] /\
    In (Begin (OpRun 0 "!pip install -q pypdf" None)) (trace w') /\
    ~ In (Begin (OpRun 0 "!pip install -q pandas" None)) (trace w').
Proof.
  repeat (split; [reflexivity|]).
  pose proof (warmup_checks_then_installs host_missing_pypdf init_world "ws"
                eq_refl eq_refl eq_refl eq_refl) as H.
  cbv zeta in H.
  change (S (S (S (S (steps init_world))))) with 4%nat in H.
  change (List.length (envs init_world)) with 0%nat in H.
  change (List.length (heap init_world)) with 0%nat in H.
  destruct (warmup host_missing_pypdf DEFAULT_LIBRARIES 4 0 (mkEnv Entered []))
    as [[[o n'] env'] evs] eqn:E.
  vm_compute in E. inversion E; subst; clear E.
  destruct H as (w' & ws & H1 & H2 & H3 & H4 & H5 & H6 & _ & H7).
  exists w', ws. split; [exact H1|]. split; [exact H3|]. split; [exact H4|].
  rewrite H7. split; [vm_compute; reflexivity|]. split.
  - vm_compute. tauto.
  - vm_compute. intros H. repeat (destruct H as [H|H]; [discriminate|]).
    exact H.
Defined.

(** After a failed provisioning, a request for another id and a request
    for the same id create no environment. *)
Lemma degraded_session_is_reused_witness :
  dict_get "ws3" (sessions (run_schedule host_no_docker [] init_world))
    = None /\
  provisioning_fails host_no_docker
    (run_schedule host_no_docker [] init_world) /\
  exists r w1,
    get_or_create_session host_no_docker "ws3" init_world = (Ok r, w1) /\
    exists w3,
      get_or_create_session host_no_docker "ws3"
        (run_schedule host_no_docker
           [PostExecute "other" "pass" 1; PostExecute "ws3" "pass" 1] w1)
        = (Ok r, w3) /\
      envs w3 = [].
Proof.
  assert (Hf : provisioning_fails host_no_docker
                 (run_schedule host_no_docker [] init_world)).
  { split; [reflexivity|]. left. discriminate. }
  split; [reflexivity|]. split; [exact Hf|].
  destruct (degraded_session_is_reused host_no_docker [] "ws3" eq_refl Hf)
    as (r & w1 & ws & H1 & H2 & H3 & H4 & H5).
  exists r, w1. split; [exact H1|].
  assert (E : get_or_create_session host_no_docker "ws3" init_world =
              (Ok 0%nat,
               mkWorld [("ws3", 0%nat)] None [mkWS "ws3" None 0 1] [] [] 3
                 [creating_msg "ws3"; Begin OpConstruct; End OpConstruct;
                  Log ERROR
                    "Failed to create sandbox session: docker is not running"]))
    by (vm_compute; reflexivity).
  change (run_schedule host_no_docker [] init_world) with init_world in H1.
  rewrite E in H1. inversion H1; subst r w1.
  destruct (H5 [PostExecute "other" "pass" 1; PostExecute "ws3" "pass" 1])
    as (ws2 & w3 & _ & _ & G & G' & _).
  { vm_compute. reflexivity. }
  exists w3. split; [exact G|]. rewrite G'. vm_compute. reflexivity.
Defined.


(** A second resolution of "ws1" moves its last-used time from 1200 to
    1300 and changes nothing else. *)
Lemma get_existing_session_only_touches_witness :
  dict_get "ws1" (sessions ws1_world) = Some 0%nat /\
  nth_error (heap ws1_world) 0 = Some (mkWS "ws1" (Some 0%nat) 0 1200) /\
  exists w',
    get_or_create_session host_demo "ws1" ws1_world = (Ok 0%nat, w') /\
    nth_error (heap w') 0 = Some (mkWS "ws1" (Some 0%nat) 0 1300) /\
    envs w' = envs ws1_world /\ trace w' = trace ws1_world.
Proof.
  assert (H1 : dict_get "ws1" (sessions ws1_world) = Some 0%nat)
    by (vm_compute; reflexivity).
  assert (H2 : nth_error (heap ws1_world) 0
               = Some (mkWS "ws1" (Some 0%nat) 0 1200))
    by (vm_compute; reflexivity).
  split; [exact H1|]. split; [exact H2|].
  destruct (get_existing_session_only_touches host_demo ws1_world "ws1" 0%nat
              _ H1 H2) as (w' & G1 & G2 & G3 & G4 & G5 & G6 & G7 & G8).
  exists w'. split; [exact G1|]. split; [|split; [exact G5 | exact G8]].
  rewrite G2. vm_compute. reflexivity.
Defined.

(** C8 as first stated fails on the sandbox path: the bound of one
    second expires, the sandbox's [run] raises its timeout exception, and
    the error output of the result is the text of that exception, here
    empty, not a message that tells the bound. *)
Lemma sandbox_timeout_has_no_fixed_message :
  exists w1 env w',
    get_or_create_session host_quiet_timeout "ws2" init_world =
      (Ok 0%nat, w1) /\
    nth_error (heap w1) 0 = Some (mkWS "ws2" (Some 0%nat) 0 1) /\
    nth_error (envs w1) 0 = Some env /\
    run_at host_quiet_timeout (steps w1) 0 env "while True: pass" (Some 1) =
      RunRaises (mkExn SandboxTimeoutError "") /\
    execute host_quiet_timeout "ws2" "while True: pass" 1 init_world =
      (Ok (mkResult false "" "" []), w') /\
    "" <> timeout_message 1.
Proof.
  do 3 eexists.
  split; [vm_compute; reflexivity|].
  split; [vm_compute; reflexivity|].
  split; [vm_compute; reflexivity|].
  split; [reflexivity|].
  split; [vm_compute; reflexivity|].
  vm_compute. discriminate.
Qed.

(** C9 as first stated fails when [start] was called twice: the reaper of
    the first call is asleep when [stop] runs, [stop] cancels only the
    task of the second call, and the first reaper, resumed later, evicts
    the session of "a". *)
Lemma stop_misses_earlier_reaper :
  let w := run_schedule host_demo restart_schedule init_world in
  nth_error (tasks w) 0 = Some (Parked (InSleep 60)) /\
  exists w',
    stop host_demo w = (Ok tt, w') /\
    nth_error (tasks w') 0 = Some (Parked (InSleep 60)) /\
    nth_error (tasks w') 1 = Some (CancelRequested AtEntry) /\
    let w2 := run_schedule host_demo later_requests w' in
    dict_get "a" (sessions w2) = Some 0%nat /\
    dict_get "a" (sessions (snd (resume_cleanup host_demo 0 w2))) = None.
Proof.
  cbv zeta. split; [vm_compute; reflexivity|].
  eexists. split; [vm_compute; reflexivity|].
  split; [vm_compute; reflexivity|].
  split; [vm_compute; reflexivity|].
  split; vm_compute; reflexivity.
Qed.

(** The scenario of an endless loop under a bound of one second, on the
    fallback path and in an environment. *)
Lemma timeout_is_reported_witness :
  (get_or_create_session host_slow "ws2"
     (run_schedule host_slow [] init_world) =
     (Ok 0%nat,
      mkWorld [("ws2", 0%nat)] None [mkWS "ws2" None 0 1] [] [] 2
        [creating_msg "ws2"]) /\
   subprocess_at host_slow 3 "python3" "while True: pass" 1 =
     ProcRaises (mkExn TimeoutExpired "timed out") /\
   exists w',
     execute host_slow "ws2" "while True: pass" 1 init_world =
       (Ok (mkResult false "" "Execution timed out after 1 seconds" []), w'))
  /\
  (let w1 :=
     snd (get_or_create_session host_quiet_timeout "ws2" init_world) in
   nth_error (heap w1) 0 = Some (mkWS "ws2" (Some 0%nat) 0 1) /\
   exists w',
     execute host_quiet_timeout "ws2" "while True: pass" 1 init_world =
       (Ok (mkResult false "" "" []), w')).
Proof.
  split.
  - assert (H1 : get_or_create_session host_slow "ws2"
                   (run_schedule host_slow [] init_world) =
                 (Ok 0%nat,
                  mkWorld [("ws2", 0%nat)] None [mkWS "ws2" None 0 1] [] [] 2
                    [creating_msg "ws2"]))
      by (vm_compute; reflexivity).
    split; [exact H1|]. split; [reflexivity|].
    exact (timeout_is_reported host_slow [] "ws2" "while True: pass" 1 0
             _ (mkWS "ws2" None 0 1) (mkExn TimeoutExpired "timed out")
             H1 eq_refl (conj eq_refl eq_refl)).
  - cbv zeta.
    set (w1 := snd (get_or_create_session host_quiet_timeout "ws2"
                      init_world)).
    assert (H1 : get_or_create_session host_quiet_timeout "ws2"
                   (run_schedule host_quiet_timeout [] init_world) =
                 (Ok 0%nat, w1)) by (vm_compute; reflexivity).
    assert (H2 : nth_error (heap w1) 0 = Some (mkWS "ws2" (Some 0%nat) 0 1))
      by (vm_compute; reflexivity).
    split; [exact H2|].
    assert (H3 : exists env,
               nth_error (envs w1) 0 = Some env /\
               run_at host_quiet_timeout (steps w1) 0 env "while True: pass"
                 (Some 1) = RunRaises (mkExn SandboxTimeoutError "")).
    { eexists. split; [vm_compute; reflexivity | reflexivity]. }
    exact (timeout_is_reported host_quiet_timeout [] "ws2" "while True: pass"
             1 0 w1 (mkWS "ws2" (Some 0%nat) 0 1)
             (mkExn SandboxTimeoutError "") H1 H2 H3).
Defined.

(** ** The further properties on the example hosts *)

Lemma cancelled_reaper_never_evicts_witness :
  _cleanup_task idle_world = Some 0%nat /\
  exists w3,
    resume_cleanup host_demo 0
      (run_schedule host_demo [Shutdown; PostExecute "c" "z = 3" 5]
         idle_world) = (Ok tt, w3) /\
    sessions w3 = [("c", 2%nat)].
Proof.
  unfold idle_world.
  set (w := run_schedule host_demo idle_schedule init_world).
  assert (H0 : _cleanup_task w = Some 0%nat) by (vm_compute; reflexivity).
  split; [exact H0|].
  pose proof (cancelled_reaper_never_evicts host_demo idle_schedule
                [PostExecute "c" "z = 3" 5] 0%nat H0) as H.
  cbv zeta in H. fold w in H. destruct H as (w3 & H1 & H2 & _).
  exists w3. split; [exact H1|]. rewrite H2. vm_compute. reflexivity.
Defined.

Lemma stop_cancels_only_latest_task_witness :
  nth_error (tasks (run_schedule host_demo [Startup] init_world)) 0 =
    Some (Parked AtEntry) /\
  nth_error
    (tasks
       (run_schedule host_demo [Startup; Shutdown]
          (run_schedule host_demo [Startup] init_world))) 0 =
    Some (Parked AtEntry).
Proof.
  assert (H0 : nth_error (tasks (run_schedule host_demo [Startup] init_world))
                 0 = Some (Parked AtEntry)) by (vm_compute; reflexivity).
  split; [exact H0|].
  exact (proj1 (stop_cancels_only_latest_task host_demo [Startup] 0%nat
                  AtEntry H0)).
Defined.

Lemma registered_environment_is_open_witness :
  In ("ws1", 0%nat) (sessions ws1_world) /\
  ~ In (Begin (OpExit 0)) (trace ws1_world).
Proof.
  unfold ws1_world.
  set (w := run_schedule host_demo [PostExecute "ws1" "x = 1" 5] init_world).
  assert (H1 : In ("ws1", 0%nat) (sessions w))
    by (vm_compute; left; reflexivity).
  assert (H2 : nth_error (heap w) 0 = Some (mkWS "ws1" (Some 0%nat) 0 1200))
    by (vm_compute; reflexivity).
  split; [exact H1|].
  exact (proj2 (registered_environment_is_open host_demo
                  [PostExecute "ws1" "x = 1" 5] "ws1" 0%nat
                  (mkWS "ws1" (Some 0%nat) 0 1200) 0%nat H1 H2 eq_refl)).
Defined.

Lemma workspaces_share_nothing_witness :
  In ("a", 0%nat) (sessions idle_world) /\
  In ("b", 1%nat) (sessions idle_world) /\
  session (mkWS "b" (Some 1%nat) 1300 3100) <> Some 0%nat.
Proof.
  unfold idle_world.
  set (w := run_schedule host_demo idle_schedule init_world).
  assert (H1 : In ("a", 0%nat) (sessions w))
    by (vm_compute; left; reflexivity).
  assert (H2 : In ("b", 1%nat) (sessions w))
    by (vm_compute; right; left; reflexivity).
  assert (H3 : "a" <> "b") by discriminate.
  assert (H4 : nth_error (heap w) 0 = Some (mkWS "a" (Some 0%nat) 0 1200))
    by (vm_compute; reflexivity).
  assert (H5 : nth_error (heap w) 1 = Some (mkWS "b" (Some 1%nat) 1300 3100))
    by (vm_compute; reflexivity).
  split; [exact H1|]. split; [exact H2|].
  exact (proj2 (workspaces_share_nothing host_demo idle_schedule "a" "b"
                  0%nat 1%nat _ _ H1 H2 H3 H4 H5) 0%nat eq_refl).
Defined.

Lemma execute_leaves_other_workspaces_witness :
  In ("b", 1%nat) (sessions idle_world) /\
  nth_error (heap (snd (execute host_demo "a" "x += 1" 5 idle_world))) 1 =
    Some (mkWS "b" (Some 1%nat) 1300 3100).
Proof.
  unfold idle_world.
  set (w := run_schedule host_demo idle_schedule init_world).
  assert (H1 : In ("b", 1%nat) (sessions w))
    by (vm_compute; right; left; reflexivity).
  assert (H2 : "b" <> "a") by discriminate.
  assert (H3 : nth_error (heap w) 1 = Some (mkWS "b" (Some 1%nat) 1300 3100))
    by (vm_compute; reflexivity).
  split; [exact H1|].
  exact (proj1 (proj2 (execute_leaves_other_workspaces host_demo idle_schedule
                         "a" "x += 1" 5 "b" 1%nat _ H1 H2 H3))).
Defined.

Lemma session_state_persists_witness :
  dict_get "b" (sessions idle_world) = Some 1%nat /\
  nth_error
    (envs
       (run_schedule host_demo
          [PostExecute "a" "p" 5; PostExecute "b" "q" 5;
           PostExecute "c" "r" 5; PostExecute "b" "s" 5] idle_world)) 1 =
    Some
      (mkEnv Entered
         (map import_stmt DEFAULT_LIBRARIES ++ ["y = 2"; "y"; "y"; "q"; "s"])).
Proof.
  unfold idle_world.
  set (w := run_schedule host_demo idle_schedule init_world).
  set (l2 := [PostExecute "a" "p" 5; PostExecute "b" "q" 5;
              PostExecute "c" "r" 5; PostExecute "b" "s" 5]).
  assert (H0 : Forall is_request l2) by (repeat constructor).
  assert (H1 : dict_get "b" (sessions w) = Some 1%nat)
    by (vm_compute; reflexivity).
  assert (H2 : nth_error (heap w) 1 = Some (mkWS "b" (Some 1%nat) 1300 3100))
    by (vm_compute; reflexivity).
  assert (H3 : nth_error (envs w) 1 =
               Some (mkEnv Entered
                       (map import_stmt DEFAULT_LIBRARIES ++
                          ["y = 2"; "y"; "y"])))
    by (vm_compute; reflexivity).
  split; [exact H1|].
  pose proof (session_state_persists host_demo idle_schedule l2
                "b" 1%nat _ 1%nat _ H0 H1 H2 eq_refl H3) as H.
  cbv zeta in H. fold w in H. destruct H as (_ & _ & H).
  rewrite H. vm_compute. reflexivity.
Defined.

Lemma eviction_closes_environment_witness :
  nth_error (sessions idle_world) 0 = Some ("a", 0%nat) /\
  (time_at host_demo (steps idle_world + 0) - 1200 >? IDLE_TIMEOUT) = true /\
  let w' := snd (resume_cleanup host_demo 0 idle_world) in
  nth_error (envs (run_schedule host_demo [PostExecute "a" "x" 5] w')) 0 =
  nth_error (envs w') 0.
Proof.
  unfold idle_world.
  set (w := run_schedule host_demo idle_schedule init_world).
  assert (H0 : nth_error (tasks w) 0 = Some (Parked (InSleep 60)))
    by (vm_compute; reflexivity).
  assert (H1 : nth_error (sessions w) 0 = Some ("a", 0%nat))
    by (vm_compute; reflexivity).
  assert (H2 : nth_error (heap w) 0 = Some (mkWS "a" (Some 0%nat) 0 1200))
    by (vm_compute; reflexivity).
  assert (H3 : (time_at host_demo (steps w + 0) -
                  last_used (mkWS "a" (Some 0%nat) 0 1200) >? IDLE_TIMEOUT)
               = true) by (vm_compute; reflexivity).
  split; [exact H1|]. split; [exact H3|].
  exact (proj2 (proj2 (proj2
           (eviction_closes_environment host_demo idle_schedule 0%nat 60
              0%nat "a" 0%nat _ 0%nat H0 H1 H2 eq_refl H3))
           [PostExecute "a" "x" 5])).
Defined.

Lemma failed_provisioning_leaks_environment_witness :
  construct_at host_offline 2 = None /\
  let w1 := snd (execute host_offline "ws" "pass" 1 init_world) in
  nth_error (heap w1) 0 = Some (mkWS "ws" None 0 1) /\
  exists env,
    nth_error (envs w1) 0 = Some env /\ status env <> Exited /\
    nth_error
      (envs (run_schedule host_offline [DeleteSession "ws"; Shutdown] w1)) 0 =
    Some env.
Proof.
  split; [reflexivity|]. cbv zeta.
  set (w1 := snd (execute host_offline "ws" "pass" 1 init_world)).
  assert (H1 : dict_get "ws" (sessions w1) = Some 0%nat)
    by (vm_compute; reflexivity).
  assert (H2 : nth_error (heap w1) 0 = Some (mkWS "ws" None 0 1))
    by (vm_compute; reflexivity).
  split; [exact H2|].
  destruct (failed_provisioning_leaks_environment host_offline [] "ws" "pass"
              1 0%nat _ eq_refl eq_refl eq_refl H1 H2 eq_refl)
    as (env & G1 & G2 & G3).
  exists env. split; [exact G1|]. split; [exact G2|].
  exact (proj1 (G3 [DeleteSession "ws"; Shutdown])).
Defined.

Lemma warmup_on_complete_image_witness :
  enter_at host_demo 3 0 = None /\
  exists w',
    get_or_create_session host_demo "ws1" init_world = (Ok 0%nat, w') /\
    steps w' = 11%nat.
Proof.
  split; [reflexivity|].
  destruct (warmup_on_complete_image host_demo [] "ws1" eq_refl eq_refl
              eq_refl eq_refl)
    as (w' & G1 & _ & _ & G4 & _).
  { intros m e lib _. eexists. reflexivity. }
  exists w'. split; [exact G1 | exact G4].
Defined.

Lemma result_without_images_is_a_failure_witness :
  let w1 :=
    snd (get_or_create_session host_plain_output "ws1" init_world) in
  nth_error (heap w1) 0 = Some (mkWS "ws1" (Some 0%nat) 0 1) /\
  exists w',
    execute host_plain_output "ws1" "x = 1; print(x)" 5 init_world =
      (Ok (mkResult false ""
             "'ConsoleOutput' object has no attribute 'images'" []), w').
Proof.
  cbv zeta.
  set (w1 := snd (get_or_create_session host_plain_output "ws1" init_world)).
  assert (H1 : get_or_create_session host_plain_output "ws1"
                 (run_schedule host_plain_output [] init_world) =
               (Ok 0%nat, w1)) by (vm_compute; reflexivity).
  assert (H2 : nth_error (heap w1) 0 = Some (mkWS "ws1" (Some 0%nat) 0 1))
    by (vm_compute; reflexivity).
  assert (H3 : nth_error (envs w1) 0 =
               Some (mkEnv Entered (map import_stmt DEFAULT_LIBRARIES)))
    by (vm_compute; reflexivity).
  split; [exact H2|].
  destruct (result_without_images_is_a_failure host_plain_output [] "ws1"
              "x = 1; print(x)" 5 0%nat w1 _ 0%nat _
              (mkCO "ConsoleOutput" 0 (Some "1") (Some "") None)
              H1 H2 eq_refl H3 eq_refl eq_refl)
    as (w' & G & _).
  exists w'. exact G.
Defined.
